(** * EcoCare spoof app: device registry synchronisation core

    A shallow embedding of [main.py].  Python values that travel through the
    program (rows of the CSV file, decoded JSON, socket.io payloads) are
    terms of [pyval]; a Python [dict] with string keys is a [gmap string
    pyval]; the window object [SpoofApp] is a record that the methods thread
    through a state-and-exception monad. *)

From stdpp Require Import gmap strings list fin_maps.
From Stdlib Require Import ZArith Ascii DecimalString.

Open Scope Z_scope.
Open Scope string_scope.

(** ** Python values *)

(** A Python [float]: an IEEE 754 binary64.  A finite one is
    [(-1)^neg * m * 2^e]; the program never computes with floats, it only
    compares them and tests them for zero. *)
Inductive pyfloat :=
| FNaN
| FInf (neg : bool)
| FFinite (neg : bool) (m : N) (e : Z).

(** The values [json.loads] and the socket.io client build: [None], [bool],
    [int], [float], [str], [list] and [dict] with [str] keys.  A [str] is
    held as its UTF-8 bytes. *)
#[warnings="-register-all"]
Inductive pyval :=
| PNone
| PBool (b : bool)
| PInt (z : Z)
| PFloat (f : pyfloat)
| PStr (s : string)
| PList (l : list pyval)
| PDict (d : gmap string pyval).

(** A device record is a Python [dict]. *)
Abbreviation device := (gmap string pyval).

(** *** Equality [==] *)

(** [bool] is a subclass of [int]: [True == 1]. *)
Definition bool_to_Z (b : bool) : Z := if b then 1 else 0.

(** The signed mantissa of a finite float. *)
Definition signed (neg : bool) (m : N) : Z :=
  if neg then - Z.of_N m else Z.of_N m.

(** [m1 * 2^e1 = m2 * 2^e2], both sides scaled to the smaller exponent. *)
Definition dyadic_eqb (m1 e1 m2 e2 : Z) : bool :=
  let e := Z.min e1 e2 in
  (m1 * 2 ^ (e1 - e) =? m2 * 2 ^ (e2 - e))%Z.

Definition float_eqb (f g : pyfloat) : bool :=
  match f, g with
  | FNaN, _ | _, FNaN => false
  | FInf s, FInf t => Bool.eqb s t
  | FFinite s m e, FFinite t n k => dyadic_eqb (signed s m) e (signed t n) k
  | _, _ => false
  end.

(** Python compares an [int] with a [float] exactly. *)
Definition int_float_eqb (z : Z) (f : pyfloat) : bool :=
  match f with
  | FFinite s m e => dyadic_eqb z 0 (signed s m) e
  | _ => false
  end.

Fixpoint py_eq (a b : pyval) : bool :=
  match a, b with
  | PNone, PNone => true
  | PBool x, PBool y => Bool.eqb x y
  | PBool x, PInt z | PInt z, PBool x => (bool_to_Z x =? z)%Z
  | PBool x, PFloat f | PFloat f, PBool x => int_float_eqb (bool_to_Z x) f
  | PInt x, PInt y => (x =? y)%Z
  | PInt z, PFloat f | PFloat f, PInt z => int_float_eqb z f
  | PFloat f, PFloat g => float_eqb f g
  | PStr s, PStr t => bool_decide (s = t)
  | PList l, PList m =>
      (fix all2 (l m : list pyval) : bool :=
         match l, m with
         | [], [] => true
         | x :: l, y :: m => py_eq x y && all2 l m
         | _, _ => false
         end) l m
  | PDict d, PDict e =>
      bool_decide (size d = size e) &&
      map_fold (λ k x acc,
                match e !! k with Some y => py_eq x y | None => false end && acc)
               true d
  | _, _ => false
  end.

(** *** Truth value [bool(v)] *)

Definition py_bool (v : pyval) : bool :=
  match v with
  | PNone => false
  | PBool b => b
  | PInt z => negb (z =? 0)%Z
  | PFloat (FFinite _ m _) => negb (m =? 0)%N
  | PFloat _ => true
  | PStr s => negb (bool_decide (s = ""))
  | PList l => negb (bool_decide (length l = 0%nat))
  | PDict d => negb (bool_decide (size d = 0%nat))
  end.

(** *** Subscription [v[key]] and iteration *)

Inductive exn :=
| KeyError (key : string)
| TypeError
| IndexError
| JSONDecodeError
| RecursionError.

Inductive outcome (A : Type) :=
| Return (a : A)
| Raise (e : exn).
Arguments Return {A} a.
Arguments Raise {A} e.

(** [d[key]] on a [dict]. *)
Definition dict_getitem (d : gmap string pyval) (key : string) : outcome pyval :=
  match d !! key with
  | Some v => Return v
  | None => Raise (KeyError key)
  end.

(** [v[key]] with a [str] key: only a [dict] can be subscripted by a
    string. *)
Definition py_getitem (v : pyval) (key : string) : outcome pyval :=
  match v with
  | PDict d => dict_getitem d key
  | _ => Raise TypeError
  end.

(** [v[key] = x] with a [str] key. *)
Definition py_setitem (v : pyval) (key : string) (x : pyval) : outcome pyval :=
  match v with
  | PDict d => Return (PDict (<[key := x]> d))
  | _ => Raise TypeError
  end.

(** The code points of a [str] held as UTF-8: a byte [10xxxxxx] continues
    the code point before it. *)
Definition is_continuation (c : ascii) : bool :=
  let n := N_of_ascii c in ((128 <=? n) && (n <? 192))%N.

Fixpoint code_points (s : string) : list string :=
  match s with
  | EmptyString => []
  | String c rest =>
      match code_points rest with
      | p :: ps =>
          match p with
          | String c' _ =>
              if is_continuation c' then String c p :: ps
              else String c EmptyString :: p :: ps
          | EmptyString => String c EmptyString :: ps
          end
      | [] => [String c EmptyString]
      end
  end.

(** [for x in v]: the elements of a [list], the keys of a [dict], the
    characters of a [str]; nothing else can be iterated. *)
Definition py_iter (v : pyval) : outcome (list pyval) :=
  match v with
  | PList l => Return l
  | PDict d => Return (PStr <$> (map_to_list d).*1)
  | PStr s => Return (PStr <$> code_points s)
  | _ => Raise TypeError
  end.

(** ** The state schema and its validator *)

Inductive jtype := TArray | TObject | TString | TNumber | TBoolean.

(** A JSON Schema: an object of keywords [Obj], and the keywords
    [DEVICE_STATE_SCHEMA] uses. *)
#[warnings="-register-all"]
Inductive schema :=
| Obj (keywords : list schema)
| Type_ (t : jtype)
| Items (s : schema)
| Properties (ps : list (string * schema))
| Required (keys : list string)
| OneOf (alternatives : list schema).

Definition DEVICE_STATE_SCHEMA : schema :=
  Obj [ Type_ TArray;
        Items (Obj [
          Type_ TObject;
          Properties [
            ("fieldName", Obj [Type_ TString]);
            ("datatype", Obj [Type_ TString]);
            ("value", Obj [OneOf [ Obj [Type_ TString];
                                   Obj [Type_ TNumber];
                                   Obj [Type_ TBoolean] ]]) ];
          Required ["fieldName"; "datatype"; "value"] ]) ].

(** jsonschema's type checker: a [bool] is not a number. *)
Definition is_type (t : jtype) (v : pyval) : bool :=
  match t, v with
  | TArray, PList _ => true
  | TObject, PDict _ => true
  | TString, PStr _ => true
  | TNumber, (PInt _ | PFloat _) => true
  | TBoolean, PBool _ => true
  | _, _ => false
  end.

(** [validate(instance, schema)] returns normally ([true]) or raises
    [ValidationError] ([false]).  [items] constrains lists only,
    [properties] and [required] objects only; a property that is absent is
    not checked by [properties]; [oneOf] wants exactly one alternative. *)
Fixpoint validate (instance : pyval) (s : schema) {struct s} : bool :=
  match s with
  | Obj keywords => forallb (validate instance) keywords
  | Type_ t => is_type t instance
  | Items s' =>
      match instance with
      | PList l => forallb (λ x, validate x s') l
      | _ => true
      end
  | Properties ps =>
      match instance with
      | PDict d =>
          forallb (λ p, match d !! p.1 with
                        | Some x => validate x p.2
                        | None => true
                        end) ps
      | _ => true
      end
  | Required keys =>
      match instance with
      | PDict d => forallb (λ k, bool_decide (is_Some (d !! k))) keys
      | _ => true
      end
  | OneOf alternatives =>
      bool_decide (length (List.filter (validate instance) alternatives) = 1%nat)
  end.

(** ** Library functions the program calls

    [json.loads], [json.dumps(_, indent=4)], [str] and the text of
    [QTableWidgetItem(v)] for a [v] that is not a [str] belong to Python
    and Qt, not to this repository: the program is embedded over any
    implementation of them.  [reference_runtime] below is one. *)
Class Runtime := {
  (** [json.loads(text)]; [None] when it raises [JSONDecodeError]. *)
  json_loads : string → option pyval;
  (** [json.dumps(v, indent=4)]. *)
  json_dumps : pyval → string;
  (** [str(v)]. *)
  py_str : pyval → string;
  (** The text of [QTableWidgetItem(v)] when [v] is not a [str]; [None]
      when no constructor takes [v] ([TypeError]). *)
  item_text : pyval → option string;
}.

(** ** The window and its state *)

(** A cell of the table: the text it shows and whether the operator may
    edit it. *)
Record cell := Cell { cell_text : string; cell_editable : bool }.

Record QTableWidget := {
  rowCount : nat;
  cells : gmap (nat * nat) cell;
}.

(** The item a slot of [itemChanged] receives. *)
Record QTableWidgetItem := {
  row : nat;
  column : nat;
  text : string;
}.

(** The calls made on the socket.io client [self.sio]. *)
Inductive sio_call :=
| sio_connect (url : string)
| sio_disconnect
| sio_emit (event : string) (data : pyval).

Record SpoofApp := {
  devices : list (gmap string pyval);
  internal_change : bool;
  table : QTableWidget;
  sio : list sio_call;
  connected : bool;
}.

Definition set_devices (f : list (gmap string pyval) → list (gmap string pyval))
    (self : SpoofApp) : SpoofApp :=
  {| devices := f (devices self); internal_change := internal_change self;
     table := table self; sio := sio self; connected := connected self |}.

Definition set_internal_change (b : bool) (self : SpoofApp) : SpoofApp :=
  {| devices := devices self; internal_change := b;
     table := table self; sio := sio self; connected := connected self |}.

Definition set_table (f : QTableWidget → QTableWidget) (self : SpoofApp) : SpoofApp :=
  {| devices := devices self; internal_change := internal_change self;
     table := f (table self); sio := sio self; connected := connected self |}.

Definition set_sio (f : list sio_call → list sio_call) (self : SpoofApp) : SpoofApp :=
  {| devices := devices self; internal_change := internal_change self;
     table := table self; sio := f (sio self); connected := connected self |}.

Definition set_connected (b : bool) (self : SpoofApp) : SpoofApp :=
  {| devices := devices self; internal_change := internal_change self;
     table := table self; sio := sio self; connected := b |}.

(** ** Statements: state and exceptions

    A method body is a function from the window's state to an outcome
    (normal return or a raised exception) and the state it leaves: what a
    statement did before an exception was raised stays done. *)
Definition M (A : Type) : Type := SpoofApp → outcome A * SpoofApp.

#[global] Instance outcome_ret : MRet outcome := λ A a, Return a.
#[global] Instance outcome_bind : MBind outcome := λ A B f o,
  match o with
  | Return a => f a
  | Raise e => Raise e
  end.

#[global] Instance M_ret : MRet M := λ A a self, (Return a, self).
#[global] Instance M_bind : MBind M := λ A B f c self,
  match c self with
  | (Return a, self') => f a self'
  | (Raise e, self') => (Raise e, self')
  end.

Definition raise {A} (e : exn) : M A := λ self, (Raise e, self).
Definition lift {A} (o : outcome A) : M A := λ self, (o, self).
Definition gets {A} (f : SpoofApp → A) : M A := λ self, (Return (f self), self).
Definition modify (f : SpoofApp → SpoofApp) : M unit := λ self, (Return tt, f self).

(** A plain [return], or the end of a body. *)
Definition skip : M unit := mret tt.

(** [for x in xs: body(x)]. *)
Fixpoint for_each {A} (xs : list A) (body : A → M unit) : M unit :=
  match xs with
  | [] => skip
  | x :: xs => body x ;; for_each xs body
  end.

(** The same loop for code that has no state. *)
Fixpoint map_outcome {A B} (f : A → outcome B) (xs : list A) : outcome (list B) :=
  match xs with
  | [] => Return []
  | x :: xs => y ← f x; ys ← map_outcome f xs; Return (y :: ys)
  end.

(** ** The program *)

Definition SERVER_URL : string := "http://127.0.0.1:5000".

Section Program.
Context `{Runtime}.

(** [json.loads(x)]: a value that is not a [str] is a [TypeError]. *)
Definition loads (x : pyval) : outcome pyval :=
  match x with
  | PStr s =>
      match json_loads s with
      | Some v => Return v
      | None => Raise JSONDecodeError
      end
  | _ => Raise TypeError
  end.

(** *** [read_unconnected_iot_devices] *)

(** The body of [for entry in device["state"]]. *)
Definition coerce_entry (entry : pyval) : outcome pyval :=
  datatype ← py_getitem entry "datatype";
  if py_eq datatype (PStr "boolean") then
    value ← py_getitem entry "value";
    py_setitem entry "value" (PBool (py_bool value))
  else Return entry.

(** The loop over the entries; the entries of a list are changed in place,
    the keys of a [dict] and the characters of a [str] are fresh objects. *)
Definition coerce_state (state : pyval) : outcome pyval :=
  entries ← py_iter state;
  entries' ← map_outcome coerce_entry entries;
  Return (match state with PList _ => PList entries' | _ => state end).

(** The body of [for device in devices]. *)
Definition read_device (device : gmap string pyval) : outcome (gmap string pyval) :=
  raw ← dict_getitem device "state";
  state ← loads raw;
  let device := <["state" := state]> device in
  flag ← dict_getitem device "connected";
  let device := <["connected" := PBool (py_eq flag (PStr "true"))]> device in
  state ← dict_getitem device "state";
  state' ← coerce_state state;
  Return (<["state" := state']> device).

(** [rows] is what [csv.DictReader] yields for the file. *)
Definition read_unconnected_iot_devices (rows : list (gmap string pyval))
    : outcome (list (gmap string pyval)) :=
  map_outcome read_device rows.

(** *** The table widget *)

(** [QTableWidgetItem(v)]: the text of the new item. *)
Definition new_item (v : pyval) : outcome string :=
  match v with
  | PStr s => Return s
  | _ =>
      match item_text v with
      | Some s => Return s
      | None => Raise TypeError
      end
  end.

Definition columnCount : nat := 7.

(** [self.table.setRowCount(n)]: the items of the rows that go away are
    deleted. *)
Definition setRowCount (n : nat) : M unit :=
  modify (set_table (λ t,
    {| rowCount := n;
       cells := filter (λ kv, (kv.1.1 < n)%nat) (cells t) |})).

(** [self.table.item(row, col)]. *)
Definition item (r c : nat) : M (option cell) :=
  gets (λ self, cells (table self) !! (r, c)).

(** [self.table.setItem(row, col, QTableWidgetItem(text))]: outside the
    table nothing happens; inside, the new item (editable, as every new
    item is) replaces the old one and the table emits [itemChanged], so
    the connected [slot] runs before [setItem] returns. *)
Definition setItem (slot : QTableWidgetItem → M unit) (r c : nat) (s : string)
    : M unit :=
  t ← gets table;
  if bool_decide (r < rowCount t)%nat && bool_decide (c < columnCount)%nat then
    modify (set_table (λ t,
      {| rowCount := rowCount t;
         cells := <[(r, c) := Cell s true]> (cells t) |})) ;;
    slot {| row := r; column := c; text := s |}
  else skip.

(** [item.setFlags(item.flags() & ~ItemIsEditable)] on the item at
    [(row, col)]; it emits [itemChanged] as well. *)
Definition setFlags_not_editable (slot : QTableWidgetItem → M unit) (r c : nat)
    (it : cell) : M unit :=
  modify (set_table (λ t,
    {| rowCount := rowCount t;
       cells := <[(r, c) := Cell (cell_text it) false]> (cells t) |})) ;;
  slot {| row := r; column := c; text := cell_text it |}.

(** *** The registry *)

(** [device[key]] for the device [self.devices[i]]: a device the code
    holds is a reference into the registry, here its index. *)
Definition device_getitem (i : nat) (key : string) : M pyval :=
  ds ← gets devices;
  match ds !! i with
  | Some d => lift (dict_getitem d key)
  | None => raise IndexError
  end.

(** [device[key] = v]. *)
Definition device_setitem (i : nat) (key : string) (v : pyval) : M unit :=
  modify (set_devices (alter (<[key := v]>) i)).

(** The loop of [search_devices] from index [i] on. *)
Fixpoint search_from (ds : list (gmap string pyval)) (ip_address : pyval) (i : nat)
    : outcome (option nat) :=
  match ds with
  | [] => Return None
  | d :: ds =>
      a ← dict_getitem d "ipAddress";
      if py_eq a ip_address then Return (Some i)
      else search_from ds ip_address (S i)
  end.

Definition search_devices (ip_address : pyval) : M (option nat) :=
  ds ← gets devices;
  lift (search_from ds ip_address 0).

(** [if device:] for what [search_devices] returned. *)
Definition found (r : option nat) : M bool :=
  match r with
  | None => mret false
  | Some i =>
      ds ← gets devices;
      match ds !! i with
      | Some d => mret (py_bool (PDict d))
      | None => raise IndexError
      end
  end.

(** *** Publication *)

Definition emit (event : string) (data : pyval) : M unit :=
  modify (set_sio (λ calls, (calls ++ [sio_emit event data])%list)).

Definition send_iot_device_update (i : nat) : M unit :=
  c ← device_getitem i "connected";
  if negb (py_bool c) then skip
  else
    ds ← gets devices;
    match ds !! i with
    | None => raise IndexError
    | Some d =>
        let updated_device := delete "connected" d in
        emit "spoof_app_iot_device_update" (PDict updated_device)
    end.

(** The comprehension [device.copy() for device in self.devices if not
    device["connected"]]. *)
Fixpoint unconnected (ds : list (gmap string pyval))
    : outcome (list (gmap string pyval)) :=
  match ds with
  | [] => Return []
  | d :: ds =>
      c ← dict_getitem d "connected";
      rest ← unconnected ds;
      Return (if negb (py_bool c) then d :: rest else rest)
  end.

Definition send_unconnected_iot_devices : M unit :=
  c ← gets connected;
  if negb c then skip
  else
    ds ← gets devices;
    unconnected_iot_devices ← lift (unconnected ds);
    emit "unconnected_iot_devices"
         (PList (PDict <$> (delete "connected" <$> unconnected_iot_devices))).

(** *** Display refresh and the edit handler

    [populate_table] and [handle_cell_change] call each other through the
    signal [itemChanged]: [setItem] runs the slot [handle_cell_change],
    whose revert branches call [setItem] again.  [depth] bounds the nesting
    of these calls as Python's recursion limit does. *)

(** The first loop of [populate_table], for one row. *)
Definition populate_row (slot : QTableWidgetItem → M unit) (r : nat) : M unit :=
  v ← device_getitem r "connected";
  setItem slot r 0 (py_str v) ;;
  v ← device_getitem r "ipAddress";
  s ← lift (new_item v);
  setItem slot r 1 s ;;
  v ← device_getitem r "name";
  s ← lift (new_item v);
  setItem slot r 2 s ;;
  v ← device_getitem r "description";
  s ← lift (new_item v);
  setItem slot r 3 s ;;
  v ← device_getitem r "state";
  setItem slot r 4 (json_dumps v) ;;
  v ← device_getitem r "status";
  s ← lift (new_item v);
  setItem slot r 5 s ;;
  v ← device_getitem r "faultStatus";
  s ← lift (new_item v);
  setItem slot r 6 s.

(** The second loop, for one row: columns 0 to 3 are made read-only. *)
Definition lock_row (slot : QTableWidgetItem → M unit) (r : nat) : M unit :=
  for_each [0; 1; 2; 3]%nat (λ c,
    it ← item r c;
    match it with
    | Some it => setFlags_not_editable slot r c it
    | None => skip
    end).

Definition populate_table_with (slot : QTableWidgetItem → M unit) : M unit :=
  modify (set_internal_change true) ;;
  ds ← gets devices;
  setRowCount (length ds) ;;
  for_each (seq 0 (length ds)) (populate_row slot) ;;
  n ← gets (λ self, rowCount (table self));
  for_each (seq 0 n) (lock_row slot) ;;
  modify (set_internal_change false).

(** The body of [handle_cell_change]; [slot] is the handler itself, as the
    table calls it back. *)
Definition handle_cell_change_with (slot : QTableWidgetItem → M unit)
    (it : QTableWidgetItem) : M unit :=
  busy ← gets internal_change;
  if (busy : bool) then skip
  else
    let r := row it in
    let col := column it in
    let text := text it in
    ip_address_item ← item r 1;
    match ip_address_item with
    | None => skip
    | Some ip_address_item =>
        let ip_address := cell_text ip_address_item in
        device ← search_devices (PStr ip_address);
        ok ← found device;
        match device with
        | Some i =>
            if negb ok then skip
            else
              match col with
              | 4%nat =>
                  match json_loads text with
                  | None => raise JSONDecodeError
                  | Some candidate =>
                      if validate candidate DEVICE_STATE_SCHEMA then
                        state ← lift (loads (PStr text));
                        device_setitem i "state" state ;;
                        send_iot_device_update i
                      else
                        modify (set_internal_change true) ;;
                        state ← device_getitem i "state";
                        setItem slot r col (json_dumps state) ;;
                        modify (set_internal_change false)
                  end
              | 5%nat =>
                  if negb (bool_decide (text = "On"))
                     && negb (bool_decide (text = "Off")) then
                    modify (set_internal_change true) ;;
                    status ← device_getitem i "status";
                    setItem slot r col (py_str status) ;;
                    modify (set_internal_change false)
                  else
                    device_setitem i "status" (PStr text) ;;
                    send_iot_device_update i
              | 6%nat =>
                  if negb (bool_decide (text = "Ok"))
                     && negb (bool_decide (text = "Fault")) then
                    modify (set_internal_change true) ;;
                    fault ← device_getitem i "faultStatus";
                    setItem slot r col (py_str fault) ;;
                    modify (set_internal_change false)
                  else
                    device_setitem i "faultStatus" (PStr text) ;;
                    send_iot_device_update i
              | _ => send_iot_device_update i
              end
        | None => skip
        end
    end.

Fixpoint handle_cell_change_at (depth : nat) (it : QTableWidgetItem) : M unit :=
  match depth with
  | O => raise RecursionError
  | S depth => handle_cell_change_with (handle_cell_change_at depth) it
  end.

(** One level for the handler, one for the call the table makes back into
    it; [handle_cell_change_depth] shows that more levels change nothing. *)
Definition handle_cell_change : QTableWidgetItem → M unit :=
  handle_cell_change_at 2.

Definition populate_table : M unit :=
  populate_table_with handle_cell_change.

(** The operator commits [s] in the cell [(r, c)]: a cell that exists and
    is editable takes the text and, when the text is new, the table emits
    [itemChanged]. *)
Definition edit_cell (r c : nat) (s : string) : M unit :=
  it ← item r c;
  match it with
  | Some (Cell old true) =>
      if bool_decide (old = s) then skip
      else
        modify (set_table (λ t,
          {| rowCount := rowCount t;
             cells := <[(r, c) := Cell s true]> (cells t) |})) ;;
        handle_cell_change {| row := r; column := c; text := s |}
  | _ => skip
  end.

(** *** Channel handlers *)

(** [reachable]: whether [self.sio.connect] returns, rather than raising
    [ConnectionError]. *)
Definition connect_handler (reachable : bool) : M unit :=
  modify (set_sio (λ calls, (calls ++ [sio_connect SERVER_URL])%list)) ;;
  if negb reachable then skip
  else
    modify (set_connected true) ;;
    send_unconnected_iot_devices.

Definition disconnect_handler : M unit :=
  c ← gets connected;
  if negb c then skip
  else
    modify (set_sio (λ calls, (calls ++ [sio_disconnect])%list)) ;;
    modify (set_connected false).

(** [update_table.emit()] runs [populate_table]. *)
Definition receive_connected_iot_devices (incoming : list (gmap string pyval))
    : M unit :=
  for_each incoming (λ device,
    let device := <["connected" := PBool true]> device in
    ip_address ← lift (dict_getitem device "ipAddress");
    r ← search_devices ip_address;
    match r with
    | None => modify (set_devices (λ ds, (ds ++ [device])%list))
    | Some _ => skip
    end) ;;
  populate_table.

Definition receive_iot_device_update (update : gmap string pyval) : M unit :=
  ip_address ← lift (dict_getitem update "ipAddress");
  device ← search_devices ip_address;
  ok ← found device;
  match device with
  | Some i =>
      if (ok : bool) then
        state ← lift (dict_getitem update "state");
        device_setitem i "state" state ;;
        status ← lift (dict_getitem update "status");
        device_setitem i "status" status ;;
        device_setitem i "connected" (PBool true)
      else skip
  | None => skip
  end ;;
  populate_table.

(** *** [SpoofApp.__init__] *)

Definition new_window (ds : list (gmap string pyval)) : SpoofApp :=
  {| devices := ds;
     internal_change := true;
     table := {| rowCount := length ds; cells := ∅ |};
     sio := [];
     connected := false |}.

(** The window after [__init__], for the rows of the CSV file. *)
Definition init (rows : list (gmap string pyval)) : outcome SpoofApp :=
  ds ← read_unconnected_iot_devices rows;
  match (populate_table ;; modify (set_internal_change false)) (new_window ds) with
  | (Return _, self) => Return self
  | (Raise e, _) => Raise e
  end.

End Program.

(** The double quote. *)
Definition dquote : ascii := ascii_of_N 34.

(** * A reference runtime

    [json.loads] and [json.dumps] after CPython's [json] module, [repr]
    and [str] after the built-in types: an implementation of [Runtime] to
    run the program on concrete inputs. *)
Module json.
Local Open Scope Z_scope.

(** ** Floats *)

(** [num / den] rounded to the nearest integer, ties to even. *)
Definition div_half_even (num den : Z) : Z :=
  let q := num / den in
  let r := num mod den in
  if (2 * r <? den) then q
  else if (den <? 2 * r) then q + 1
  else if Z.even q then q else q + 1.

(** [floor (log2 (num / den))] for positive [num] and [den]. *)
Definition log2_ratio (num den : Z) : Z :=
  let b := Z.log2 num - Z.log2 den in
  if (0 <=? b)
  then (if (den * 2 ^ b <=? num) then b else b - 1)
  else (if (den <=? num * 2 ^ (- b)) then b else b - 1).

(** The binary64 nearest to [num / den], for positive [num] and [den]. *)
Definition nearest_double (neg : bool) (num den : Z) : pyfloat :=
  let e := Z.max (log2_ratio num den - 52) (-1074) in
  let q := if (0 <=? e) then div_half_even num (den * 2 ^ e)
           else div_half_even (num * 2 ^ (- e)) den in
  let '(q, e) := if (q =? 2 ^ 53) then (2 ^ 52, e + 1) else (q, e) in
  if (971 <? e) then FInf neg else FFinite neg (Z.to_N q) e.

(** The binary64 nearest to [m * 10 ^ e10], as [float] reads a literal. *)
Definition decimal_to_double (neg : bool) (m : Z) (e10 : Z) : pyfloat :=
  if (m =? 0) then FFinite neg 0 0
  else
    let digits := Z.log2 m / 3 + 1 in
    if (400 <? e10) then FInf neg
    else if (e10 + digits <? -400) then FFinite neg 0 0
    else if (0 <=? e10) then nearest_double neg (m * 10 ^ e10) 1
    else nearest_double neg m (10 ^ (- e10)).

Definition same_double (f g : pyfloat) : bool :=
  match f, g with
  | FFinite _ m e, FFinite _ n k =>
      let lo := Z.min e k in
      (Z.of_N m * 2 ^ (e - lo) =? Z.of_N n * 2 ^ (k - lo))
  | _, _ => false
  end.

Definition decimal (z : Z) : string := NilZero.string_of_int (Z.to_int z).

(** [floor (log10 (num / den))] for positive [num] and [den]. *)
Definition log10_ratio (num den : Z) : Z :=
  let le k := if (0 <=? k) then (den * 10 ^ k <=? num)
              else (den <=? num * 10 ^ (- k)) in
  let est := log2_ratio num den * 30103 / 100000 in
  if le (est + 1) then est + 1 else if le est then est else est - 1.

(** The shortest digits that read back as the float [m * 2 ^ e]: the
    digits and the position of the decimal point. *)
Fixpoint shortest (fuel : nat) (p : Z) (x : pyfloat) (num den n10 : Z)
    : string * Z :=
  match fuel with
  | O => ("0", 1)
  | S fuel =>
      let s := p - 1 - n10 in
      let '(ynum, yden) := if (0 <=? s) then (num * 10 ^ s, den)
                           else (num, den * 10 ^ (- s)) in
      let lo := ynum / yden in
      let hi := lo + 1 in
      let ok c := same_double (decimal_to_double false c (- s)) x in
      let pick c :=
        let ds := decimal c in
        (ds, n10 + 1 + (Z.of_nat (String.length ds) - p)) in
      let twice := 2 * (ynum - lo * yden) in
      let lo_closer := (twice <? yden) || ((twice =? yden) && Z.even lo) in
      if ok lo && ok hi then pick (if lo_closer then lo else hi)
      else if ok lo then pick lo
      else if ok hi then pick hi
      else shortest fuel (p + 1) x num den n10
  end.

Fixpoint strip_zeros (rev_digits : list ascii) : list ascii :=
  match rev_digits with
  | "0"%char :: rest => match rest with [] => rev_digits | _ => strip_zeros rest end
  | _ => rev_digits
  end.

Definition zeros (n : Z) : string :=
  String.string_of_list_ascii (replicate (Z.to_nat n) "0"%char).

(** [repr] of a finite positive float. *)
Definition repr_finite (m : N) (e : Z) : string :=
  let '(num, den) := if (0 <=? e) then (Z.of_N m * 2 ^ e, 1)
                     else (Z.of_N m, 2 ^ (- e)) in
  let n10 := log10_ratio num den in
  let '(ds, decpt) := shortest 17 1 (FFinite false m e) num den n10 in
  let ds := String.string_of_list_ascii (rev (strip_zeros (rev (String.list_ascii_of_string ds)))) in
  let len := Z.of_nat (String.length ds) in
  if (16 <? decpt) || (decpt <? -3) then
    let ex := decpt - 1 in
    let mant := match ds with
                | String c EmptyString => ds
                | String c rest => String c (String "." rest)
                | EmptyString => ds
                end in
    let exs := decimal (Z.abs ex) in
    let exs := if (Z.abs ex <? 10) then String "0" exs else exs in
    (mant ++ "e" ++ (if (ex <? 0)%Z then "-" else "+") ++ exs)%string
  else if (decpt <=? 0) then ("0." ++ zeros (- decpt) ++ ds)%string
  else if (len <=? decpt) then (ds ++ zeros (decpt - len) ++ ".0")%string
  else (String.substring 0 (Z.to_nat decpt) ds ++ "."
        ++ String.substring (Z.to_nat decpt) (Z.to_nat (len - decpt)) ds)%string.

(** [float.__repr__]. *)
Definition float_repr (f : pyfloat) : string :=
  match f with
  | FNaN => "nan"
  | FInf neg => if neg then "-inf" else "inf"
  | FFinite neg m e =>
      ((if neg then "-" else "") ++
       (if (m =? 0)%N then "0.0" else repr_finite m e))%string
  end.

(** ** Text *)

(** The UTF-8 bytes of a code point (a surrogate is written like any
    other code point below 65536). *)
Definition utf8_encode (cp : N) : list ascii :=
  let byte n := ascii_of_N n in
  if (cp <? 128)%N then [byte cp]
  else if (cp <? 2048)%N then
    [byte (192 + cp / 64)%N; byte (128 + cp mod 64)%N]
  else if (cp <? 65536)%N then
    [byte (224 + cp / 4096)%N; byte (128 + (cp / 64) mod 64)%N;
     byte (128 + cp mod 64)%N]
  else
    [byte (240 + cp / 262144)%N; byte (128 + (cp / 4096) mod 64)%N;
     byte (128 + (cp / 64) mod 64)%N; byte (128 + cp mod 64)%N].

(** The code point of one UTF-8 sequence. *)
Definition utf8_decode (s : string) : N :=
  match s with
  | EmptyString => 0
  | String c rest =>
      let n := N_of_ascii c in
      let lead := if (n <? 128)%N then n
                  else if (n <? 224)%N then (n mod 32)%N
                  else if (n <? 240)%N then (n mod 16)%N
                  else (n mod 8)%N in
      fold_left (λ acc b, (acc * 64 + N_of_ascii b mod 64)%N)
                (String.list_ascii_of_string rest) lead
  end.

Definition hex_digit (n : N) : ascii :=
  if (n <? 10)%N then ascii_of_N (48 + n) else ascii_of_N (87 + n).

Definition hex_value (c : ascii) : option N :=
  let n := N_of_ascii c in
  if ((48 <=? n) && (n <=? 57))%N then Some (n - 48)%N
  else if ((97 <=? n) && (n <=? 102))%N then Some (n - 87)%N
  else if ((65 <=? n) && (n <=? 70))%N then Some (n - 55)%N
  else None.

(** ** [json.loads] *)

Inductive token :=
| TLBrace | TRBrace | TLBrack | TRBrack | TColon | TComma
| TString (s : string)
| TWord (w : string).

(** A piece of a string literal: a character of the text, or the code
    point of a [\uXXXX] escape. *)
Inductive chunk := Raw (c : ascii) | Escaped (cp : N).

(** A high surrogate escape followed by a low surrogate escape is one
    code point. *)
Fixpoint chunk_bytes (cs : list chunk) : list ascii :=
  match cs with
  | [] => []
  | Raw c :: rest => c :: chunk_bytes rest
  | Escaped hi :: rest =>
      match rest with
      | Escaped lo :: rest' =>
          if ((55296 <=? hi) && (hi <=? 56319) && (56320 <=? lo) && (lo <=? 57343))%N
          then (utf8_encode (65536 + (hi - 55296) * 1024 + (lo - 56320))
                  ++ chunk_bytes rest')%list
          else (utf8_encode hi ++ chunk_bytes rest)%list
      | _ => (utf8_encode hi ++ chunk_bytes rest)%list
      end
  end.

Inductive lexer :=
| Between
| InWord (rev_chars : list ascii)
| InString (rev_chunks : list chunk)
| InEscape (rev_chunks : list chunk)
| InHex (rev_chunks : list chunk) (digits : list N).

Definition is_space (c : ascii) : bool :=
  let n := N_of_ascii c in
  ((n =? 32) || (n =? 9) || (n =? 10) || (n =? 13))%N.

Definition punctuation (c : ascii) : option token :=
  match c with
  | "{"%char => Some TLBrace
  | "}"%char => Some TRBrace
  | "["%char => Some TLBrack
  | "]"%char => Some TRBrack
  | ":"%char => Some TColon
  | ","%char => Some TComma
  | _ => None
  end.

(** The characters of a number or of a literal name. *)
Definition is_word_char (c : ascii) : bool :=
  let n := N_of_ascii c in
  (((48 <=? n) && (n <=? 57)) || ((65 <=? n) && (n <=? 90))
   || ((97 <=? n) && (n <=? 122)) || (n =? 43) || (n =? 45) || (n =? 46))%N.

Definition escape (c : ascii) : option ascii :=
  if Ascii.eqb c dquote then Some dquote else
  match c with
  | "\"%char => Some "\"%char
  | "/"%char => Some "/"%char
  | "b"%char => Some (ascii_of_N 8)
  | "f"%char => Some (ascii_of_N 12)
  | "n"%char => Some (ascii_of_N 10)
  | "r"%char => Some (ascii_of_N 13)
  | "t"%char => Some (ascii_of_N 9)
  | _ => None
  end.

Definition word_token (rev_chars : list ascii) : token :=
  TWord (String.string_of_list_ascii (rev rev_chars)).

Definition string_token (rev_chunks : list chunk) : token :=
  TString (String.string_of_list_ascii (chunk_bytes (rev rev_chunks))).

Fixpoint lex (st : lexer) (s : string) : option (list token) :=
  match s with
  | EmptyString =>
      match st with
      | Between => Some []
      | InWord w => Some [word_token w]
      | _ => None
      end
  | String c rest =>
      match st with
      | Between | InWord _ =>
          let done := match st with InWord w => [word_token w] | _ => [] end in
          if is_word_char c then
            lex (InWord (c :: match st with InWord w => w | _ => [] end)) rest
          else if is_space c then (λ ts, (done ++ ts)%list) <$> lex Between rest
          else if Ascii.eqb c dquote then (λ ts, (done ++ ts)%list) <$> lex (InString []) rest
          else
            match punctuation c with
            | Some t => (λ ts, (done ++ t :: ts)%list) <$> lex Between rest
            | None => None
            end
      | InString cs =>
          if Ascii.eqb c dquote then (string_token cs ::.) <$> lex Between rest
          else if Ascii.eqb c "\" then lex (InEscape cs) rest
          else if (N_of_ascii c <? 32)%N then None
          else lex (InString (Raw c :: cs)) rest
      | InEscape cs =>
          if Ascii.eqb c "u" then lex (InHex cs []) rest
          else
            match escape c with
            | Some x => lex (InString (Raw x :: cs)) rest
            | None => None
            end
      | InHex cs ds =>
          match hex_value c with
          | None => None
          | Some d =>
              match ds with
              | [a; b; c'] =>
                  lex (InString (Escaped (((a * 16 + b) * 16 + c') * 16 + d)%N :: cs)) rest
              | _ => lex (InHex cs (ds ++ [d])%list) rest
              end
          end
      end
  end.

(** The digits at the head of a text: how many, their value, the rest. *)
Fixpoint digits (s : list ascii) (count : nat) (value : Z)
    : nat * Z * list ascii :=
  match s with
  | c :: rest =>
      let n := N_of_ascii c in
      if ((48 <=? n) && (n <=? 57))%N
      then digits rest (S count) (10 * value + Z.of_N (n - 48))
      else (count, value, s)
  | [] => (count, value, s)
  end.

(** A number: an optional minus sign, an integer part without a leading
    zero (or a lone zero), an optional fraction (a dot and at least one
    digit) and an optional exponent (e or E, an optional sign and at
    least one digit).  Without fraction and exponent it is an [int],
    otherwise a [float]. *)
Definition number (w : list ascii) : option pyval :=
  let '(neg, w) := match w with
                   | "-"%char :: w' => (true, w')
                   | _ => (false, w)
                   end in
  let '(n, int_part, rest) := digits w 0 0 in
  let leading_zero := match w with "0"%char :: _ => true | _ => false end in
  if (n =? 0)%nat || (leading_zero && negb (n =? 1)%nat) then None
  else
    let '(frac_digits, mantissa, rest, has_frac, ok) :=
      match rest with
      | "."%char :: rest' =>
          let '(k, m, rest'') := digits rest' 0 int_part in
          (k, m, rest'', true, negb (k =? 0)%nat)
      | _ => (0%nat, int_part, rest, false, true)
      end in
    if negb ok then None
    else
      let '(exponent, rest, has_exp, ok) :=
        match rest with
        | ("e" | "E")%char :: rest' =>
            let '(sign, rest') := match rest' with
                                  | "+"%char :: r => (1, r)
                                  | "-"%char :: r => (-1, r)
                                  | _ => (1, rest')
                                  end in
            let '(k, e, rest'') := digits rest' 0 0 in
            (sign * e, rest'', true, negb (k =? 0)%nat)
        | _ => (0, rest, false, true)
        end in
      if negb ok then None
      else
        match rest with
        | _ :: _ => None
        | [] =>
            if has_frac || has_exp
            then Some (PFloat (decimal_to_double neg mantissa
                                 (exponent - Z.of_nat frac_digits)))
            else Some (PInt (if neg then - int_part else int_part))
        end.

Definition word_value (w : string) : option pyval :=
  if String.eqb w "null" then Some PNone
  else if String.eqb w "true" then Some (PBool true)
  else if String.eqb w "false" then Some (PBool false)
  else if String.eqb w "NaN" then Some (PFloat FNaN)
  else if String.eqb w "Infinity" then Some (PFloat (FInf false))
  else if String.eqb w "-Infinity" then Some (PFloat (FInf true))
  else number (String.list_ascii_of_string w).

(** A container that is being read. *)
Inductive frame :=
| InArray (rev_items : list pyval)
| InObject (members : gmap string pyval) (key : option string).

Inductive expect :=
| Value | ValueOrClose | KeyOrClose | Key | Colon | CommaOrClose
| End_ (v : pyval).

(** A value is complete: it is the document, or goes into the container
    on top of the stack. *)
Definition reduce (stack : list frame) (v : pyval) : option (expect * list frame) :=
  match stack with
  | [] => Some (End_ v, [])
  | InArray items :: stack => Some (CommaOrClose, InArray (v :: items) :: stack)
  | InObject members (Some k) :: stack =>
      Some (CommaOrClose, InObject (<[k := v]> members) None :: stack)
  | InObject _ None :: _ => None
  end.

Fixpoint parse (st : expect) (stack : list frame) (ts : list token)
    : option pyval :=
  match ts with
  | [] => match st with End_ v => Some v | _ => None end
  | t :: ts =>
      let continue_ r :=
        match r with
        | Some (st, stack) => parse st stack ts
        | None => None
        end in
      match st, t with
      | (Value | ValueOrClose), TString s => continue_ (reduce stack (PStr s))
      | (Value | ValueOrClose), TWord w =>
          continue_ (word_value w ≫= reduce stack)
      | (Value | ValueOrClose), TLBrack => parse ValueOrClose (InArray [] :: stack) ts
      | (Value | ValueOrClose), TLBrace => parse KeyOrClose (InObject ∅ None :: stack) ts
      | ValueOrClose, TRBrack =>
          match stack with
          | InArray [] :: stack => continue_ (reduce stack (PList []))
          | _ => None
          end
      | (KeyOrClose | Key), TString k =>
          match stack with
          | InObject members None :: stack =>
              parse Colon (InObject members (Some k) :: stack) ts
          | _ => None
          end
      | KeyOrClose, TRBrace =>
          match stack with
          | InObject members None :: stack => continue_ (reduce stack (PDict members))
          | _ => None
          end
      | Colon, TColon => parse Value stack ts
      | CommaOrClose, TComma =>
          match stack with
          | InArray _ :: _ => parse Value stack ts
          | InObject _ _ :: _ => parse Key stack ts
          | [] => None
          end
      | CommaOrClose, TRBrack =>
          match stack with
          | InArray items :: stack => continue_ (reduce stack (PList (rev items)))
          | _ => None
          end
      | CommaOrClose, TRBrace =>
          match stack with
          | InObject members None :: stack => continue_ (reduce stack (PDict members))
          | _ => None
          end
      | _, _ => None
      end
  end.

Definition loads (s : string) : option pyval :=
  lex Between s ≫= parse Value [].

(** ** [json.dumps(_, indent=4)] *)

Definition hex4 (n : N) : string :=
  String.string_of_list_ascii
    [hex_digit (n / 4096); hex_digit ((n / 256) mod 16);
     hex_digit ((n / 16) mod 16); hex_digit (n mod 16)]%N.

(** One code point of a string, as [json.dumps] writes it with
    [ensure_ascii]. *)
Definition json_char (p : string) : string :=
  let cp := utf8_decode p in
  if (cp =? 34)%N then String "\" (String dquote "")
  else if (cp =? 92)%N then "\\"
  else if (cp =? 10)%N then "\n"
  else if (cp =? 13)%N then "\r"
  else if (cp =? 9)%N then "\t"
  else if (cp =? 8)%N then "\b"
  else if (cp =? 12)%N then "\f"
  else if ((32 <=? cp) && (cp <? 127))%N then p
  else if (cp <? 65536)%N then ("\u" ++ hex4 cp)%string
  else
    let v := (cp - 65536)%N in
    ("\u" ++ hex4 (55296 + v / 1024) ++ "\u" ++ hex4 (56320 + v mod 1024))%string.

Definition json_string (s : string) : string :=
  (String dquote "" ++ String.concat "" (json_char <$> code_points s)
   ++ String dquote "")%string.

Definition spaces (n : nat) : string :=
  String.string_of_list_ascii (replicate n " "%char).

(** The items of a container, one per line at the next level. *)
Definition block (open close : string) (level : nat) (items : list string)
    : string :=
  match items with
  | [] => (open ++ close)%string
  | _ =>
      let nl := (String (ascii_of_N 10) (spaces (4 * S level)))%string in
      (open ++ nl ++ String.concat ("," ++ nl) items
       ++ String (ascii_of_N 10) (spaces (4 * level)) ++ close)%string
  end.

(** The keys of a [dict] come in the order of the map, not in the order
    in which Python inserted them. *)
Fixpoint dumps_at (level : nat) (v : pyval) : string :=
  match v with
  | PNone => "null"
  | PBool b => if b then "true" else "false"
  | PInt z => decimal z
  | PFloat FNaN => "NaN"
  | PFloat (FInf neg) => if neg then "-Infinity" else "Infinity"
  | PFloat f => float_repr f
  | PStr s => json_string s
  | PList l => block "[" "]" level (dumps_at (S level) <$> l)
  | PDict d =>
      block "{" "}" level
        (map_fold (λ k x items,
                   (json_string k ++ ": " ++ dumps_at (S level) x)%string :: items)
                  [] d)
  end.

Definition dumps (v : pyval) : string := dumps_at 0 v.

End json.

(** ** [repr] and [str] *)

(** One character of a string, as [repr] writes it between the quotes
    [q]; a character beyond ASCII is taken to be printable. *)
Definition repr_char (q : ascii) (c : ascii) : string :=
  let n := N_of_ascii c in
  if Ascii.eqb c q then String "\" (String q "")
  else if (n =? 92)%N then "\\"
  else if (n =? 10)%N then "\n"
  else if (n =? 13)%N then "\r"
  else if (n =? 9)%N then "\t"
  else if ((n <? 32) || (n =? 127))%N then
    String "\" (String "x" (String (json.hex_digit (n / 16)) (String (json.hex_digit (n mod 16)) "")))
  else String c "".

Definition repr_str (s : string) : string :=
  let cs := String.list_ascii_of_string s in
  let q := if existsb (Ascii.eqb "'") cs && negb (existsb (Ascii.eqb dquote) cs)
           then dquote else "'"%char in
  (String q "" ++ String.concat "" (repr_char q <$> cs) ++ String q "")%string.

Fixpoint repr (v : pyval) : string :=
  match v with
  | PNone => "None"
  | PBool b => if b then "True" else "False"
  | PInt z => json.decimal z
  | PFloat f => json.float_repr f
  | PStr s => repr_str s
  | PList l => ("[" ++ String.concat ", " (repr <$> l) ++ "]")%string
  | PDict d =>
      ("{" ++ String.concat ", "
         (map_fold (λ k x items, (repr_str k ++ ": " ++ repr x)%string :: items) [] d)
       ++ "}")%string
  end.

Definition str (v : pyval) : string :=
  match v with
  | PStr s => s
  | _ => repr v
  end.


(** [QTableWidgetItem(v)] for a [v] that is not a [str]: an [int] selects
    the constructor that takes the item type and leaves the text empty; no
    constructor takes another value. *)
Definition reference_item_text (v : pyval) : option string :=
  match v with
  | PInt _ | PBool _ => Some ""
  | _ => None
  end.

Definition reference_runtime : Runtime :=
  {| json_loads := json.loads;
     json_dumps := json.dumps;
     py_str := str;
     item_text := reference_item_text |}.

(** * Vocabulary of the properties *)

Section Vocabulary.
Context `{Runtime}.

(** ** Statements *)

(** [I] holds after a statement whenever it held before, also when the
    statement raises. *)
Definition preserves {A} (I : SpoofApp → Prop) (c : M A) : Prop :=
  ∀ self, I self → I (c self).2.

(** Two statements that do the same from every state where [I] holds. *)
Definition agree {A} (I : SpoofApp → Prop) (c1 c2 : M A) : Prop :=
  ∀ self, I self → c1 self = c2 self.

(** What the display refresh must leave alone: the registry, the calls
    made on the channel and the channel flag. *)
Definition backend (self : SpoofApp)
    : list (gmap string pyval) * list sio_call * bool :=
  (devices self, sio self, connected self).

(** The state inside a guarded region whose backend is [v]. *)
Definition busy (v : list (gmap string pyval) * list sio_call * bool)
    (self : SpoofApp) : Prop :=
  internal_change self = true ∧ backend self = v.

(** The table after [setItem(r, c, QTableWidgetItem(s))]. *)
Definition put_item (r c : nat) (s : string) (t : QTableWidget) : QTableWidget :=
  if bool_decide (r < rowCount t)%nat && bool_decide (c < columnCount)%nat
  then {| rowCount := rowCount t; cells := <[(r, c) := Cell s true]> (cells t) |}
  else t.

(** A revert: set the guard, write the current value of the field back
    into the cell, clear the guard. *)
Definition revert (slot : QTableWidgetItem → M unit) (i : nat) (key : string)
    (render : pyval → string) (r c : nat) : M unit :=
  modify (set_internal_change true) ;;
  x ← device_getitem i key;
  setItem slot r c (render x) ;;
  modify (set_internal_change false).

(** ** The registry *)

(** [d] carries an address equal to [a]. *)
Definition matches (a : pyval) (d : gmap string pyval) : Prop :=
  ∃ a', d !! "ipAddress" = Some a' ∧ py_eq a' a = true.

(** [d] carries an address different from [a]. *)
Definition differs (a : pyval) (d : gmap string pyval) : Prop :=
  ∃ a', d !! "ipAddress" = Some a' ∧ py_eq a' a = false.

(** What a snapshot does to the registry: a device whose address is new is
    appended, marked connected; a [KeyError] ends the loop. *)
Fixpoint merge (incoming ds : list (gmap string pyval)) : list (gmap string pyval) :=
  match incoming with
  | [] => ds
  | device :: rest =>
      let device := <["connected" := PBool true]> device in
      match dict_getitem device "ipAddress" with
      | Raise _ => ds
      | Return a =>
          match search_from ds a 0 with
          | Raise _ => ds
          | Return (Some _) => merge rest ds
          | Return None => merge rest (ds ++ [device])
          end
      end
  end.

(** No device of the registry has the address of an earlier one. *)
Definition unique_addresses (ds : list (gmap string pyval)) : Prop :=
  ∀ i j di dj ai aj,
    (i < j)%nat → ds !! i = Some di → ds !! j = Some dj →
    di !! "ipAddress" = Some ai → dj !! "ipAddress" = Some aj →
    py_eq ai aj = false.

(** The registry after a sequence of remote snapshots; a merge that raised
    leaves the registry as it was when it stopped. *)
Definition after_snapshots (snapshots : list (list (gmap string pyval)))
    (self : SpoofApp) : SpoofApp :=
  fold_left (λ self incoming, (receive_connected_iot_devices incoming self).2)
            snapshots self.

(** A value equal to itself: every value but a NaN, or a container that
    holds one. *)
Definition self_equal (a : pyval) : Prop := py_eq a a = true.

(** The device a remote update leaves in place of [d]. *)
Definition updated (state status : pyval) (d : gmap string pyval)
    : gmap string pyval :=
  <["connected" := PBool true]> (<["status" := status]> (<["state" := state]> d)).

(** ** Publication *)

(** The device at index [i] is not connected and the calls made on the
    channel are [calls]. *)
Definition silent (i : nat) (calls : list sio_call) (self : SpoofApp) : Prop :=
  sio self = calls ∧
  ∃ d, devices self !! i = Some d ∧ d !! "connected" = Some (PBool false).

(** The edit an item stands for is an edit of the device at index [i]:
    the address shown in its row is the one the search resolves to [i]. *)
Definition targets (self : SpoofApp) (it : QTableWidgetItem) (i : nat) : Prop :=
  ∃ c, cells (table self) !! (row it, 1%nat) = Some c ∧
       search_from (devices self) (PStr (cell_text c)) 0 = Return (Some i).

(** [connected] is [False] in [d]. *)
Definition is_unconnected (d : gmap string pyval) : bool :=
  match d !! "connected" with
  | Some (PBool false) => true
  | _ => false
  end.

(** ** The state of a device *)

(** A string, a number or a boolean. *)
Definition scalar (v : pyval) : Prop :=
  match v with
  | PStr _ | PInt _ | PFloat _ | PBool _ => True
  | _ => False
  end.

(** The three fields of a state entry, as the specification words them:
    [fieldName] a string, [datatype] a string, [value] a string, a number
    or a boolean. *)
Definition entry_fields (d : gmap string pyval) : Prop :=
  (∃ s, d !! "fieldName" = Some (PStr s))
  ∧ (∃ s, d !! "datatype" = Some (PStr s))
  ∧ (∃ x, d !! "value" = Some x ∧ scalar x).

(** A sequence of entries that carry the three fields, and maybe more. *)
Definition conforms (candidate : pyval) : Prop :=
  ∃ entries, candidate = PList entries ∧
    Forall (λ e, ∃ d, e = PDict d ∧ entry_fields d) entries.

(** A sequence of entries that carry exactly the three fields. *)
Definition conforms_exactly (candidate : pyval) : Prop :=
  ∃ entries, candidate = PList entries ∧
    Forall (λ e, ∃ d, e = PDict d ∧ entry_fields d
                      ∧ dom d = {["fieldName"; "datatype"; "value"]}) entries.

(** An entry whose [datatype] is ["boolean"] has a boolean [value]. *)
Definition boolean_entry_ok (entry : pyval) : Prop :=
  ∀ d datatype,
    entry = PDict d → d !! "datatype" = Some datatype →
    py_eq datatype (PStr "boolean") = true →
    ∃ b, d !! "value" = Some (PBool b).

(** The entries of the device's state, when it is a list, are so. *)
Definition booleans_at_rest (device : gmap string pyval) : Prop :=
  ∀ entries, device !! "state" = Some (PList entries) →
             Forall boolean_entry_ok entries.

(** ** The edit handler *)

(** The [match] statement of [handle_cell_change] and the publication that
    follows it, once the row of the item is resolved to the device at
    index [i]. *)
Definition dispatch (i : nat) (it : QTableWidgetItem) : M unit :=
  match column it with
  | 4%nat =>
      match json_loads (text it) with
      | None => raise JSONDecodeError
      | Some candidate =>
          if validate candidate DEVICE_STATE_SCHEMA then
            state ← lift (loads (PStr (text it)));
            device_setitem i "state" state ;;
            send_iot_device_update i
          else
            revert (handle_cell_change_at 1) i "state" json_dumps
                   (row it) (column it)
      end
  | 5%nat =>
      if negb (bool_decide (text it = "On"))
         && negb (bool_decide (text it = "Off")) then
        revert (handle_cell_change_at 1) i "status" py_str (row it) (column it)
      else
        device_setitem i "status" (PStr (text it)) ;;
        send_iot_device_update i
  | 6%nat =>
      if negb (bool_decide (text it = "Ok"))
         && negb (bool_decide (text it = "Fault")) then
        revert (handle_cell_change_at 1) i "faultStatus" py_str
               (row it) (column it)
      else
        device_setitem i "faultStatus" (PStr (text it)) ;;
        send_iot_device_update i
  | _ => send_iot_device_update i
  end.

(** The call [sio.emit] makes for a device delta. *)
Definition delta (d : gmap string pyval) : sio_call :=
  sio_emit "spoof_app_iot_device_update" (PDict (delete "connected" d)).

(** The window after the device at index [i] became [d'] and, when its
    [connected] field [c] is true, was published. *)
Definition accepted (i : nat) (d' : gmap string pyval) (c : pyval)
    (self : SpoofApp) : SpoofApp :=
  let self := set_devices (λ ds, <[i := d']> ds) self in
  if py_bool c then set_sio (λ calls, (calls ++ [delta d'])%list) self
  else self.

(** ** Events *)

(** What can happen to the window: the table reports a changed item, the
    server sends a snapshot or an update, the operator connects (and the
    server is reachable or not) or disconnects. *)
Inductive event :=
| Edited (it : QTableWidgetItem)
| Snapshot (incoming : list (gmap string pyval))
| Updated (update : gmap string pyval)
| Connect (reachable : bool)
| Disconnect.

Definition handler (ev : event) : M unit :=
  match ev with
  | Edited it => handle_cell_change it
  | Snapshot incoming => receive_connected_iot_devices incoming
  | Updated update => receive_iot_device_update update
  | Connect reachable => connect_handler reachable
  | Disconnect => disconnect_handler
  end.

(** The window after a sequence of events; a handler that raised leaves
    the window as it was when it stopped. *)
Definition after_events (evs : list event) (self : SpoofApp) : SpoofApp :=
  fold_left (λ self ev, (handler ev self).2) evs self.


(** ** The table *)

(** The texts [populate_table] writes into the seven cells of the row of
    the device [d], from left to right. *)
Definition row_texts (d : gmap string pyval) : outcome (list string) :=
  flag ← dict_getitem d "connected";
  ip_address ← dict_getitem d "ipAddress";
  s1 ← new_item ip_address;
  name ← dict_getitem d "name";
  s2 ← new_item name;
  description ← dict_getitem d "description";
  s3 ← new_item description;
  state ← dict_getitem d "state";
  status ← dict_getitem d "status";
  s5 ← new_item status;
  fault ← dict_getitem d "faultStatus";
  s6 ← new_item fault;
  Return [py_str flag; s1; s2; s3; json_dumps state; s5; s6].

(** The table after the cells of row [r] took the texts. *)
Definition show_row (r : nat) (texts : list string) (t : QTableWidget)
    : QTableWidget :=
  fold_left (λ t cs, put_item r cs.1 cs.2 t) (zip (seq 0 7) texts) t.

(** An item made read-only. *)
Definition locked (it : cell) : cell := Cell (cell_text it) false.

(** The table after the item at [(r, c)], if there is one, was made
    read-only. *)
Definition lock_cell (r c : nat) (t : QTableWidget) : QTableWidget :=
  {| rowCount := rowCount t; cells := alter locked (r, c) (cells t) |}.


(** The text the refreshed table shows at [(r, c)]: the [c]-th text of
    the [r]-th device. *)
Definition cell_texts (ds : list (gmap string pyval)) (r c : nat)
    : option string :=
  match ds !! r with
  | Some d =>
      match row_texts d with
      | Return texts => texts !! c
      | Raise _ => None
      end
  | None => None
  end.

(** The item there: the columns 0 to 3 are read-only, the others can be
    edited. *)
Definition display (ds : list (gmap string pyval)) (r c : nat) : option cell :=
  (λ s, Cell s (bool_decide (4 ≤ c)%nat)) <$> cell_texts ds r c.

(** A device the first loop of [populate_table] can show: it has the seven
    fields and the table takes the five it shows as they are. *)
Definition displayable (d : gmap string pyval) : Prop :=
  ∃ texts, row_texts d = Return texts.

(** ** What the handlers do to the registry *)

(** The fields the handlers assign. *)
Definition assigned : list string :=
  ["state"; "status"; "faultStatus"; "connected"].

(** [d'] is [d] after assignments of the handlers: the other fields are as
    they were, and [connected] is as it was or [True]. *)
Definition evolves (d d' : gmap string pyval) : Prop :=
  (∀ key, key ∉ assigned → d' !! key = d !! key)
  ∧ (d' !! "connected" = d !! "connected"
     ∨ d' !! "connected" = Some (PBool true)).

(** Every device of [ds] is still in [ds'], at its index. *)
Definition grows (ds ds' : list (gmap string pyval)) : Prop :=
  ∀ i d, ds !! i = Some d → ∃ d', ds' !! i = Some d' ∧ evolves d d'.

(** [ds'] has the devices of [ds] and no other. *)
Definition tracks (ds ds' : list (gmap string pyval)) : Prop :=
  length ds' = length ds ∧ grows ds ds'.

(** A property of the registry, as a property of the window. *)
Definition on_devices (R : list (gmap string pyval) → Prop) (self : SpoofApp)
    : Prop :=
  R (devices self).


(** ** The bulk load and the start-up *)

(** The device [d] is what the bulk load makes of the row [row]: the
    state text is decoded and its boolean entries coerced, [connected] says
    whether the flag equals the text [true], the other columns are kept. *)
Definition loaded_from (row d : gmap string pyval) : Prop :=
  (∀ key, key ≠ "state" → key ≠ "connected" → d !! key = row !! key)
  ∧ (∃ flag, row !! "connected" = Some flag
             ∧ d !! "connected" = Some (PBool (py_eq flag (PStr "true"))))
  ∧ (∃ text decoded state,
       row !! "state" = Some (PStr text)
       ∧ json_loads text = Some decoded
       ∧ coerce_state decoded = Return state
       ∧ d !! "state" = Some state).

(** The columns the table shows as they are. *)
Definition shown_columns : list string :=
  ["ipAddress"; "name"; "description"; "status"; "faultStatus"].

(** A row that has a text in each of these columns, as the rows that
    [csv.DictReader] reads from a file with these columns do. *)
Definition csv_row (row : gmap string pyval) : Prop :=
  ∀ key, key ∈ shown_columns → ∃ s, row !! key = Some (PStr s).


End Vocabulary.

(** * Data of the scenarios *)

Section ScenarioData.
#[local] Existing Instance reference_runtime.

(** A text written with apostrophes where it has double quotes. *)
Definition quoted (s : string) : string :=
  String.string_of_list_ascii
    ((λ c, if Ascii.eqb c "'" then dquote else c)
       <$> String.list_ascii_of_string s).

(** The row of the CSV file for the thermostat at 10.0.0.5, not yet
    reported to the server. *)
Definition thermostat_row : gmap string pyval :=
  list_to_map [
    ("ipAddress", PStr "10.0.0.5");
    ("name", PStr "Thermostat");
    ("description", PStr "Hall thermostat");
    ("state", PStr (quoted "[{'fieldName':'temp','datatype':'number','value':21}]"));
    ("connected", PStr "false");
    ("status", PStr "Off");
    ("faultStatus", PStr "Ok") ].

Definition window_of (o : outcome SpoofApp) : SpoofApp :=
  match o with
  | Return self => self
  | Raise _ => new_window []
  end.

(** The window after start-up. *)
Definition started : SpoofApp := window_of (init [thermostat_row]).

(** The thermostat as the registry holds it. *)
Definition thermostat : gmap string pyval :=
  list_to_map [
    ("ipAddress", PStr "10.0.0.5");
    ("name", PStr "Thermostat");
    ("description", PStr "Hall thermostat");
    ("state", PList [PDict (list_to_map [
       ("fieldName", PStr "temp"); ("datatype", PStr "number");
       ("value", PInt 21)])]);
    ("connected", PBool false);
    ("status", PStr "Off");
    ("faultStatus", PStr "Ok") ].

(** The window once the channel is connected. *)
Definition online : SpoofApp := (connect_handler true started).2.

(** A device the server reports and the registry does not know. *)
Definition sensor : gmap string pyval :=
  list_to_map [
    ("ipAddress", PStr "10.0.0.9");
    ("name", PStr "Sensor");
    ("description", PStr "Door sensor");
    ("state", PList []);
    ("status", PStr "On");
    ("faultStatus", PStr "Ok") ].

(** The server's record of a device with the thermostat's address. *)
Definition twin : gmap string pyval :=
  list_to_map [
    ("ipAddress", PStr "10.0.0.5");
    ("name", PStr "Thermostat (server)");
    ("description", PStr "");
    ("state", PList []);
    ("status", PStr "On");
    ("faultStatus", PStr "Fault") ].

Definition state_25 : pyval :=
  PList [PDict (list_to_map [
    ("fieldName", PStr "temp"); ("datatype", PStr "number");
    ("value", PInt 25)])].

Definition state_30 : pyval :=
  PList [PDict (list_to_map [
    ("fieldName", PStr "temp"); ("datatype", PStr "number");
    ("value", PInt 30)])].

(** A remote update for the thermostat. *)
Definition update_25 : gmap string pyval :=
  list_to_map [
    ("ipAddress", PStr "10.0.0.5"); ("state", state_25); ("status", PStr "On") ].

(** The window after the update, and after the operator disconnected. *)
Definition acknowledged : SpoofApp :=
  (receive_iot_device_update update_25 online).2.

Definition offline : SpoofApp := (disconnect_handler acknowledged).2.

(** A remote update whose boolean entry carries a text. *)
Definition state_text : pyval :=
  PList [PDict (list_to_map [
    ("fieldName", PStr "heating"); ("datatype", PStr "boolean");
    ("value", PStr "true")])].

Definition update_text : gmap string pyval :=
  list_to_map [
    ("ipAddress", PStr "10.0.0.5"); ("state", state_text); ("status", PStr "On") ].

(** A row of the CSV file whose boolean entry carries a text. *)
Definition lamp_row : gmap string pyval :=
  list_to_map [
    ("ipAddress", PStr "10.0.0.7");
    ("name", PStr "Lamp");
    ("description", PStr "");
    ("state", PStr (quoted "[{'fieldName':'power','datatype':'boolean','value':'true'}]"));
    ("connected", PStr "false");
    ("status", PStr "On");
    ("faultStatus", PStr "Ok") ].

Definition lamp : gmap string pyval :=
  list_to_map [
    ("ipAddress", PStr "10.0.0.7");
    ("name", PStr "Lamp");
    ("description", PStr "");
    ("state", PList [PDict (list_to_map [
       ("fieldName", PStr "power"); ("datatype", PStr "boolean");
       ("value", PBool true)])]);
    ("connected", PBool false);
    ("status", PStr "On");
    ("faultStatus", PStr "Ok") ].

(** A state whose entry carries a fourth field. *)
Definition state_with_unit : pyval :=
  PList [PDict (list_to_map [
    ("fieldName", PStr "temp"); ("datatype", PStr "number");
    ("value", PInt 21); ("unit", PStr "C")])].

(** The text of a state that sets the temperature to 30. *)
Definition state_30_text : string :=
  quoted "[{'fieldName':'temp','datatype':'number','value':30}]".

(** The thermostat after the remote update. *)
Definition thermostat_on : gmap string pyval :=
  updated state_25 (PStr "On") thermostat.

(** A record of the server that has an address and nothing else, and one
    that has no address. *)
Definition ghost : gmap string pyval := {["ipAddress" := PStr "10.0.0.66"]}.

Definition nameless : gmap string pyval := {["name" := PStr "Nameless"]}.

(** The registry with the ghost in it, before any refresh. *)
Definition haunted : SpoofApp :=
  set_devices (λ ds, (ds ++ [<["connected" := PBool true]> ghost])%list) started.


(** A row of the CSV file whose boolean entry carries the text [false]. *)
Definition heating_entry : gmap string pyval :=
  list_to_map [
    ("fieldName", PStr "heating"); ("datatype", PStr "boolean");
    ("value", PStr "false") ].

Definition heater_row : gmap string pyval :=
  list_to_map [
    ("ipAddress", PStr "10.0.0.8");
    ("name", PStr "Heater");
    ("description", PStr "");
    ("state", PStr (quoted "[{'fieldName':'heating','datatype':'boolean','value':'false'}]"));
    ("connected", PStr "True");
    ("status", PStr "On");
    ("faultStatus", PStr "Ok") ].

Definition heater : gmap string pyval :=
  list_to_map [
    ("ipAddress", PStr "10.0.0.8");
    ("name", PStr "Heater");
    ("description", PStr "");
    ("state", PList [PDict (<["value" := PBool true]> heating_entry)]);
    ("connected", PBool false);
    ("status", PStr "On");
    ("faultStatus", PStr "Ok") ].

(** A row without a state column. *)
Definition stateless_row : gmap string pyval :=
  list_to_map [ ("ipAddress", PStr "10.0.0.4"); ("connected", PStr "false") ].

(** A day at the window. *)
Definition day : list event :=
  [ Connect true;
    Snapshot [sensor; twin];
    Updated update_25;
    Edited {| row := 0; column := 5; text := "Off" |};
    Edited {| row := 0; column := 4; text := "{" |};
    Disconnect;
    Snapshot [ghost] ].


End ScenarioData.

(** * Properties *)

Section Proofs.
Context `{Runtime}.

#[local] Arguments handle_cell_change_at : simpl never.
#[local] Arguments validate : simpl never.

(** ** Running statements *)

Lemma run_bind {A B} (c : M A) (k : A → M B) self :
  (c ≫= k) self =
  match c self with
  | (Return a, self') => k a self'
  | (Raise e, self') => (Raise e, self')
  end.
Proof. reflexivity. Qed.

Lemma run_for_each_cons {A} (x : A) xs body self :
  for_each (x :: xs) body self =
  match body x self with
  | (Return _, self') => for_each xs body self'
  | (Raise e, self') => (Raise e, self')
  end.
Proof. reflexivity. Qed.

Lemma preserves_ret {A} I (a : A) : preserves I (mret a).
Proof. intros self HI. exact HI. Qed.

Lemma preserves_skip I : preserves I skip.
Proof. intros self HI. exact HI. Qed.

Lemma preserves_raise {A} I e : preserves I (@raise A e).
Proof. intros self HI. exact HI. Qed.

Lemma preserves_lift {A} I (o : outcome A) : preserves I (lift o).
Proof. intros self HI. exact HI. Qed.

Lemma preserves_gets {A} I (f : SpoofApp → A) : preserves I (gets f).
Proof. intros self HI. exact HI. Qed.

Lemma preserves_bind {A B} I (c : M A) (k : A → M B) :
  preserves I c → (∀ a, preserves I (k a)) → preserves I (c ≫= k).
Proof.
  intros Hc Hk self HI. rewrite run_bind.
  specialize (Hc self HI). destruct (c self) as [[a|e] self']; simpl in *.
  - by apply Hk.
  - done.
Qed.

Lemma preserves_for_each {A} I (xs : list A) body :
  (∀ x, preserves I (body x)) → preserves I (for_each xs body).
Proof.
  intros Hb. induction xs as [|x xs IH]; [apply preserves_skip|].
  simpl. apply preserves_bind; [apply Hb | intros _; exact IH].
Qed.

Lemma preserves_modify I f :
  (∀ self, I self → I (f self)) → preserves I (modify f).
Proof. intros Hf self HI. by apply Hf. Qed.

Create HintDb frame.
#[local] Hint Resolve preserves_ret preserves_skip preserves_raise
  preserves_lift preserves_gets preserves_for_each : frame.

(** ** The guard [internal_change] *)

Lemma handle_cell_change_at_S depth :
  handle_cell_change_at (S depth)
  = handle_cell_change_with (handle_cell_change_at depth).
Proof. reflexivity. Qed.

(** While [internal_change] is set the handler returns at once. *)
Lemma handle_cell_change_busy depth it self :
  internal_change self = true →
  handle_cell_change_at (S depth) it self = (Return tt, self).
Proof.
  intros Hb. rewrite handle_cell_change_at_S. unfold handle_cell_change_with.
  rewrite run_bind. unfold gets. by rewrite Hb.
Qed.

Lemma busy_set_table v f self : busy v self → busy v (set_table f self).
Proof. by intros [? ?]. Qed.

Lemma setItem_busy depth v r c s :
  preserves (busy v) (setItem (handle_cell_change_at (S depth)) r c s).
Proof.
  intros self Hb. unfold setItem. rewrite run_bind. simpl.
  destruct (bool_decide _ && bool_decide _); [|done].
  rewrite run_bind. simpl.
  rewrite handle_cell_change_busy; [|by destruct Hb].
  by apply busy_set_table.
Qed.

Lemma setFlags_busy depth v r c it :
  preserves (busy v)
    (setFlags_not_editable (handle_cell_change_at (S depth)) r c it).
Proof.
  intros self Hb. unfold setFlags_not_editable. rewrite run_bind. simpl.
  rewrite handle_cell_change_busy; [|by destruct Hb].
  by apply busy_set_table.
Qed.

Lemma device_getitem_preserves I i key : preserves I (device_getitem i key).
Proof.
  intros self HI. unfold device_getitem. rewrite run_bind. simpl.
  by destruct (devices self !! i).
Qed.

#[local] Hint Resolve setItem_busy setFlags_busy device_getitem_preserves
  : frame.

Ltac frame :=
  repeat first
    [ solve [eauto with frame]
    | match goal with
      | |- preserves _ (mbind _ _) => apply preserves_bind; [|intros ?]
      | |- preserves _ (match ?x with _ => _ end) => destruct x
      end ].

Lemma populate_row_busy depth v r :
  preserves (busy v) (populate_row (handle_cell_change_at (S depth)) r).
Proof. unfold populate_row. frame. Qed.

Lemma lock_row_busy depth v r :
  preserves (busy v) (lock_row (handle_cell_change_at (S depth)) r).
Proof. unfold lock_row, item. apply preserves_for_each. intros c. frame. Qed.

(** A refresh leaves the backend alone, whether it completes or raises. *)
Lemma populate_table_with_backend depth self :
  backend (populate_table_with (handle_cell_change_at (S depth)) self).2
  = backend self.
Proof.
  set (slot := handle_cell_change_at (S depth)).
  set (self1 := set_internal_change true self).
  assert (Hb : busy (backend self) self1) by done.
  unfold populate_table_with. rewrite run_bind.
  change (modify (set_internal_change true) self) with (Return tt, self1).
  cbv iota beta. rewrite run_bind. change (gets devices self1) with (Return (devices self1), self1).
  cbv iota beta. rewrite run_bind.
  pose proof (busy_set_table _ (λ t, {| rowCount := length (devices self1);
    cells := filter (λ kv, (kv.1.1 < length (devices self1))%nat) (cells t) |}) _ Hb) as Hb2.
  change (setRowCount (length (devices self1)) self1) with
    (Return tt, set_table (λ t, {| rowCount := length (devices self1);
      cells := filter (λ kv, (kv.1.1 < length (devices self1))%nat) (cells t) |}) self1).
  cbv iota beta. rewrite run_bind.
  match goal with |- context [for_each ?l ?b ?s] =>
    pose proof (preserves_for_each (busy (backend self)) l b
                  (λ r, populate_row_busy depth _ r) s Hb2) as Hb3;
    destruct (for_each l b s) as [[[]|e] self3] end; [|by destruct Hb3].
  cbn [snd] in Hb3. rewrite run_bind.
  change (gets _ self3) with (Return (rowCount (table self3)), self3).
  cbv iota beta. rewrite run_bind.
  match goal with |- context [for_each ?l ?b ?s] =>
    pose proof (preserves_for_each (busy (backend self)) l b
                  (λ r, lock_row_busy depth _ r) s Hb3) as Hb4;
    destruct (for_each l b s) as [[[]|e] self4] end; by destruct Hb4.
Qed.

Lemma populate_table_backend self :
  backend (populate_table self).2 = backend self.
Proof. apply populate_table_with_backend. Qed.

Lemma populate_table_devices self :
  devices (populate_table self).2 = devices self.
Proof. by injection (populate_table_backend self). Qed.

Lemma populate_table_sio self : sio (populate_table self).2 = sio self.
Proof. by injection (populate_table_backend self). Qed.

Lemma populate_table_connected self :
  connected (populate_table self).2 = connected self.
Proof. by injection (populate_table_backend self). Qed.

(** ** Lookup by address *)

Lemma run_search_devices a self :
  search_devices a self = (search_from (devices self) a 0, self).
Proof. reflexivity. Qed.

(** The search finds the first device that matches. *)
Lemma search_from_found ds a i d k :
  ds !! i = Some d → matches a d →
  (∀ j dj, (j < i)%nat → ds !! j = Some dj → differs a dj) →
  search_from ds a k = Return (Some (k + i)%nat).
Proof.
  revert i k. induction ds as [|d0 ds IH]; intros i k Hi Hm Hbefore; [done|].
  simpl. unfold dict_getitem. destruct i as [|i].
  - simpl in Hi. injection Hi as ->. destruct Hm as (a' & -> & Heq).
    simpl. rewrite Heq. by rewrite Nat.add_0_r.
  - destruct (Hbefore 0%nat d0) as (a0 & -> & Hne); [lia|done|].
    simpl. rewrite Hne. rewrite (IH i (S k)); [f_equal; f_equal; lia|done|done|].
    intros j dj Hj Hdj. apply (Hbefore (S j)); [lia|done].
Qed.

(** It finds nothing when every device has another address. *)
Lemma search_from_none ds a k :
  Forall (differs a) ds → search_from ds a k = Return None.
Proof.
  intros Hall. revert k. induction Hall as [|d ds (a' & Ha & Hne) _ IH]; intros k; [done|].
  simpl. unfold dict_getitem. rewrite Ha. simpl. rewrite Hne. apply IH.
Qed.

Lemma search_from_none_inv ds a k :
  search_from ds a k = Return None → Forall (differs a) ds.
Proof.
  revert k. induction ds as [|d ds IH]; intros k Hs; [constructor|].
  simpl in Hs. unfold dict_getitem in Hs.
  destruct (d !! "ipAddress") as [a'|] eqn:Ha; [|done]. simpl in Hs.
  destruct (py_eq a' a) eqn:Heq; [done|].
  constructor; [by exists a'|by eapply IH].
Qed.

Lemma search_from_some_inv ds a k i :
  search_from ds a k = Return (Some i) →
  ∃ d, ds !! (i - k)%nat = Some d ∧ matches a d ∧ (k ≤ i)%nat.
Proof.
  revert k. induction ds as [|d ds IH]; intros k Hs; [done|].
  simpl in Hs. unfold dict_getitem in Hs.
  destruct (d !! "ipAddress") as [a'|] eqn:Ha; [|done]. simpl in Hs.
  destruct (py_eq a' a) eqn:Heq.
  - injection Hs as <-. exists d. rewrite Nat.sub_diag.
    split; [done|]. split; [by exists a'|lia].
  - destruct (IH _ Hs) as (d' & Hd' & Hm & Hle). exists d'.
    replace (i - k)%nat with (S (i - S k)) by lia. split; [done|]. split; [done|lia].
Qed.

(** A search over a longer registry agrees with the search over its
    prefix whenever that one found a device or raised. *)
Lemma search_from_app ds ds' a k :
  search_from (ds ++ ds') a k =
  match search_from ds a k with
  | Return None => search_from ds' a (k + length ds)
  | r => r
  end.
Proof.
  revert k. induction ds as [|d ds IH]; intros k; simpl.
  - by rewrite Nat.add_0_r.
  - unfold dict_getitem. destruct (d !! "ipAddress") as [a'|]; simpl; [|done].
    destruct (py_eq a' a); [done|]. rewrite IH.
    by replace (S k + length ds)%nat with (k + S (length ds))%nat by lia.
Qed.

(** ** Remote snapshots *)

Lemma set_devices_id self : set_devices (λ _, devices self) self = self.
Proof. by destruct self. Qed.

Lemma merge_loop incoming self :
  (for_each incoming (λ device,
     let device := <["connected" := PBool true]> device in
     ip_address ← lift (dict_getitem device "ipAddress");
     r ← search_devices ip_address;
     match r with
     | None => modify (set_devices (λ ds, (ds ++ [device])%list))
     | Some _ => skip
     end) self).2
  = set_devices (λ _, merge incoming (devices self)) self.
Proof.
  revert self. induction incoming as [|d rest IH]; intros self.
  - simpl. by rewrite set_devices_id.
  - rewrite run_for_each_cons. cbv zeta. rewrite run_bind.
    cbn [merge]. cbv zeta. unfold lift at 1.
    destruct (dict_getitem _ "ipAddress") as [a|e]; cbv iota beta;
      [|by rewrite set_devices_id].
    rewrite run_bind, run_search_devices.
    destruct (search_from (devices self) a 0) as [[i|]|e]; cbv iota beta.
    + unfold skip at 1. cbn [mret M_ret]. apply IH.
    + change (modify ?f self) with (Return tt, f self). cbv iota beta.
      rewrite IH. by destruct self.
    + by rewrite set_devices_id.
Qed.

Lemma receive_connected_iot_devices_devices incoming self :
  devices (receive_connected_iot_devices incoming self).2
  = merge incoming (devices self).
Proof.
  unfold receive_connected_iot_devices. rewrite run_bind.
  pose proof (merge_loop incoming self) as Hloop.
  destruct (for_each incoming _ self) as [[[]|e] self1]; simpl in Hloop; subst self1.
  - by rewrite populate_table_devices.
  - done.
Qed.

(** The registry only grows under a merge. *)
Lemma merge_prefix incoming ds : ∃ new, merge incoming ds = (ds ++ new)%list.
Proof.
  revert ds. induction incoming as [|d rest IH]; intros ds; simpl.
  - exists []. by rewrite app_nil_r.
  - destruct (dict_getitem _ _) as [a|e]; [|exists []; by rewrite app_nil_r].
    destruct (search_from ds a 0) as [[i|]|e].
    + apply IH.
    + destruct (IH (ds ++ [<["connected" := PBool true]> d])%list) as [new ->].
      eexists. by rewrite <- app_assoc.
    + exists []. by rewrite app_nil_r.
Qed.

Lemma unique_addresses_snoc ds d a :
  unique_addresses ds → Forall (differs a) ds → d !! "ipAddress" = Some a →
  unique_addresses (ds ++ [d]).
Proof.
  intros Hu Hall Hd i j di dj ai aj Hij Hi Hj Hai Haj.
  destruct (decide (j < length ds)%nat) as [Hlt|Hge].
  - rewrite lookup_app_l in Hi by lia. rewrite lookup_app_l in Hj by lia.
    exact (Hu _ _ _ _ _ _ Hij Hi Hj Hai Haj).
  - assert (j = length ds) as ->.
    { apply lookup_lt_Some in Hj. rewrite length_app in Hj. simpl in Hj. lia. }
    rewrite lookup_app_l in Hi by lia.
    rewrite list_lookup_middle in Hj by done. injection Hj as <-.
    rewrite Forall_lookup in Hall. destruct (Hall _ _ Hi) as (a' & Ha' & Hne).
    congruence.
Qed.

Lemma merge_unique incoming ds :
  unique_addresses ds → unique_addresses (merge incoming ds).
Proof.
  revert ds. induction incoming as [|d rest IH]; intros ds Hu; simpl; [done|].
  unfold dict_getitem at 1.
  destruct (<["connected":=PBool true]> d !! "ipAddress") as [a|] eqn:Ha; [|done].
  destruct (search_from ds a 0) as [[i|]|e] eqn:Hs; [by apply IH| |done].
  apply IH. eapply unique_addresses_snoc; [done| |done].
  by eapply search_from_none_inv.
Qed.

(** C3. Starting from a registry whose devices have pairwise distinct
    addresses, after every sequence of remote-snapshot merges (snapshots
    are arbitrary lists of devices and may repeat an address) no two
    devices of the registry have the same address. *)
Theorem snapshot_merges_keep_addresses_unique snapshots self :
  unique_addresses (devices self) →
  unique_addresses (devices (after_snapshots snapshots self)).
Proof.
  revert self. induction snapshots as [|incoming rest IH]; intros self Hu; [done|].
  simpl. apply IH. rewrite receive_connected_iot_devices_devices.
  by apply merge_unique.
Qed.

(** For addresses that are strings, [unique_addresses] says that the list
    of addresses has no duplicate. *)
Lemma unique_addresses_NoDup ds (addrs : list string) :
  (λ d, d !! "ipAddress") <$> ds = (λ s, Some (PStr s)) <$> addrs →
  unique_addresses ds ↔ NoDup addrs.
Proof.
  intros Heq.
  assert (Hlk : ∀ i d, ds !! i = Some d →
            ∃ s, addrs !! i = Some s ∧ d !! "ipAddress" = Some (PStr s)).
  { intros i d Hi.
    assert (((λ d, d !! "ipAddress") <$> ds) !! i = Some (d !! "ipAddress")) as Hl
      by (by rewrite list_lookup_fmap, Hi).
    rewrite Heq, list_lookup_fmap in Hl.
    destruct (addrs !! i) as [s|]; [|done]. simpl in Hl.
    injection Hl as Hl. by exists s. }
  assert (Hlk' : ∀ i s, addrs !! i = Some s → ∃ d, ds !! i = Some d).
  { intros i s Hi. apply lookup_lt_is_Some.
    assert (length ds = length addrs) as ->
      by (by rewrite <- (length_fmap (λ d, d !! "ipAddress")), Heq, length_fmap).
    by eapply lookup_lt_Some. }
  split.
  - intros Hu. apply NoDup_alt. intros i j s Hi Hj.
    destruct (Hlk' _ _ Hi) as [di Hdi]. destruct (Hlk' _ _ Hj) as [dj Hdj].
    destruct (Hlk _ _ Hdi) as (si & Hsi & Hai).
    destruct (Hlk _ _ Hdj) as (sj & Hsj & Haj).
    assert (si = s) as -> by congruence. assert (sj = s) as -> by congruence.
    destruct (Nat.lt_trichotomy i j) as [Hlt|[->|Hgt]]; [|done|].
    + specialize (Hu _ _ _ _ _ _ Hlt Hdi Hdj Hai Haj). simpl in Hu.
      by rewrite bool_decide_eq_false in Hu.
    + specialize (Hu _ _ _ _ _ _ Hgt Hdj Hdi Haj Hai). simpl in Hu.
      by rewrite bool_decide_eq_false in Hu.
  - intros Hnd i j di dj ai aj Hij Hdi Hdj Hai Haj.
    destruct (Hlk _ _ Hdi) as (si & Hsi & Hai').
    destruct (Hlk _ _ Hdj) as (sj & Hsj & Haj').
    assert (ai = PStr si) as -> by congruence.
    assert (aj = PStr sj) as -> by congruence.
    simpl. apply bool_decide_eq_false. intros ->.
    rewrite NoDup_alt in Hnd. specialize (Hnd _ _ _ Hsi Hsj). lia.
Qed.

Lemma str_self_equal s : self_equal (PStr s).
Proof. unfold self_equal. simpl. by apply bool_decide_eq_true. Qed.

Lemma merge_cons d rest ds :
  merge (d :: rest) ds =
  match <["connected" := PBool true]> d !! "ipAddress" with
  | None => ds
  | Some a =>
      match search_from ds a 0 with
      | Raise _ => ds
      | Return (Some _) => merge rest ds
      | Return None => merge rest (ds ++ [<["connected" := PBool true]> d])
      end
  end.
Proof. simpl. unfold dict_getitem. by destruct (_ !! "ipAddress"). Qed.

(** A registry that already went through the merge of [incoming] absorbs
    it, whatever was added afterwards. *)
Lemma merge_absorbed incoming ds more :
  Forall (λ d, ∀ a, d !! "ipAddress" = Some a → self_equal a) incoming →
  merge incoming (merge incoming ds ++ more) = (merge incoming ds ++ more)%list.
Proof.
  intros Hall. revert ds more.
  induction Hall as [|d rest Hd _ IH]; intros ds more; [done|].
  rewrite (merge_cons d rest ds).
  destruct (<["connected":=PBool true]> d !! "ipAddress") as [a|] eqn:Ha;
    [|by rewrite merge_cons, Ha].
  assert (self_equal a) as Hrefl.
  { apply Hd. by rewrite lookup_insert_ne in Ha. }
  destruct (search_from ds a 0) as [[i|]|e] eqn:Hs; rewrite merge_cons, Ha.
  - destruct (merge_prefix rest ds) as [new Hnew].
    assert (search_from (merge rest ds ++ more) a 0 = Return (Some i)) as ->.
    { rewrite Hnew, <- app_assoc, search_from_app. by rewrite Hs. }
    apply IH.
  - destruct (merge_prefix rest (ds ++ [<["connected":=PBool true]> d])) as [new Hnew].
    assert (search_from (merge rest (ds ++ [<["connected":=PBool true]> d]) ++ more) a 0
            = Return (Some (0 + length ds)%nat)) as ->.
    { rewrite Hnew, <- !app_assoc, search_from_app, Hs. simpl.
      unfold dict_getitem. rewrite Ha. simpl. by rewrite Hrefl. }
    apply IH.
  - by rewrite search_from_app, Hs.
Qed.

(** C5. Merging the same remote snapshot a second time leaves the registry
    as the first merge left it. *)
Theorem merge_snapshot_idempotent incoming self :
  Forall (λ d, ∀ a, d !! "ipAddress" = Some a → self_equal a) incoming →
  devices (receive_connected_iot_devices incoming
             (receive_connected_iot_devices incoming self).2).2
  = devices (receive_connected_iot_devices incoming self).2.
Proof.
  intros Hall. rewrite !receive_connected_iot_devices_devices.
  pose proof (merge_absorbed incoming (devices self) [] Hall) as Habs.
  by rewrite !app_nil_r in Habs.
Qed.

(** ** Remote updates *)

Lemma populate_table_preserves_sio v : preserves (λ self, sio self = v) populate_table.
Proof. intros self HI. by rewrite populate_table_sio. Qed.

Lemma search_devices_preserves I a : preserves I (search_devices a).
Proof. by intros self HI. Qed.

Lemma found_preserves I r : preserves I (found r).
Proof.
  intros self HI. destruct r as [i|]; [|done].
  unfold found. rewrite run_bind. simpl. by destruct (devices self !! i).
Qed.

Lemma device_setitem_preserves_sio v i key x :
  preserves (λ self, sio self = v) (device_setitem i key x).
Proof. by intros self HI. Qed.

#[local] Hint Resolve populate_table_preserves_sio search_devices_preserves
  found_preserves device_setitem_preserves_sio : frame.

(** C4. Applying a remote update makes no call on the channel: no device
    delta (and nothing else) is emitted, whatever the registry and the
    update are, and whether the handler completes or raises. *)
Theorem remote_update_no_echo update self :
  sio (receive_iot_device_update update self).2 = sio self.
Proof.
  assert (preserves (λ s, sio s = sio self) (receive_iot_device_update update))
    as Hp by (unfold receive_iot_device_update; frame).
  by apply Hp.
Qed.

Lemma found_device ds i (d : gmap string pyval) key x self :
  devices self = ds → ds !! i = Some d → d !! key = Some x →
  found (Some i) self = (Return true, self).
Proof.
  intros <- Hi Hx. unfold found. rewrite run_bind. simpl. rewrite Hi.
  cbn [mret M_ret]. do 2 f_equal. simpl.
  rewrite bool_decide_eq_false_2; [done|].
  apply (map_size_ne_0_lookup_2 _ key). by exists x.
Qed.

Lemma receive_iot_device_update_devices update a state status self :
  update !! "ipAddress" = Some a →
  update !! "state" = Some state →
  update !! "status" = Some status →
  devices (receive_iot_device_update update self).2 =
  match search_from (devices self) a 0 with
  | Return (Some i) => alter (updated state status) i (devices self)
  | _ => devices self
  end.
Proof.
  intros Ha Hstate Hstatus. unfold receive_iot_device_update.
  rewrite run_bind. unfold lift at 1, dict_getitem at 1. rewrite Ha.
  cbv iota beta. rewrite run_bind, run_search_devices.
  destruct (search_from (devices self) a 0) as [[i|]|e] eqn:Hs; cbv iota beta.
  - destruct (search_from_some_inv _ _ _ _ Hs) as (d & Hd & (a' & Ha' & _) & _).
    rewrite Nat.sub_0_r in Hd.
    rewrite run_bind, (found_device _ i d "ipAddress" a') by done.
    cbv iota beta. unfold dict_getitem. rewrite Hstate, Hstatus.
    rewrite run_bind. simpl. rewrite populate_table_devices. simpl.
    by rewrite !list_alter_alter_eq.
  - rewrite run_bind. simpl. rewrite run_bind. simpl.
    by rewrite populate_table_devices.
  - done.
Qed.

(** C6. A remote update for an address that matches a device of the
    registry replaces that device (the first that matches) by itself with
    [state] and [status] overwritten and [connected] forced to true: every
    other field of the device and every other device are as before.  When
    every device has another address the registry is unchanged and no
    device is created. *)
Theorem remote_update_effect update a state status self :
  update !! "ipAddress" = Some a →
  update !! "state" = Some state →
  update !! "status" = Some status →
  let self' := (receive_iot_device_update update self).2 in
  (∀ i d,
     devices self !! i = Some d → matches a d →
     (∀ j dj, (j < i)%nat → devices self !! j = Some dj → differs a dj) →
     ∃ d',
       devices self' = <[i := d']> (devices self) ∧
       d' !! "state" = Some state ∧
       d' !! "status" = Some status ∧
       d' !! "connected" = Some (PBool true) ∧
       (∀ key, key ≠ "state" → key ≠ "status" → key ≠ "connected" →
               d' !! key = d !! key) ∧
       (∀ j, j ≠ i → devices self' !! j = devices self !! j) ∧
       length (devices self') = length (devices self))
  ∧ (Forall (differs a) (devices self) → devices self' = devices self).
Proof.
  intros Ha Hstate Hstatus self'. subst self'.
  rewrite (receive_iot_device_update_devices _ a state status) by done.
  split.
  - intros i d Hd Hm Hfirst.
    rewrite (search_from_found _ _ i d 0) by done. simpl.
    exists (updated state status d). split_and!.
    + rewrite list_insert_alter. apply list_alter_ext; [|done].
      intros x Hx. congruence.
    + unfold updated. rewrite !lookup_insert_ne by done. apply lookup_insert_eq.
    + unfold updated. rewrite lookup_insert_ne by done. apply lookup_insert_eq.
    + unfold updated. apply lookup_insert_eq.
    + intros key H1 H2 H3. unfold updated. by rewrite !lookup_insert_ne by done.
    + intros j Hj. by rewrite list_lookup_alter_ne.
    + by rewrite length_alter.
  - intros Hall. by rewrite search_from_none.
Qed.

(** ** The revert branches of the edit handler *)

Lemma set_table_id self : set_table (λ t, t) self = self.
Proof. by destruct self. Qed.

(** Inside a guarded region [setItem] only changes the table: the handler
    it calls back returns at once. *)
Lemma run_setItem_busy depth r c s self :
  internal_change self = true →
  setItem (handle_cell_change_at (S depth)) r c s self
  = (Return tt, set_table (put_item r c s) self).
Proof.
  intros Hb. unfold setItem, put_item. rewrite run_bind. simpl.
  destruct self as [ds ic t calls conn]. simpl in *. subst ic.
  destruct (bool_decide _ && bool_decide _) eqn:Hin.
  - rewrite run_bind. simpl. rewrite handle_cell_change_busy by done.
    unfold set_table. simpl. by rewrite Hin.
  - unfold set_table. simpl. by rewrite Hin.
Qed.

Lemma run_revert depth i key render r c self :
  revert (handle_cell_change_at (S depth)) i key render r c self =
  match devices self !! i with
  | None => (Raise IndexError, set_internal_change true self)
  | Some d =>
      match d !! key with
      | None => (Raise (KeyError key), set_internal_change true self)
      | Some x =>
          (Return tt,
           set_internal_change false (set_table (put_item r c (render x)) self))
      end
  end.
Proof.
  unfold revert. rewrite run_bind.
  change (modify (set_internal_change true) self)
    with (Return tt, set_internal_change true self).
  cbv iota beta. rewrite run_bind. unfold device_getitem. rewrite run_bind.
  change (gets devices (set_internal_change true self))
    with (Return (devices self), set_internal_change true self).
  cbv iota beta. destruct (devices self !! i) as [d|]; [|done].
  unfold lift, dict_getitem. destruct (d !! key) as [x|]; [|done].
  rewrite run_bind, run_setItem_busy by done. by destruct self.
Qed.

Lemma revert_backend depth i key render r c self :
  backend (revert (handle_cell_change_at (S depth)) i key render r c self).2
  = backend self.
Proof.
  rewrite run_revert. destruct (devices self !! i) as [d|]; [|done].
  by destruct (d !! key).
Qed.

(** The handler does not depend on how deep the calls may nest. *)
Lemma handle_cell_change_depth depth it self :
  handle_cell_change_at (S (S depth)) it self = handle_cell_change it self.
Proof.
  unfold handle_cell_change.
  rewrite (handle_cell_change_at_S (S depth)), (handle_cell_change_at_S 1).
  unfold handle_cell_change_with. rewrite !run_bind.
  destruct (gets internal_change self) as [[[]|e] self1]; [done| |done].
  rewrite !run_bind. destruct (item (row it) 1 self1) as [[[cl|]|e] self2]; [|done|done].
  rewrite !run_bind. destruct (search_devices _ self2) as [[r|e] self3]; [|done].
  rewrite !run_bind. destruct (found r self3) as [[ok|e] self4]; [|done].
  destruct r as [i|]; [|done]. destruct (negb ok); [done|].
  destruct (column it) as [|[|[|[|[|[|[|col]]]]]]]; try done.
  - destruct (json_loads (text it)); [|done].
    destruct (validate _ _); [done|].
    change (revert (handle_cell_change_at (S depth)) i "state" json_dumps (row it) 4 self4
            = revert (handle_cell_change_at 1) i "state" json_dumps (row it) 4 self4).
    by rewrite !run_revert.
  - destruct (negb _ && negb _); [|done].
    change (revert (handle_cell_change_at (S depth)) i "status" py_str (row it) 5 self4
            = revert (handle_cell_change_at 1) i "status" py_str (row it) 5 self4).
    by rewrite !run_revert.
  - destruct (negb _ && negb _); [|done].
    change (revert (handle_cell_change_at (S depth)) i "faultStatus" py_str (row it) 6 self4
            = revert (handle_cell_change_at 1) i "faultStatus" py_str (row it) 6 self4).
    by rewrite !run_revert.
Qed.

(** ** Publication *)

Lemma silent_backend i calls self self' :
  backend self' = backend self → silent i calls self → silent i calls self'.
Proof. intros [= Hd Hs _] [<- Hi]. split; [done|]. by rewrite Hd. Qed.

Lemma silent_set_internal_change i calls b :
  preserves (silent i calls) (modify (set_internal_change b)).
Proof. by apply preserves_modify. Qed.

Lemma silent_device_setitem i calls j key x :
  key ≠ "connected" → preserves (silent i calls) (device_setitem j key x).
Proof.
  intros Hkey. apply preserves_modify. intros self [Hs (d & Hd & Hc)].
  split; [done|]. simpl. destruct (decide (j = i)) as [->|Hne].
  - exists (<[key := x]> d). rewrite list_lookup_alter_eq, Hd.
    split; [done|]. by rewrite lookup_insert_ne.
  - exists d. by rewrite list_lookup_alter_ne.
Qed.

(** An edit of a device that is not connected is not published. *)
Lemma silent_send_iot_device_update i calls :
  preserves (silent i calls) (send_iot_device_update i).
Proof.
  intros self Hsil. pose proof Hsil as [Hs (d & Hd & Hc)].
  unfold send_iot_device_update. rewrite run_bind.
  unfold device_getitem. rewrite run_bind. simpl. rewrite Hd.
  unfold lift, dict_getitem. by rewrite Hc.
Qed.

Lemma silent_revert depth i calls j key render r c :
  preserves (silent i calls)
    (revert (handle_cell_change_at (S depth)) j key render r c).
Proof. intros self Hsil. eapply silent_backend; [apply revert_backend|done]. Qed.

Lemma unconnected_edit_silent it self i calls :
  targets self it i → silent i calls self →
  silent i calls (handle_cell_change it self).2.
Proof.
  intros (c & Hc & Hsearch) Hsil. unfold handle_cell_change.
  rewrite handle_cell_change_at_S. unfold handle_cell_change_with.
  rewrite run_bind. simpl. destruct (internal_change self); [done|].
  rewrite run_bind. unfold item at 1. simpl. rewrite Hc.
  rewrite run_bind, run_search_devices, Hsearch. cbv iota beta.
  destruct (search_from_some_inv _ _ _ _ Hsearch) as (d & Hd & (a' & Ha' & _) & _).
  rewrite Nat.sub_0_r in Hd.
  rewrite run_bind, (found_device _ i d "ipAddress" a') by done.
  cbv iota beta. cbn [negb].
  match goal with |- silent _ _ (?body self).2 =>
    assert (preserves (silent i calls) body) as Hp; [|by apply Hp] end.
  destruct (column it) as [|[|[|[|[|[|[|col]]]]]]];
    try apply silent_send_iot_device_update.
  - destruct (json_loads (text it)); [|apply preserves_raise].
    destruct (validate _ _).
    + apply preserves_bind; [apply preserves_lift|]. intros state.
      apply preserves_bind; [by apply silent_device_setitem|]. intros _.
      apply silent_send_iot_device_update.
    + apply (silent_revert 0 i calls i "state" json_dumps).
  - destruct (negb _ && negb _).
    + apply (silent_revert 0 i calls i "status" py_str).
    + apply preserves_bind; [by apply silent_device_setitem|]. intros _.
      apply silent_send_iot_device_update.
  - destruct (negb _ && negb _).
    + apply (silent_revert 0 i calls i "faultStatus" py_str).
    + apply preserves_bind; [by apply silent_device_setitem|]. intros _.
      apply silent_send_iot_device_update.
Qed.

(** ** The bulk announcement *)

Lemma unconnected_filter ds :
  Forall (λ d, ∃ b, d !! "connected" = Some (PBool b)) ds →
  unconnected ds = Return (List.filter is_unconnected ds).
Proof.
  induction 1 as [|d ds [b Hb] _ IH]; [done|].
  simpl. unfold dict_getitem, is_unconnected. rewrite Hb, IH. simpl.
  by destruct b.
Qed.

Lemma run_send_unconnected_iot_devices self :
  connected self = true →
  Forall (λ d, ∃ b, d !! "connected" = Some (PBool b)) (devices self) →
  send_unconnected_iot_devices self =
  (Return tt,
   set_sio (λ calls,
     (calls ++ [sio_emit "unconnected_iot_devices"
                  (PList (PDict <$> (delete "connected" <$>
                            List.filter is_unconnected (devices self))))])%list)
     self).
Proof.
  intros Hconn Hall.
  unfold send_unconnected_iot_devices. rewrite run_bind. simpl. rewrite Hconn.
  simpl. rewrite run_bind. simpl. rewrite run_bind. unfold lift.
  by rewrite (unconnected_filter _ Hall).
Qed.

(** C9. Once the channel is connected, the bulk announcement carries a
    copy of each device whose [connected] field is false and of no other
    device, each copy without its [connected] field; the devices of the
    registry are as they were. *)
Theorem bulk_announcement_unconnected_only self :
  connected self = true →
  Forall (λ d, ∃ b, d !! "connected" = Some (PBool b)) (devices self) →
  let copies := delete "connected" <$> List.filter is_unconnected (devices self) in
  let r := send_unconnected_iot_devices self in
  r.1 = Return tt
  ∧ sio r.2 = (sio self ++ [sio_emit "unconnected_iot_devices"
                                     (PList (PDict <$> copies))])%list
  ∧ devices r.2 = devices self
  ∧ Forall (λ copy, copy !! "connected" = None) copies
  ∧ (∀ copy, copy ∈ copies ↔
       ∃ d, d ∈ devices self ∧ d !! "connected" = Some (PBool false)
            ∧ copy = delete "connected" d).
Proof.
  intros Hconn Hall copies r. subst r copies.
  rewrite run_send_unconnected_iot_devices by done. simpl.
  split_and!; try done.
  - apply Forall_fmap, Forall_forall. intros d _. simpl. apply lookup_delete_eq.
  - intros copy. rewrite list_elem_of_fmap. split.
    + intros (d & -> & Hd). apply list_elem_of_In, filter_In in Hd as [Hin Hun].
      exists d. split; [by apply list_elem_of_In|]. split; [|done].
      unfold is_unconnected in Hun.
      destruct (d !! "connected") as [[|[]| | | | |]|]; done.
    + intros (d & Hin & Hc & ->). exists d. split; [done|].
      apply list_elem_of_In, filter_In. split; [by apply list_elem_of_In|].
      unfold is_unconnected. by rewrite Hc.
Qed.

(** ** A snapshot that names a device the registry already holds *)

Lemma merge_connected_bool incoming ds :
  Forall (λ d, ∃ b, d !! "connected" = Some (PBool b)) ds →
  Forall (λ d, ∃ b, d !! "connected" = Some (PBool b)) (merge incoming ds).
Proof.
  revert ds. induction incoming as [|x rest IH]; intros ds Hall; [done|].
  rewrite merge_cons. destruct (_ !! "ipAddress") as [a|]; [|done].
  destruct (search_from ds a 0) as [[i|]|e]; [by apply IH| |done].
  apply IH, Forall_app. split; [done|]. constructor; [|done].
  exists true. apply lookup_insert_eq.
Qed.

(** Every device a merge appends has an address that differs from the
    address of each device that was there before. *)
Lemma merge_new_differ incoming ds new :
  merge incoming ds = (ds ++ new)%list →
  Forall (λ n, ∃ an, n !! "ipAddress" = Some an ∧ Forall (differs an) ds) new.
Proof.
  revert ds new. induction incoming as [|x rest IH]; intros ds new Hm.
  - simpl in Hm. apply (f_equal length) in Hm as Hlen.
    rewrite length_app in Hlen. destruct new; [done|simpl in Hlen; lia].
  - rewrite merge_cons in Hm.
    assert (Hnil : ds = (ds ++ new)%list → Forall
      (λ n, ∃ an, n !! "ipAddress" = Some an ∧ Forall (differs an) ds) new).
    { intros Heq. apply (f_equal length) in Heq. rewrite length_app in Heq.
      destruct new; [done|simpl in Heq; lia]. }
    destruct (_ !! "ipAddress") as [a|] eqn:Ha; [|by apply Hnil].
    destruct (search_from ds a 0) as [[i|]|e] eqn:Hs; [by apply IH| |by apply Hnil].
    destruct (merge_prefix rest (ds ++ [<["connected":=PBool true]> x])) as [new' Hnew'].
    rewrite Hnew', <- app_assoc in Hm. apply app_inv_head in Hm as <-.
    constructor.
    + exists a. split; [done|]. by eapply search_from_none_inv.
    + apply IH in Hnew'. eapply Forall_impl; [exact Hnew'|].
      intros n (an & Han & Hdiff). exists an. split; [done|].
      by apply Forall_app in Hdiff as [? _].
Qed.

(** C10. When a remote snapshot holds a device with the address of a
    device [d] of the registry that is not connected, the merge leaves [d]
    as it is, still not connected, and does not add the snapshot's device;
    an edit of [d] made afterwards is not published and leaves [d] not
    connected; and the bulk announcement of the next connection carries
    the copy of [d]. *)
Theorem snapshot_keeps_unconnected_device incoming self i d a x ax :
  Forall (λ d, ∃ b, d !! "connected" = Some (PBool b)) (devices self) →
  devices self !! i = Some d →
  d !! "connected" = Some (PBool false) →
  d !! "ipAddress" = Some a →
  x ∈ incoming → x !! "ipAddress" = Some ax → py_eq a ax = true →
  let self1 := (receive_connected_iot_devices incoming self).2 in
  devices self1 !! i = Some d
  ∧ (<["connected" := PBool true]> x
       ∉ drop (length (devices self)) (devices self1))
  ∧ (∀ it, targets self1 it i →
       let self2 := (handle_cell_change it self1).2 in
       sio self2 = sio self1 ∧
       ∃ d', devices self2 !! i = Some d' ∧ d' !! "connected" = Some (PBool false))
  ∧ (∀ self2, devices self2 = devices self1 →
       ∃ payload,
         sio (connect_handler true self2).2
         = (sio self2 ++ [sio_connect SERVER_URL;
                          sio_emit "unconnected_iot_devices" (PList payload)])%list
         ∧ PDict (delete "connected" d) ∈ payload).
Proof.
  intros Hbool Hi Hc Ha Hx Hax Heq self1.
  assert (Hdev : devices self1 = merge incoming (devices self))
    by apply receive_connected_iot_devices_devices.
  destruct (merge_prefix incoming (devices self)) as [new Hnew].
  assert (Hi1 : devices self1 !! i = Some d).
  { rewrite Hdev, Hnew. apply lookup_app_l_Some, Hi. }
  split_and!.
  - done.
  - rewrite Hdev, Hnew, drop_app_length. intros Hin.
    pose proof (merge_new_differ _ _ _ Hnew) as Hdiff.
    rewrite Forall_forall in Hdiff.
    destruct (Hdiff _ Hin) as (an & Han & Hall).
    rewrite lookup_insert_ne in Han by done.
    assert (an = ax) as -> by congruence.
    rewrite Forall_lookup in Hall. destruct (Hall _ _ Hi) as (a' & Ha' & Hne).
    congruence.
  - intros it Ht self2.
    apply (unconnected_edit_silent it self1 i (sio self1) Ht).
    split; [done|]. by exists d.
  - intros self2 Hsame. eexists. unfold connect_handler.
    rewrite run_bind. simpl. rewrite run_bind. simpl.
    rewrite run_send_unconnected_iot_devices.
    + simpl. rewrite <- app_assoc. split; [reflexivity|].
      apply list_elem_of_fmap. exists (delete "connected" d). split; [done|].
      apply list_elem_of_fmap. exists d. split; [done|].
      apply list_elem_of_In, filter_In. split.
      * apply list_elem_of_In. rewrite Hsame. by eapply list_elem_of_lookup_2.
      * unfold is_unconnected. by rewrite Hc.
    + done.
    + simpl. rewrite Hsame, Hdev. by apply merge_connected_bool.
Qed.

(** ** Local edits of the state field *)

(** X2. A text that [json.loads] decodes but the schema rejects: the handler
    writes the device's current state back into the cell and returns; the
    registry and the channel are as they were. *)
Lemma state_edit_rejected it self i d state candidate :
  internal_change self = false →
  targets self it i →
  column it = 4%nat →
  json_loads (text it) = Some candidate →
  validate candidate DEVICE_STATE_SCHEMA = false →
  devices self !! i = Some d →
  d !! "state" = Some state →
  handle_cell_change it self
  = (Return tt, set_table (put_item (row it) 4 (json_dumps state)) self).
Proof.
  intros Hidle (c & Hc & Hsearch) Hcol Hloads Hval Hd Hstate.
  unfold handle_cell_change.
  rewrite handle_cell_change_at_S. unfold handle_cell_change_with.
  rewrite run_bind. simpl. rewrite Hidle.
  rewrite run_bind. unfold item at 1. simpl. rewrite Hc.
  rewrite run_bind, run_search_devices, Hsearch. cbv iota beta.
  destruct (search_from_some_inv _ _ _ _ Hsearch) as (d0 & Hd0 & (a' & Ha' & _) & _).
  rewrite Nat.sub_0_r in Hd0.
  rewrite run_bind, (found_device _ i d0 "ipAddress" a') by done.
  cbv iota beta. cbn [negb]. rewrite Hcol, Hloads, Hval.
  change (revert (handle_cell_change_at 1) i "state" json_dumps (row it) 4 self
          = (Return tt, set_table (put_item (row it) 4 (json_dumps state)) self)).
  rewrite run_revert, Hd, Hstate. destruct self; simpl in *. by subst.
Qed.

(** A text that [json.loads] does not decode: [JSONDecodeError] is not a
    [ValidationError], so it leaves the handler; nothing is written back
    into the cell. *)
Lemma state_edit_not_json it self i :
  internal_change self = false →
  targets self it i →
  column it = 4%nat →
  json_loads (text it) = None →
  handle_cell_change it self = (Raise JSONDecodeError, self).
Proof.
  intros Hidle (c & Hc & Hsearch) Hcol Hloads.
  unfold handle_cell_change.
  rewrite handle_cell_change_at_S. unfold handle_cell_change_with.
  rewrite run_bind. simpl. rewrite Hidle.
  rewrite run_bind. unfold item at 1. simpl. rewrite Hc.
  rewrite run_bind, run_search_devices, Hsearch. cbv iota beta.
  destruct (search_from_some_inv _ _ _ _ Hsearch) as (d0 & Hd0 & (a' & Ha' & _) & _).
  rewrite Nat.sub_0_r in Hd0.
  rewrite run_bind, (found_device _ i d0 "ipAddress" a') by done.
  cbv iota beta. cbn [negb]. by rewrite Hcol, Hloads.
Qed.

(** ** Publication of a device delta *)

(** [send_iot_device_update] looks at the device's [connected] field only:
    it calls [sio.emit] whether or not the channel is connected. *)
Lemma run_send_iot_device_update i d c self :
  devices self !! i = Some d →
  d !! "connected" = Some c →
  py_bool c = true →
  send_iot_device_update i self =
  (Return tt,
   set_sio (λ calls, (calls ++ [sio_emit "spoof_app_iot_device_update"
                                  (PDict (delete "connected" d))])%list) self).
Proof.
  intros Hd Hc Htrue. unfold send_iot_device_update. rewrite run_bind.
  unfold device_getitem. rewrite run_bind. simpl. rewrite Hd.
  unfold lift, dict_getitem. rewrite Hc, Htrue. simpl.
  rewrite run_bind. simpl. by rewrite Hd.
Qed.

(** ** The validator *)

Lemma validate_Obj v keywords :
  validate v (Obj keywords) = forallb (validate v) keywords.
Proof. reflexivity. Qed.

Lemma validate_Type v t : validate v (Type_ t) = is_type t v.
Proof. reflexivity. Qed.

Lemma validate_Items_list l s :
  validate (PList l) (Items s) = forallb (λ x, validate x s) l.
Proof. reflexivity. Qed.

Lemma validate_Properties_dict d ps :
  validate (PDict d) (Properties ps) =
  forallb (λ p, match d !! p.1 with
                | Some x => validate x p.2
                | None => true
                end) ps.
Proof. reflexivity. Qed.

Lemma validate_Required_dict d keys :
  validate (PDict d) (Required keys) =
  forallb (λ k, bool_decide (is_Some (d !! k))) keys.
Proof. reflexivity. Qed.

Lemma is_type_TString v : is_type TString v = true ↔ ∃ s, v = PStr s.
Proof. split; [destruct v; try done; eauto|by intros [s ->]]. Qed.

Lemma validate_value v :
  validate v (Obj [OneOf [Obj [Type_ TString]; Obj [Type_ TNumber];
                          Obj [Type_ TBoolean]]]) = true ↔ scalar v.
Proof. by destruct v. Qed.

Lemma validate_string v :
  validate v (Obj [Type_ TString]) = true ↔ ∃ s, v = PStr s.
Proof.
  rewrite validate_Obj. cbn [forallb]. rewrite validate_Type, andb_true_r.
  apply is_type_TString.
Qed.

Lemma validate_entry e :
  validate e (Obj [
    Type_ TObject;
    Properties [
      ("fieldName", Obj [Type_ TString]);
      ("datatype", Obj [Type_ TString]);
      ("value", Obj [OneOf [ Obj [Type_ TString];
                             Obj [Type_ TNumber];
                             Obj [Type_ TBoolean] ]]) ];
    Required ["fieldName"; "datatype"; "value"] ]) = true
  ↔ ∃ d, e = PDict d ∧ entry_fields d.
Proof.
  destruct e as [| | | | | |d];
    try (split; [done|by intros (? & ? & ?)]).
  rewrite validate_Obj. cbn [forallb].
  rewrite validate_Type, validate_Properties_dict, validate_Required_dict.
  cbn [forallb is_type fst snd]. rewrite !andb_true_r, andb_true_l.
  unfold entry_fields. rewrite !andb_true_iff, !bool_decide_eq_true.
  split.
  - intros ((Hf & Ht & Hv) & Hrf & Hrt & Hrv). exists d. split; [done|].
    destruct Hrf as [f Hf'], Hrt as [t Ht'], Hrv as [x Hx'].
    rewrite Hf' in Hf. rewrite Ht' in Ht. rewrite Hx' in Hv.
    apply validate_string in Hf as [s ->]. apply validate_string in Ht as [s' ->].
    split_and!; eauto. exists x. split; [done|]. by apply validate_value.
  - intros (d' & [= <-] & (s & Hf) & (s' & Ht) & (x & Hx & Hsc)).
    rewrite Hf, Ht, Hx.
    split_and!; first [by eauto | apply validate_string; by eauto
                      | by apply validate_value].
Qed.

(** C8, as the code has it.  The validator accepts a candidate exactly
    when it is a sequence of entries, each an object with the fields
    [fieldName] (a string), [datatype] (a string) and [value] (a string, a
    number or a boolean); an entry may carry other fields as well. *)
Theorem validator_accepts_conforming candidate :
  validate candidate DEVICE_STATE_SCHEMA = true ↔ conforms candidate.
Proof.
  unfold DEVICE_STATE_SCHEMA, conforms.
  destruct candidate as [| | | | |l|];
    try (split; [done|by intros (? & ? & ?)]).
  rewrite validate_Obj. cbn [forallb].
  rewrite validate_Type, validate_Items_list.
  cbn [is_type]. rewrite andb_true_r, andb_true_l.
  rewrite forallb_forall. split.
  - intros Hall. exists l. split; [done|]. apply Forall_forall. intros e He.
    apply validate_entry, Hall. by apply list_elem_of_In.
  - intros (l' & [= <-] & Hall) e He. apply validate_entry.
    rewrite Forall_forall in Hall. by apply Hall, list_elem_of_In.
Qed.

(** ** Boolean entries *)

Lemma bind_Return {A B} (a : A) (k : A → outcome B) : Return a ≫= k = k a.
Proof. reflexivity. Qed.

Lemma bind_Raise {A B} e (k : A → outcome B) : Raise e ≫= k = Raise e.
Proof. reflexivity. Qed.

Ltac outcome := rewrite ?bind_Return, ?bind_Raise.

Lemma coerce_entry_ok entry entry' :
  coerce_entry entry = Return entry' → boolean_entry_ok entry'.
Proof.
  unfold coerce_entry. destruct entry as [| | | | | |d]; try done.
  unfold py_getitem, dict_getitem.
  destruct (d !! "datatype") as [dt|] eqn:Hdt; outcome; [|done].
  destruct (py_eq dt (PStr "boolean")) eqn:Hb.
  - destruct (d !! "value") as [x|]; outcome; [|done]. intros [= <-].
    intros d' dt' [= <-] _ _. exists (py_bool x). apply lookup_insert_eq.
  - intros [= <-] d' dt' [= <-] Hdt' Hb'. congruence.
Qed.

Lemma map_outcome_Forall {A B} (f : A → outcome B) (P : B → Prop) xs ys :
  (∀ x y, f x = Return y → P y) →
  map_outcome f xs = Return ys → Forall P ys.
Proof.
  intros Hf. revert ys. induction xs as [|x xs IH]; intros ys; simpl.
  - by intros [= <-].
  - destruct (f x) as [y|] eqn:Hy; outcome; [|done].
    destruct (map_outcome f xs) as [ys'|]; outcome; [|done]. intros [= <-].
    constructor; eauto.
Qed.

Lemma coerce_state_ok state entries' :
  coerce_state state = Return (PList entries') →
  Forall boolean_entry_ok entries'.
Proof.
  unfold coerce_state.
  destruct (py_iter state) as [entries|] eqn:Hit; outcome; [|done].
  destruct (map_outcome coerce_entry entries) as [es|] eqn:Hes; outcome; [|done].
  destruct state; try done. intros [= <-].
  eapply map_outcome_Forall; [apply coerce_entry_ok|done].
Qed.

Lemma read_device_ok row device :
  read_device row = Return device → booleans_at_rest device.
Proof.
  unfold read_device.
  destruct (dict_getitem row "state") as [raw|]; outcome; [|done].
  destruct (loads raw) as [state|]; outcome; [|done]. cbv zeta.
  destruct (dict_getitem (<["state":=state]> row) "connected") as [flag|];
    outcome; [|done].
  destruct (dict_getitem _ "state") as [state0|]; outcome; [|done].
  destruct (coerce_state state0) as [state'|] eqn:Hco; outcome; [|done].
  intros [= <-] entries. rewrite lookup_insert_eq. intros [= ->].
  by eapply coerce_state_ok.
Qed.

(** C7, for the bulk load.  In every device the bulk load returns, each
    entry of the state whose [datatype] is ["boolean"] has a boolean
    [value], whatever the value was in the file. *)
Theorem bulk_load_booleans_at_rest rows ds :
  read_unconnected_iot_devices rows = Return ds →
  Forall booleans_at_rest ds.
Proof. apply map_outcome_Forall, read_device_ok. Qed.

(** ** The nesting of handler calls *)

Lemma agree_refl {A} I (c : M A) : agree I c c.
Proof. by intros self HI. Qed.

Lemma agree_bind {A B} I (c1 c2 : M A) (k1 k2 : A → M B) :
  agree I c1 c2 → preserves I c1 → (∀ a, agree I (k1 a) (k2 a)) →
  agree I (c1 ≫= k1) (c2 ≫= k2).
Proof.
  intros Hc Hp Hk self HI. rewrite !run_bind.
  rewrite <- (Hc self HI). specialize (Hp self HI).
  destruct (c1 self) as [[a|e] self1]; [|done]. by apply Hk.
Qed.

Lemma agree_for_each {A} I (xs : list A) body1 body2 :
  (∀ x, agree I (body1 x) (body2 x)) → (∀ x, preserves I (body1 x)) →
  agree I (for_each xs body1) (for_each xs body2).
Proof.
  intros Hb Hp. induction xs as [|x xs IH]; [by apply agree_refl|].
  simpl. apply agree_bind; [apply Hb|apply Hp|intros _; apply IH].
Qed.

Lemma setItem_agree depth depth' v r c s :
  agree (busy v) (setItem (handle_cell_change_at (S depth)) r c s)
                 (setItem (handle_cell_change_at (S depth')) r c s).
Proof.
  intros self [Hb _].
  by rewrite (run_setItem_busy depth), (run_setItem_busy depth').
Qed.

Lemma setFlags_agree depth depth' v r c it :
  agree (busy v)
    (setFlags_not_editable (handle_cell_change_at (S depth)) r c it)
    (setFlags_not_editable (handle_cell_change_at (S depth')) r c it).
Proof.
  intros self [Hb _]. unfold setFlags_not_editable. rewrite !run_bind. simpl.
  by rewrite (handle_cell_change_busy depth), (handle_cell_change_busy depth').
Qed.

Ltac agree :=
  repeat first
    [ apply setItem_agree
    | apply setFlags_agree
    | match goal with
      | |- agree _ (mbind _ _) (mbind _ _) =>
          apply agree_bind; [|solve [frame]|intros ?]
      | |- agree _ (match ?x with _ => _ end) _ => destruct x
      end
    | apply agree_refl ].

(** A refresh does not depend on how deep the calls may nest either. *)
Lemma populate_table_depth depth self :
  populate_table_with (handle_cell_change_at (S depth)) self
  = populate_table self.
Proof.
  unfold populate_table, handle_cell_change, populate_table_with.
  rewrite !run_bind.
  change (modify (set_internal_change true) self)
    with (Return tt, set_internal_change true self).
  cbv iota beta.
  assert (busy (backend self) (set_internal_change true self)) as Hb by done.
  revert Hb. generalize (set_internal_change true self).
  match goal with |- ∀ s, _ → ?c1 s = ?c2 s =>
    change (agree (busy (backend self)) c1 c2) end.
  apply agree_bind; [apply agree_refl|frame|]. intros ds.
  apply agree_bind; [apply agree_refl| |].
  { apply preserves_modify. intros ? ?. by apply busy_set_table. }
  intros _. apply agree_bind.
  { apply agree_for_each; intros r; [unfold populate_row; agree|].
    apply populate_row_busy. }
  { apply preserves_for_each. intros r. apply populate_row_busy. }
  intros _. apply agree_bind; [apply agree_refl|frame|]. intros n.
  apply agree_bind; [| |intros; apply agree_refl].
  { apply agree_for_each; intros r; [|apply lock_row_busy].
    unfold lock_row, item. apply agree_for_each; intros c; [agree|frame]. }
  { apply preserves_for_each. intros r. apply lock_row_busy. }
Qed.

(** Two levels are enough: the handler never runs into the bound. *)
Lemma search_from_no_overflow ds a k :
  search_from ds a k ≠ Raise RecursionError.
Proof.
  revert k. induction ds as [|d ds IH]; intros k; [done|].
  simpl. unfold dict_getitem. destruct (d !! "ipAddress") as [a'|]; [|done].
  rewrite bind_Return. destruct (py_eq a' a); [done|apply IH].
Qed.

Lemma send_iot_device_update_no_overflow i self :
  (send_iot_device_update i self).1 ≠ Raise RecursionError.
Proof.
  unfold send_iot_device_update. rewrite run_bind.
  unfold device_getitem. rewrite run_bind. simpl.
  destruct (devices self !! i) as [d|] eqn:Hd; [|done].
  unfold lift, dict_getitem. destruct (d !! "connected") as [c|]; [|done].
  destruct (negb (py_bool c)); [done|]. rewrite run_bind. simpl.
  by rewrite Hd.
Qed.

Lemma revert_no_overflow depth i key render r c self :
  (revert (handle_cell_change_at (S depth)) i key render r c self).1
  ≠ Raise RecursionError.
Proof.
  rewrite run_revert. destruct (devices self !! i) as [d|]; [|done].
  by destruct (d !! key).
Qed.

Lemma handle_cell_change_no_overflow it self :
  (handle_cell_change it self).1 ≠ Raise RecursionError.
Proof.
  unfold handle_cell_change.
  rewrite (handle_cell_change_at_S 1).
  unfold handle_cell_change_with. rewrite !run_bind. simpl.
  destruct (internal_change self); [done|].
  rewrite !run_bind. unfold item at 1. simpl.
  destruct (cells (table self) !! (row it, 1%nat)) as [cl|]; [|done].
  rewrite !run_bind, run_search_devices.
  pose proof (search_from_no_overflow (devices self) (PStr (cell_text cl)) 0) as Hs.
  destruct (search_from _ _ _) as [[i|]|e]; cbv iota beta;
    [| |by intros [= ->]].
  2: { rewrite run_bind. by simpl. }
  rewrite run_bind. unfold found. rewrite run_bind. simpl.
  destruct (devices self !! i) as [d|]; [|done]. cbn [mret M_ret].
  match goal with |- context [if ?b then skip else _] => destruct b end;
    [done|].
  destruct (column it) as [|[|[|[|[|[|[|col]]]]]]];
    try apply send_iot_device_update_no_overflow.
  - destruct (json_loads (text it)) eqn:Hl; [|done].
    destruct (validate _ _).
    + rewrite run_bind. unfold lift. rewrite ?Hl. cbv iota beta.
      rewrite run_bind. simpl. apply send_iot_device_update_no_overflow.
    + apply (revert_no_overflow 0 i "state" json_dumps).
  - destruct (negb _ && negb _).
    + apply (revert_no_overflow 0 i "status" py_str).
    + rewrite run_bind. simpl. apply send_iot_device_update_no_overflow.
  - destruct (negb _ && negb _).
    + apply (revert_no_overflow 0 i "faultStatus" py_str).
    + rewrite run_bind. simpl. apply send_iot_device_update_no_overflow.
Qed.

(** ** The branches of the edit handler *)

Lemma run_handle_cell_change it self i :
  internal_change self = false → targets self it i →
  handle_cell_change it self = dispatch i it self.
Proof.
  intros Hidle (c & Hc & Hsearch). unfold handle_cell_change.
  rewrite handle_cell_change_at_S. unfold handle_cell_change_with.
  rewrite run_bind. simpl. rewrite Hidle.
  rewrite run_bind. unfold item at 1. simpl. rewrite Hc.
  rewrite run_bind, run_search_devices, Hsearch. cbv iota beta.
  destruct (search_from_some_inv _ _ _ _ Hsearch) as (d0 & Hd0 & (a' & Ha' & _) & _).
  rewrite Nat.sub_0_r in Hd0.
  rewrite run_bind, (found_device _ i d0 "ipAddress" a') by done.
  reflexivity.
Qed.

Lemma run_device_setitem i key x self :
  device_setitem i key x self
  = (Return tt, set_devices (alter (<[key := x]>) i) self).
Proof. reflexivity. Qed.

Lemma alter_insert_device (ds : list (gmap string pyval)) i d key x :
  ds !! i = Some d → alter (<[key := x]>) i ds = <[i := <[key := x]> d]> ds.
Proof.
  intros Hd. rewrite list_insert_alter. apply list_alter_ext; [|done].
  intros d' Hd'. congruence.
Qed.

(** A field other than [connected] is assigned and the device is
    published when it is connected. *)
Lemma run_assign_and_send i key x d c self :
  key ≠ "connected" →
  devices self !! i = Some d → d !! "connected" = Some c →
  (device_setitem i key x ;; send_iot_device_update i) self
  = (Return tt, accepted i (<[key := x]> d) c self).
Proof.
  intros Hkey Hd Hc. rewrite run_bind, run_device_setitem. cbv iota beta.
  assert (set_devices (alter (<[key := x]>) i) self
          = set_devices (λ ds, <[i := <[key := x]> d]> ds) self) as ->.
  { unfold set_devices. by rewrite (alter_insert_device _ i d key x Hd). }
  set (self1 := set_devices _ self).
  assert (devices self1 !! i = Some (<[key := x]> d)) as Hd'.
  { simpl. apply list_lookup_insert_eq. by eapply lookup_lt_Some. }
  unfold accepted. cbv zeta. fold self1.
  destruct (py_bool c) eqn:Hb.
  - rewrite (run_send_iot_device_update i (<[key := x]> d) c); [done|done| |done].
    by rewrite lookup_insert_ne.
  - unfold send_iot_device_update. rewrite run_bind.
    unfold device_getitem. rewrite run_bind.
    change (gets devices self1) with (Return (devices self1), self1).
    cbv iota beta. rewrite Hd'. unfold lift, dict_getitem.
    rewrite lookup_insert_ne by done. by rewrite Hc, Hb.
Qed.

Lemma run_send_iot_device_update_unconnected i d c self :
  devices self !! i = Some d → d !! "connected" = Some c →
  py_bool c = false →
  send_iot_device_update i self = (Return tt, self).
Proof.
  intros Hd Hc Hb. unfold send_iot_device_update. rewrite run_bind.
  unfold device_getitem. rewrite run_bind.
  change (gets devices self) with (Return (devices self), self).
  cbv iota beta. rewrite Hd. unfold lift, dict_getitem. by rewrite Hc, Hb.
Qed.

Lemma revert_idle i key render r c d x self :
  internal_change self = false →
  devices self !! i = Some d → d !! key = Some x →
  revert (handle_cell_change_at 1) i key render r c self
  = (Return tt, set_table (put_item r c (render x)) self).
Proof.
  intros Hidle Hd Hx. rewrite run_revert, Hd, Hx.
  destruct self; simpl in *. by subst.
Qed.

(** X1. A text that is valid JSON and satisfies the schema, typed into the
    state cell of a device: the decoded value becomes the device's state,
    nothing else in the registry changes, the table keeps what the
    operator typed, and the device is published, without its [connected]
    field, exactly when that field is true. *)
Theorem state_edit_accepted it self i d c candidate :
  internal_change self = false →
  targets self it i →
  column it = 4%nat →
  json_loads (text it) = Some candidate →
  validate candidate DEVICE_STATE_SCHEMA = true →
  devices self !! i = Some d →
  d !! "connected" = Some c →
  let d' := <["state" := candidate]> d in
  let r := handle_cell_change it self in
  r.1 = Return tt
  ∧ devices r.2 = <[i := d']> (devices self)
  ∧ sio r.2 = (if py_bool c then sio self ++ [delta d'] else sio self)%list
  ∧ table r.2 = table self
  ∧ internal_change r.2 = false
  ∧ connected r.2 = connected self.
Proof.
  intros Hidle Ht Hcol Hloads Hval Hd Hc d' r. subst r d'.
  assert (handle_cell_change it self
          = (Return tt, accepted i (<["state" := candidate]> d) c self)) as ->.
  { rewrite (run_handle_cell_change it self i) by done.
    unfold dispatch. rewrite Hcol, Hloads, Hval.
    rewrite run_bind. unfold lift at 1, loads. rewrite Hloads. cbv iota beta.
    by apply run_assign_and_send. }
  unfold accepted. cbv zeta. by destruct (py_bool c).
Qed.

(** X3. An edit of the status cell: the texts On and Off are stored as the
    device's status and the device is published when it is connected; any
    other text is replaced in the cell by the current status, and nothing
    else happens. *)
Theorem status_edit it self i d c status :
  internal_change self = false →
  targets self it i →
  column it = 5%nat →
  devices self !! i = Some d →
  d !! "connected" = Some c →
  d !! "status" = Some status →
  handle_cell_change it self =
  if bool_decide (text it = "On") || bool_decide (text it = "Off")
  then (Return tt, accepted i (<["status" := PStr (text it)]> d) c self)
  else (Return tt, set_table (put_item (row it) 5 (py_str status)) self).
Proof.
  intros Hidle Ht Hcol Hd Hc Hs.
  rewrite (run_handle_cell_change it self i) by done.
  unfold dispatch. rewrite Hcol.
  rewrite <- negb_orb. destruct (_ || _); cbn [negb].
  - by apply run_assign_and_send.
  - by apply (revert_idle i _ py_str _ _ d).
Qed.

(** X4. An edit of the fault cell: the texts Ok and Fault are stored as
    the device's faultStatus and the device is published when it is
    connected; any other text is replaced in the cell by the current
    faultStatus, and nothing else happens. *)
Theorem fault_edit it self i d c fault :
  internal_change self = false →
  targets self it i →
  column it = 6%nat →
  devices self !! i = Some d →
  d !! "connected" = Some c →
  d !! "faultStatus" = Some fault →
  handle_cell_change it self =
  if bool_decide (text it = "Ok") || bool_decide (text it = "Fault")
  then (Return tt, accepted i (<["faultStatus" := PStr (text it)]> d) c self)
  else (Return tt, set_table (put_item (row it) 6 (py_str fault)) self).
Proof.
  intros Hidle Ht Hcol Hd Hc Hs.
  rewrite (run_handle_cell_change it self i) by done.
  unfold dispatch. rewrite Hcol.
  rewrite <- negb_orb. destruct (_ || _); cbn [negb].
  - by apply run_assign_and_send.
  - by apply (revert_idle i _ py_str _ _ d).
Qed.

(** X5. An item whose row shows no address, or an address that no device of
    the registry has, is ignored: the handler returns and the window is
    as it was. *)
Theorem edit_of_unknown_device_ignored it self :
  cells (table self) !! (row it, 1%nat) = None
  ∨ (∃ c, cells (table self) !! (row it, 1%nat) = Some c
          ∧ Forall (differs (PStr (cell_text c))) (devices self)) →
  handle_cell_change it self = (Return tt, self).
Proof.
  intros Hcase. unfold handle_cell_change.
  rewrite handle_cell_change_at_S. unfold handle_cell_change_with.
  rewrite run_bind. simpl. destruct (internal_change self); [done|].
  rewrite run_bind. unfold item at 1. simpl.
  destruct Hcase as [->|(c & -> & Hall)]; [done|].
  rewrite run_bind, run_search_devices, (search_from_none _ _ 0 Hall).
  cbv iota beta. rewrite run_bind. reflexivity.
Qed.

(** X6. An item in a column other than state, status and fault changes
    nothing in the registry; the handler still publishes the device when
    it is connected. *)
Theorem other_column_event it self i d c :
  internal_change self = false →
  targets self it i →
  (column it < 4 ∨ 6 < column it)%nat →
  devices self !! i = Some d →
  d !! "connected" = Some c →
  handle_cell_change it self =
  (Return tt,
   if py_bool c then set_sio (λ calls, (calls ++ [delta d])%list) self
   else self).
Proof.
  intros Hidle Ht Hcol Hd Hc.
  rewrite (run_handle_cell_change it self i) by done.
  unfold dispatch.
  assert (send_iot_device_update i self =
          (Return tt, if py_bool c
                      then set_sio (λ calls, (calls ++ [delta d])%list) self
                      else self)) as Hsend.
  { destruct (py_bool c) eqn:Hb.
    - by apply (run_send_iot_device_update i d c).
    - by apply (run_send_iot_device_update_unconnected i d c). }
  destruct (column it) as [|[|[|[|[|[|[|col]]]]]]]; try done; lia.
Qed.

(** ** Lookup, once more *)

Lemma search_from_some_first ds a k i :
  search_from ds a k = Return (Some i) →
  ∀ j dj, (j < i - k)%nat → ds !! j = Some dj → differs a dj.
Proof.
  revert k. induction ds as [|d ds IH]; intros k Hs j dj Hj Hdj; [done|].
  simpl in Hs. unfold dict_getitem in Hs.
  destruct (d !! "ipAddress") as [a'|] eqn:Ha; [|done].
  rewrite bind_Return in Hs. destruct (py_eq a' a) eqn:Heq.
  - injection Hs as <-. lia.
  - destruct j as [|j].
    + simpl in Hdj. injection Hdj as <-. by exists a'.
    + simpl in Hdj. apply (IH (S k) Hs j); [|done].
      apply search_from_some_inv in Hs as (_ & _ & _ & Hle). lia.
Qed.

Lemma search_from_raise_inv ds a k e :
  search_from ds a k = Raise e →
  e = KeyError "ipAddress"
  ∧ ∃ j dj, ds !! j = Some dj ∧ dj !! "ipAddress" = None
            ∧ ∀ j' dj', (j' < j)%nat → ds !! j' = Some dj' → differs a dj'.
Proof.
  revert k. induction ds as [|d ds IH]; intros k Hs; [done|].
  simpl in Hs. unfold dict_getitem in Hs.
  destruct (d !! "ipAddress") as [a'|] eqn:Ha.
  - rewrite bind_Return in Hs. destruct (py_eq a' a) eqn:Heq; [done|].
    destruct (IH _ Hs) as (-> & j & dj & Hj & Hnone & Hbefore).
    split; [done|]. exists (S j), dj. split_and!; [done..|].
    intros [|j'] dj' Hlt Hdj'.
    + simpl in Hdj'. injection Hdj' as <-. by exists a'.
    + apply (Hbefore j'); [lia|done].
  - rewrite bind_Raise in Hs. injection Hs as <-. split; [done|].
    exists 0%nat, d. split_and!; [done..|]. intros j' dj' Hlt. lia.
Qed.

(** X7. [search_devices] only reads.  It returns the index of the first
    device whose address equals the one looked for, [None] exactly when
    every device has another address, and raises [KeyError] exactly when
    it meets a device without an address before any match. *)
Theorem search_devices_first_match a self :
  let r := search_devices a self in
  r.2 = self
  ∧ (∀ i, r.1 = Return (Some i) ↔
          ∃ d, devices self !! i = Some d ∧ matches a d
               ∧ ∀ j dj, (j < i)%nat → devices self !! j = Some dj →
                         differs a dj)
  ∧ (r.1 = Return None ↔ Forall (differs a) (devices self))
  ∧ (∀ e, r.1 = Raise e ↔
          e = KeyError "ipAddress"
          ∧ ∃ j dj, devices self !! j = Some dj ∧ dj !! "ipAddress" = None
                    ∧ ∀ j' dj', (j' < j)%nat → devices self !! j' = Some dj' →
                                differs a dj').
Proof.
  intros r. subst r. rewrite run_search_devices. cbn [fst snd].
  split_and!.
  - done.
  - intros i. split.
    + intros Hs. destruct (search_from_some_inv _ _ _ _ Hs) as (d & Hd & Hm & _).
      rewrite Nat.sub_0_r in Hd. exists d. split_and!; [done..|].
      intros j dj Hj. apply (search_from_some_first _ _ _ _ Hs). lia.
    + intros (d & Hd & Hm & Hfirst).
      by rewrite (search_from_found _ _ i d 0).
  - split; [apply search_from_none_inv|apply search_from_none].
  - intros e. split; [apply search_from_raise_inv|].
    intros (-> & j & dj & Hj & Hnone & Hbefore).
    destruct (search_from (devices self) a 0) as [[i|]|e] eqn:Hs.
    + exfalso. destruct (search_from_some_inv _ _ _ _ Hs) as (d & Hd & (a' & Ha' & _) & _).
      rewrite Nat.sub_0_r in Hd.
      destruct (Nat.lt_trichotomy i j) as [Hlt|[->|Hgt]].
      * destruct (Hbefore _ _ Hlt Hd) as (a'' & Ha'' & Hne).
        destruct (search_from_some_inv _ _ _ _ Hs) as (d2 & Hd2 & (a2 & Ha2 & Heq2) & _).
        rewrite Nat.sub_0_r in Hd2. congruence.
      * congruence.
      * assert (j < i - 0)%nat as Hlt by lia.
        destruct (search_from_some_first _ _ _ _ Hs j dj Hlt Hj) as (a'' & Ha'' & _).
        congruence.
    + exfalso. apply search_from_none_inv in Hs.
      rewrite Forall_lookup in Hs. destruct (Hs _ _ Hj) as (a'' & Ha'' & _).
      congruence.
    + by destruct (search_from_raise_inv _ _ _ _ Hs) as (-> & _).
Qed.

(** ** Remote snapshots, once more *)

Lemma search_from_no_raise ds a k :
  Forall (λ d : gmap string pyval, is_Some (d !! "ipAddress")) ds →
  ∃ r, search_from ds a k = Return r.
Proof.
  intros Hall. revert k. induction Hall as [|d ds [a' Ha'] _ IH]; intros k.
  - by eexists.
  - simpl. unfold dict_getitem. rewrite Ha', bind_Return.
    destruct (py_eq a' a); [by eexists|apply IH].
Qed.

Lemma search_from_app_some ds more a k i :
  search_from ds a k = Return (Some i) →
  search_from (ds ++ more) a k = Return (Some i).
Proof. intros Hs. by rewrite search_from_app, Hs. Qed.

Lemma merge_finds incoming ds x a :
  Forall (λ d : gmap string pyval, is_Some (d !! "ipAddress")) ds →
  Forall (λ d, ∃ a, d !! "ipAddress" = Some a ∧ self_equal a) incoming →
  x ∈ incoming → x !! "ipAddress" = Some a →
  ∃ i, search_from (merge incoming ds) a 0 = Return (Some i).
Proof.
  intros Hds Hinc. revert ds Hds.
  induction Hinc as [|y rest (ay & Hay & Hrefl) _ IH]; intros ds Hds Hx Ha.
  - by apply elem_of_nil in Hx.
  - rewrite merge_cons, lookup_insert_ne, Hay by done.
    destruct (search_from_no_raise ds ay 0 Hds) as [r Hr]. rewrite Hr.
    set (y' := <["connected" := PBool true]> y).
    assert (∃ ds1 j, match r with Some _ => merge rest ds
                             | None => merge rest (ds ++ [y']) end
                     = merge rest ds1
                     ∧ Forall (λ d : gmap string pyval, is_Some (d !! "ipAddress")) ds1
                     ∧ search_from ds1 ay 0 = Return (Some j))
      as (ds1 & j & -> & Hds1 & Hj).
    { destruct r as [j|].
      - by exists ds, j.
      - exists (ds ++ [y'])%list, (0 + length ds)%nat. split_and!; [done| |].
        + apply Forall_app. split; [done|]. constructor; [|done].
          exists ay. unfold y'. by rewrite lookup_insert_ne.
        + rewrite search_from_app, Hr. simpl. unfold dict_getitem, y'.
          rewrite lookup_insert_ne, Hay, bind_Return by done.
          by rewrite Hrefl. }
    apply elem_of_cons in Hx as [->|Hx].
    + assert (a = ay) as -> by congruence.
      destruct (merge_prefix rest ds1) as [new ->].
      exists j. by apply search_from_app_some.
    + by apply IH.
Qed.

(** X8. After a snapshot was merged, every device it named can be looked up
    by its address: the registry holds a device with that address, the
    one that was there or the one the merge added. *)
Theorem snapshot_devices_are_found incoming self x a :
  Forall (λ d : gmap string pyval, is_Some (d !! "ipAddress")) (devices self) →
  Forall (λ d, ∃ a, d !! "ipAddress" = Some a ∧ self_equal a) incoming →
  x ∈ incoming → x !! "ipAddress" = Some a →
  let self' := (receive_connected_iot_devices incoming self).2 in
  ∃ i d, (search_devices a self').1 = Return (Some i)
         ∧ devices self' !! i = Some d ∧ matches a d.
Proof.
  intros Hds Hinc Hx Ha self'. subst self'.
  rewrite run_search_devices, receive_connected_iot_devices_devices. cbn [fst].
  destruct (merge_finds incoming (devices self) x a) as [i Hi]; [done..|].
  destruct (search_from_some_inv _ _ _ _ Hi) as (d & Hd & Hm & _).
  rewrite Nat.sub_0_r in Hd. by exists i, d.
Qed.

Lemma merge_new_from_incoming incoming ds new :
  merge incoming ds = (ds ++ new)%list →
  Forall (λ n, ∃ x, x ∈ incoming ∧ n = <["connected" := PBool true]> x) new.
Proof.
  revert ds new. induction incoming as [|x rest IH]; intros ds new Hm.
  - simpl in Hm. apply (f_equal length) in Hm.
    rewrite length_app in Hm. destruct new; [done|simpl in Hm; lia].
  - assert (Hnil : ds = (ds ++ new)%list → new = []).
    { intros Heq. apply (f_equal length) in Heq. rewrite length_app in Heq.
      destruct new; [done|simpl in Heq; lia]. }
    rewrite merge_cons in Hm.
    destruct (_ !! "ipAddress") as [a|]; [|by rewrite (Hnil Hm)].
    destruct (search_from ds a 0) as [[i|]|e]; [| |by rewrite (Hnil Hm)].
    + eapply Forall_impl; [by eapply IH|].
      intros n (y & Hy & ->). exists y. split; [by right|done].
    + destruct (merge_prefix rest (ds ++ [<["connected":=PBool true]> x])) as [new' Hnew'].
      rewrite Hnew', <- app_assoc in Hm. apply app_inv_head in Hm as <-.
      constructor.
      * exists x. split; [by left|done].
      * eapply Forall_impl; [by eapply IH|].
        intros n (y & Hy & ->). exists y. split; [by right|done].
Qed.

(** X9. A snapshot only adds to the registry: the devices that were there
    stay as they are, in place; each device added is a device of the
    snapshot with [connected] set to true; nothing is sent and the
    channel flag is untouched. *)
Theorem snapshot_only_appends incoming self :
  let self' := (receive_connected_iot_devices incoming self).2 in
  ∃ new,
    devices self' = (devices self ++ new)%list
    ∧ Forall (λ n, ∃ x, x ∈ incoming ∧ n = <["connected" := PBool true]> x) new
    ∧ sio self' = sio self
    ∧ connected self' = connected self.
Proof.
  intros self'. subst self'.
  destruct (merge_prefix incoming (devices self)) as [new Hnew].
  exists new. rewrite receive_connected_iot_devices_devices.
  split_and!; [done|by eapply merge_new_from_incoming| |].
  - unfold receive_connected_iot_devices. rewrite run_bind.
    pose proof (merge_loop incoming self) as Hloop.
    destruct (for_each incoming _ self) as [[[]|e] self1]; simpl in Hloop;
      subst self1; [by rewrite populate_table_sio|done].
  - unfold receive_connected_iot_devices. rewrite run_bind.
    pose proof (merge_loop incoming self) as Hloop.
    destruct (for_each incoming _ self) as [[[]|e] self1]; simpl in Hloop;
      subst self1; [by rewrite populate_table_connected|done].
Qed.

Lemma run_for_each_app {A} (xs ys : list A) body self :
  for_each (xs ++ ys) body self =
  match for_each xs body self with
  | (Return _, self') => for_each ys body self'
  | (Raise e, self') => (Raise e, self')
  end.
Proof.
  revert self. induction xs as [|x xs IH]; intros self; [done|].
  simpl. rewrite !run_bind. destruct (body x self) as [[[]|e] self1]; [|done].
  apply IH.
Qed.

Lemma merge_app_addressed before rest ds :
  Forall (λ d : gmap string pyval, is_Some (d !! "ipAddress")) ds →
  Forall (λ d : gmap string pyval, is_Some (d !! "ipAddress")) before →
  merge (before ++ rest) ds = merge rest (merge before ds)
  ∧ Forall (λ d : gmap string pyval, is_Some (d !! "ipAddress")) (merge before ds).
Proof.
  intros Hds Hb. revert ds Hds.
  induction Hb as [|x before [a Ha] _ IH]; intros ds Hds; [done|].
  simpl app. rewrite !merge_cons, lookup_insert_ne, Ha by done.
  destruct (search_from_no_raise ds a 0 Hds) as [[i|] ->]; [by apply IH|].
  apply IH, Forall_app. split; [done|]. constructor; [|done].
  exists a. by rewrite lookup_insert_ne.
Qed.

Lemma merge_loop_returns incoming self :
  Forall (λ d : gmap string pyval, is_Some (d !! "ipAddress")) (devices self) →
  Forall (λ d : gmap string pyval, is_Some (d !! "ipAddress")) incoming →
  for_each incoming (λ device,
     let device := <["connected" := PBool true]> device in
     ip_address ← lift (dict_getitem device "ipAddress");
     r ← search_devices ip_address;
     match r with
     | None => modify (set_devices (λ ds, (ds ++ [device])%list))
     | Some _ => skip
     end) self
  = (Return tt, set_devices (λ _, merge incoming (devices self)) self).
Proof.
  intros Hds Hinc. revert self Hds.
  induction Hinc as [|x rest [a Ha] _ IH]; intros self Hds.
  - simpl. by rewrite set_devices_id.
  - rewrite run_for_each_cons. cbv zeta. rewrite run_bind.
    unfold lift at 1, dict_getitem at 1.
    rewrite merge_cons, lookup_insert_ne, Ha by done. cbv iota beta.
    rewrite run_bind, run_search_devices.
    destruct (search_from_no_raise (devices self) a 0 Hds) as [[i|] ->];
      cbv iota beta.
    + unfold skip at 1. cbn [mret M_ret]. by apply IH.
    + change (modify ?f self) with (Return tt, f self). cbv iota beta.
      rewrite IH.
      * by destruct self.
      * simpl. apply Forall_app. split; [done|]. constructor; [|done].
        exists a. by rewrite lookup_insert_ne.
Qed.

(** X10. A device without an address stops the merge of a snapshot: the
    devices before it are merged, those after it are not looked at, the
    handler raises [KeyError] and the table is not refreshed. *)
Theorem snapshot_stops_at_device_without_address before bad rest self :
  Forall (λ d : gmap string pyval, is_Some (d !! "ipAddress")) (devices self) →
  Forall (λ d : gmap string pyval, is_Some (d !! "ipAddress")) before →
  bad !! "ipAddress" = None →
  receive_connected_iot_devices (before ++ bad :: rest) self
  = (Raise (KeyError "ipAddress"),
     set_devices (λ _, merge before (devices self)) self).
Proof.
  intros Hds Hb Hbad. unfold receive_connected_iot_devices.
  rewrite run_bind, run_for_each_app, merge_loop_returns by done.
  rewrite run_for_each_cons. cbv zeta. rewrite run_bind.
  unfold lift at 1, dict_getitem at 1.
  by rewrite lookup_insert_ne, Hbad by done.
Qed.

(** ** Remote updates that lack a field *)

(** X11. An update without an address, or for a known device but without a
    state, raises [KeyError] and changes nothing.  An update for a known
    device that has a state and no status overwrites the state and then
    raises: the status and the [connected] field are left as they were
    and the table is not refreshed. *)
Theorem remote_update_missing_field update self :
  (update !! "ipAddress" = None →
   receive_iot_device_update update self = (Raise (KeyError "ipAddress"), self))
  ∧ (∀ a i d,
       update !! "ipAddress" = Some a →
       devices self !! i = Some d → matches a d →
       (∀ j dj, (j < i)%nat → devices self !! j = Some dj → differs a dj) →
       (update !! "state" = None →
        receive_iot_device_update update self = (Raise (KeyError "state"), self))
       ∧ (∀ state,
            update !! "state" = Some state → update !! "status" = None →
            receive_iot_device_update update self
            = (Raise (KeyError "status"),
               set_devices (λ ds, <[i := <["state" := state]> d]> ds) self))).
Proof.
  split.
  - intros Hnone. unfold receive_iot_device_update. rewrite run_bind.
    unfold lift at 1, dict_getitem at 1. by rewrite Hnone.
  - intros a i d Ha Hd Hm Hfirst.
    assert (Hstep :
      receive_iot_device_update update self
      = ((state ← lift (dict_getitem update "state");
          device_setitem i "state" state ;;
          status ← lift (dict_getitem update "status");
          device_setitem i "status" status ;;
          device_setitem i "connected" (PBool true)) ;; populate_table) self).
    { unfold receive_iot_device_update. rewrite run_bind.
      unfold lift at 1, dict_getitem at 1. rewrite Ha. cbv iota beta.
      rewrite run_bind, run_search_devices, (search_from_found _ _ i d 0) by done.
      cbv iota beta. rewrite Nat.add_0_l.
      destruct Hm as (a' & Ha' & _).
      by rewrite run_bind, (found_device _ i d "ipAddress" a') by done. }
    rewrite Hstep. split.
    + intros Hnone. rewrite run_bind, run_bind.
      unfold lift at 1, dict_getitem at 1. by rewrite Hnone.
    + intros state Hstate Hnone. rewrite run_bind, run_bind.
      unfold lift at 1, dict_getitem at 1. rewrite Hstate. cbv iota beta.
      rewrite run_bind, run_device_setitem. cbv iota beta.
      rewrite run_bind.
      unfold lift at 1, dict_getitem at 1. rewrite Hnone. cbv iota beta.
      unfold set_devices. by rewrite (alter_insert_device _ i d "state" state Hd).
Qed.

(** ** The display refresh *)

Lemma run_device_getitem i key d self :
  devices self !! i = Some d →
  device_getitem i key self = (dict_getitem d key, self).
Proof.
  intros Hd. unfold device_getitem. rewrite run_bind.
  change (gets devices self) with (Return (devices self), self).
  cbv iota beta. by rewrite Hd.
Qed.

Lemma rowCount_put_item r c s t : rowCount (put_item r c s t) = rowCount t.
Proof. unfold put_item. by destruct (_ && _). Qed.

Lemma cells_put_item r c s t :
  (r < rowCount t)%nat → (c < 7)%nat →
  cells (put_item r c s t) = <[(r, c) := Cell s true]> (cells t).
Proof.
  intros Hr Hc. unfold put_item, columnCount.
  by rewrite !bool_decide_eq_true_2 by done.
Qed.

Ltac step_get Hd key :=
  rewrite run_bind;
  match type of Hd with
  | _ !! ?r = Some ?d => rewrite (run_device_getitem r key d) by exact Hd
  end;
  let v := fresh "v" in
  destruct (dict_getitem _ key) as [v|]; rewrite ?bind_Return, ?bind_Raise;
  cbv iota beta; [|by intros [= <-]].

Ltac step_item :=
  rewrite run_bind; unfold lift at 1;
  let s := fresh "s" in
  destruct (new_item _) as [s|]; rewrite ?bind_Return, ?bind_Raise;
  cbv iota beta; [|by intros [= <-]].

Ltac step_set Hb :=
  rewrite run_bind, run_setItem_busy by exact Hb; cbv iota beta.

Ltac step_row Hb Hd :=
  unfold populate_row, row_texts;
  step_get Hd "connected"; step_set Hb;
  step_get Hd "ipAddress"; step_item; step_set Hb;
  step_get Hd "name"; step_item; step_set Hb;
  step_get Hd "description"; step_item; step_set Hb;
  step_get Hd "state"; step_set Hb;
  step_get Hd "status"; step_item; step_set Hb;
  step_get Hd "faultStatus"; step_item;
  rewrite run_setItem_busy by exact Hb.

(** One row of the first loop, inside the guarded region: when the seven
    texts exist the row shows them, *)
Lemma run_populate_row depth r d texts self :
  internal_change self = true →
  devices self !! r = Some d →
  row_texts d = Return texts →
  populate_row (handle_cell_change_at (S depth)) r self
  = (Return tt, set_table (show_row r texts) self).
Proof.
  intros Hb Hd. step_row Hb Hd.
  intros [= <-]. clear Hb Hd. destruct self. unfold show_row, set_table.
  cbv [devices internal_change table sio connected
       zip fold_left seq zip_with fst snd].
  reflexivity.
Qed.

(** and when one is missing the loop raises what the missing one raises. *)
Lemma run_populate_row_raise depth r d e self :
  internal_change self = true →
  devices self !! r = Some d →
  row_texts d = Raise e →
  (populate_row (handle_cell_change_at (S depth)) r self).1 = Raise e.
Proof. intros Hb Hd. step_row Hb Hd. discriminate. Qed.

Lemma row_texts_length d texts :
  row_texts d = Return texts → length texts = 7%nat.
Proof.
  unfold row_texts.
  repeat (match goal with |- ?x ≫= _ = _ → _ => destruct x end;
          outcome; [|done]).
  by intros [= <-].
Qed.

Lemma rowCount_show_row r texts t : rowCount (show_row r texts t) = rowCount t.
Proof.
  unfold show_row. generalize (zip (seq 0 7) texts). intros l. revert t.
  induction l as [|[c s] l IH]; intros t; simpl; [done|].
  by rewrite IH, rowCount_put_item.
Qed.

Lemma cells_show_row r texts t r' c :
  (r < rowCount t)%nat → length texts = 7%nat →
  cells (show_row r texts t) !! (r', c) =
  if bool_decide (r' = r ∧ (c < 7)%nat)
  then (λ s, Cell s true) <$> texts !! c
  else cells t !! (r', c).
Proof.
  intros Hr Hlen.
  destruct texts as [|s0 [|s1 [|s2 [|s3 [|s4 [|s5 [|s6 [|]]]]]]]]; try done.
  unfold show_row. cbn [zip zip_with seq fold_left fst snd].
  rewrite !cells_put_item by (rewrite ?rowCount_put_item; lia).
  case_bool_decide as Hc.
  - destruct Hc as [-> Hc].
    do 7 (destruct c as [|c];
          [by rewrite ?lookup_insert_ne, ?lookup_insert_eq by (intros [=])|]).
    lia.
  - rewrite !lookup_insert_ne; [done|..]; intros [= -> <-]; apply Hc;
      (split; [done|lia]).
Qed.

(** A loop over [range(a, a + n)] that keeps an invariant indexed by the
    number of rounds. *)
Lemma for_each_seq_inv (Q : nat → SpoofApp → Prop) body a n self :
  Q a self →
  (∀ k s, (a ≤ k < a + n)%nat → Q k s →
     (body k s).1 = Return tt ∧ Q (S k) (body k s).2) →
  (for_each (seq a n) body self).1 = Return tt
  ∧ Q (a + n)%nat (for_each (seq a n) body self).2.
Proof.
  revert a self. induction n as [|n IH]; intros a self HQ Hstep.
  - simpl. by rewrite Nat.add_0_r.
  - simpl. rewrite run_bind. destruct (Hstep a self ltac:(lia) HQ) as [H1 H2].
    destruct (body a self) as [[[]|e] s1]; simpl in *; [|done].
    replace (a + S n)%nat with (S a + n)%nat by lia. apply IH; [done|].
    intros k s Hk. apply Hstep. lia.
Qed.

(** The first loop over the rows [0 .. n-1], inside the guarded region. *)
Lemma run_populate_rows depth n self :
  internal_change self = true →
  (n ≤ rowCount (table self))%nat →
  (∀ i, (i < n)%nat → ∃ d, devices self !! i = Some d ∧ displayable d) →
  let r := for_each (seq 0 n)
             (populate_row (handle_cell_change_at (S depth))) self in
  r.1 = Return tt
  ∧ busy (backend self) r.2
  ∧ rowCount (table r.2) = rowCount (table self)
  ∧ ∀ i c, cells (table r.2) !! (i, c) =
           if bool_decide ((i < n)%nat ∧ (c < 7)%nat)
           then (λ s, Cell s true) <$> cell_texts (devices self) i c
           else cells (table self) !! (i, c).
Proof.
  intros Hb Hn Hds.
  pose (Q := λ (k : nat) (s : SpoofApp),
    busy (backend self) s
    ∧ rowCount (table s) = rowCount (table self)
    ∧ ∀ i c, cells (table s) !! (i, c) =
             if bool_decide ((i < k)%nat ∧ (c < 7)%nat)
             then (λ s, Cell s true) <$> cell_texts (devices self) i c
             else cells (table self) !! (i, c)).
  apply (for_each_seq_inv Q).
  - split_and!; [done..|]. intros i c.
    rewrite bool_decide_eq_false_2; [done|lia].
  - intros k s Hk (Hbusy & Hrows & Hcells).
    destruct (Hds k ltac:(lia)) as (d & Hd & texts & Htexts).
    assert (devices s = devices self) as Hdevs
      by (destruct Hbusy as [_ Hbk]; by injection Hbk).
    rewrite (run_populate_row depth k d texts);
      [|by destruct Hbusy|by rewrite Hdevs|done].
    cbn [fst snd]. split; [done|]. split_and!.
    + by apply busy_set_table.
    + cbn [table set_table]. by rewrite rowCount_show_row.
    + intros i c. cbn [table set_table].
      rewrite cells_show_row by (eauto using row_texts_length; lia).
      rewrite Hcells. unfold cell_texts.
      repeat case_bool_decide; try done; try lia;
        destruct_and?; subst; rewrite ?Hd, ?Htexts; try done;
        exfalso; destruct (decide (i = k)); naive_solver lia.
Qed.

Lemma lock_cell_cells r c t :
  cells (lock_cell r c t) =
  match cells t !! (r, c) with
  | Some it => <[(r, c) := locked it]> (cells t)
  | None => cells t
  end.
Proof.
  unfold lock_cell. cbn [cells]. apply map_eq. intros k.
  destruct (decide (k = (r, c))) as [->|Hk].
  - rewrite lookup_alter_eq. destruct (cells t !! (r, c)) as [it|] eqn:Hit.
    + by rewrite lookup_insert_eq.
    + by rewrite Hit.
  - rewrite lookup_alter_ne by done. destruct (cells t !! (r, c)); [|done].
    by rewrite lookup_insert_ne.
Qed.

(** One item of the second loop, inside the guarded region. *)
Lemma run_lock_cell depth r c self :
  internal_change self = true →
  (it ← item r c;
   match it with
   | Some it => setFlags_not_editable (handle_cell_change_at (S depth)) r c it
   | None => skip
   end) self
  = (Return tt, set_table (lock_cell r c) self).
Proof.
  intros Hb. rewrite run_bind. unfold item, gets. cbv beta iota.
  pose proof (lock_cell_cells r c (table self)) as Hcells.
  destruct (cells (table self) !! (r, c)) as [it|].
  - unfold setFlags_not_editable. rewrite run_bind. unfold modify. cbv beta iota.
    rewrite handle_cell_change_busy by done.
    f_equal. unfold set_table. cbn [devices internal_change table sio connected].
    f_equal. unfold lock_cell in *. cbn [cells] in Hcells. by rewrite Hcells.
  - f_equal. destruct self as [ds ic [n cs] calls conn].
    unfold set_table, lock_cell in *. cbn in *. by rewrite Hcells.
Qed.

Lemma run_lock_row depth r self :
  internal_change self = true →
  lock_row (handle_cell_change_at (S depth)) r self
  = (Return tt,
     set_table (λ t, lock_cell r 3 (lock_cell r 2 (lock_cell r 1 (lock_cell r 0 t))))
               self).
Proof.
  intros Hb. unfold lock_row. cbn [for_each].
  do 4 (rewrite run_bind, run_lock_cell by exact Hb; cbv beta iota).
  clear Hb. destruct self. unfold set_table.
  cbv [devices internal_change table sio connected]. reflexivity.
Qed.

Lemma cells_lock_row r t r' c :
  cells (lock_cell r 3 (lock_cell r 2 (lock_cell r 1 (lock_cell r 0 t))))
    !! (r', c) =
  if bool_decide (r' = r ∧ (c < 4)%nat) then locked <$> cells t !! (r', c)
  else cells t !! (r', c).
Proof.
  unfold lock_cell. cbn [cells]. case_bool_decide as Hc.
  - destruct Hc as [-> Hc].
    do 4 (destruct c as [|c];
          [by repeat (rewrite lookup_alter_eq
                      || rewrite lookup_alter_ne by (intros [=]))|]).
    lia.
  - rewrite !lookup_alter_ne; [done|..]; intros [= -> <-]; apply Hc;
      (split; [done|lia]).
Qed.

(** The second loop over the rows [0 .. n-1]. *)
Lemma run_lock_rows depth n self :
  internal_change self = true →
  let r := for_each (seq 0 n)
             (lock_row (handle_cell_change_at (S depth))) self in
  r.1 = Return tt
  ∧ busy (backend self) r.2
  ∧ rowCount (table r.2) = rowCount (table self)
  ∧ ∀ i c, cells (table r.2) !! (i, c) =
           if bool_decide ((i < n)%nat ∧ (c < 4)%nat)
           then locked <$> cells (table self) !! (i, c)
           else cells (table self) !! (i, c).
Proof.
  intros Hb.
  pose (Q := λ (k : nat) (s : SpoofApp),
    busy (backend self) s
    ∧ rowCount (table s) = rowCount (table self)
    ∧ ∀ i c, cells (table s) !! (i, c) =
             if bool_decide ((i < k)%nat ∧ (c < 4)%nat)
             then locked <$> cells (table self) !! (i, c)
             else cells (table self) !! (i, c)).
  apply (for_each_seq_inv Q).
  - split_and!; [done..|]. intros i c.
    rewrite bool_decide_eq_false_2; [done|lia].
  - intros k s Hk (Hbusy & Hrows & Hcells).
    rewrite run_lock_row by (by destruct Hbusy).
    cbn [fst snd]. split; [done|]. split_and!.
    + by apply busy_set_table.
    + done.
    + intros i c. cbn [table set_table].
      rewrite cells_lock_row, !Hcells.
      repeat case_bool_decide; try done; try lia;
        exfalso; destruct (decide (i = k)); naive_solver lia.
Qed.

Lemma run_modify f self : modify f self = (Return tt, f self).
Proof. reflexivity. Qed.

Lemma run_gets {A} (f : SpoofApp → A) self : gets f self = (Return (f self), self).
Proof. reflexivity. Qed.

(** The refresh up to the first loop: the guard is set, the table has one
    row for each device and no item outside these rows. *)
Lemma run_setRowCount self :
  let s := (setRowCount (length (devices self)) (set_internal_change true self)).2 in
  internal_change s = true
  ∧ backend s = backend self
  ∧ rowCount (table s) = length (devices self)
  ∧ ∀ i c, (length (devices self) ≤ i)%nat → cells (table s) !! (i, c) = None.
Proof.
  cbn. split_and!; [done..|]. intros i c Hi.
  apply map_lookup_filter_None. right. intros it _. cbn. lia.
Qed.

Lemma run_populate_table self :
  Forall displayable (devices self) →
  ∃ s, populate_table self = (Return tt, set_internal_change false s)
       ∧ backend s = backend self
       ∧ rowCount (table s) = length (devices self)
       ∧ ∀ i c, (c < columnCount)%nat →
                cells (table s) !! (i, c) = display (devices self) i c.
Proof.
  intros Hds.
  unfold populate_table, handle_cell_change, populate_table_with.
  rewrite run_bind, run_modify. cbv beta iota.
  rewrite run_bind, run_gets. cbv beta iota.
  rewrite run_bind.
  change (devices (set_internal_change true self)) with (devices self).
  destruct (run_setRowCount self) as (Hb2 & Hk2 & Hr2 & Hc2).
  unfold setRowCount in *. rewrite run_modify in *.
  cbn [snd] in Hb2, Hk2, Hr2, Hc2. cbv beta iota.
  set (s2 := set_table _ _) in *.
  assert (devices s2 = devices self) as Hd2 by reflexivity.
  rewrite run_bind.
  destruct (run_populate_rows 1 (length (devices self)) s2)
    as (H3 & Hb3 & Hr3 & Hc3); [done|lia| |].
  { intros i Hi. rewrite Hd2.
    destruct (lookup_lt_is_Some_2 (devices self) i Hi) as [d Hd].
    exists d. split; [done|].
    eapply Forall_forall; [exact Hds|]. by eapply list_elem_of_lookup_2. }
  destruct (for_each _ _ s2) as [[[]|e] s3]; [|done].
  cbn [fst snd] in Hb3, Hr3, Hc3. clear H3.
  rewrite run_bind, run_gets. cbv beta iota. rewrite Hr3, Hr2.
  rewrite run_bind.
  destruct (run_lock_rows 1 (length (devices self)) s3)
    as (H4 & Hb4 & Hr4 & Hc4); [by destruct Hb3|].
  destruct (for_each _ _ s3) as [[[]|e] s4]; [|done].
  cbn [fst snd] in Hb4, Hr4, Hc4. clear H4.
  rewrite run_modify. exists s4. split; [done|]. split_and!.
  - destruct Hb4 as [_ ->]. destruct Hb3 as [_ ->]. done.
  - by rewrite Hr4, Hr3.
  - intros i c Hc. unfold columnCount in Hc.
    rewrite Hc4, !Hc3, Hd2. unfold display.
    destruct (decide (i < length (devices self))%nat) as [Hi|Hi].
    + rewrite (bool_decide_eq_true_2 (_ ∧ (c < 7)%nat)) by done.
      destruct (cell_texts (devices self) i c) as [text|]; cbn [fmap option_fmap option_map];
        repeat case_bool_decide; try done; try lia; naive_solver lia.
    + rewrite (bool_decide_eq_false_2 (_ ∧ (c < 7)%nat)) by lia.
      rewrite (bool_decide_eq_false_2 (_ ∧ (c < 4)%nat)) by lia.
      rewrite Hc2 by lia. unfold cell_texts.
      by rewrite lookup_ge_None_2 by lia.
Qed.


Lemma run_populate_table_raise before d rest e self :
  devices self = (before ++ d :: rest)%list →
  Forall displayable before →
  row_texts d = Raise e →
  ∃ s, populate_table self = (Raise e, s) ∧ internal_change s = true.
Proof.
  intros Hdev Hbefore Hd.
  unfold populate_table, handle_cell_change, populate_table_with.
  rewrite run_bind, run_modify. cbv beta iota.
  rewrite run_bind, run_gets. cbv beta iota.
  rewrite run_bind.
  change (devices (set_internal_change true self)) with (devices self).
  destruct (run_setRowCount self) as (Hb2 & Hk2 & Hr2 & Hc2).
  unfold setRowCount in *. rewrite run_modify in *.
  cbn [snd] in Hb2, Hk2, Hr2, Hc2. cbv beta iota.
  set (s2 := set_table _ _) in *.
  assert (devices s2 = devices self) as Hd2 by reflexivity.
  rewrite run_bind.
  assert (length (devices self) = length before + S (length rest))%nat
    as Hlen by (by rewrite Hdev, length_app).
  rewrite Hlen, seq_app, run_for_each_app. cbn [seq Nat.add].
  destruct (run_populate_rows 1 (length before) s2)
    as (H3 & Hb3 & Hr3 & Hc3); [done|lia| |].
  { intros i Hi. rewrite Hd2, Hdev, lookup_app_l by done.
    destruct (lookup_lt_is_Some_2 before i Hi) as [d' Hd'].
    exists d'. split; [done|].
    eapply Forall_forall; [exact Hbefore|]. by eapply list_elem_of_lookup_2. }
  destruct (for_each _ _ s2) as [[[]|e'] s3]; [|done].
  cbn [fst snd] in Hb3. clear H3 Hr3 Hc3.
  rewrite run_for_each_cons.
  assert (devices s3 !! length before = Some d) as Hd3.
  { destruct Hb3 as [_ Hk3]. injection Hk3 as Hk3 _ _. rewrite Hk3.
    change (devices s2) with (devices self).
    by rewrite Hdev, list_lookup_middle. }
  pose proof (run_populate_row_raise 1 _ _ _ s3 (proj1 Hb3) Hd3 Hd) as Hraise.
  pose proof (populate_row_busy 1 _ (length before) s3 Hb3) as Hb4.
  destruct (populate_row _ _ s3) as [[[]|e'] s4]; [done|].
  cbn [fst snd] in Hraise, Hb4. injection Hraise as ->.
  exists s4. split; [done|]. by destruct Hb4.
Qed.

(** X13. A refresh stops at the first device that lacks a field or holds
    a value the table does not take.  The exception leaves
    [populate_table] with the guard still set: registry and channel are as
    before, and from then on the edit handler ignores every edit. *)
Theorem refresh_failure_keeps_guard before d rest e self :
  devices self = (before ++ d :: rest)%list →
  Forall displayable before →
  row_texts d = Raise e →
  let r := populate_table self in
  r.1 = Raise e
  ∧ backend r.2 = backend self
  ∧ internal_change r.2 = true
  ∧ ∀ it, handle_cell_change it r.2 = (Return tt, r.2).
Proof.
  intros Hdev Hbefore Hd. cbv zeta.
  destruct (run_populate_table_raise before d rest e self)
    as (s & Hrun & Hs); [done..|].
  rewrite Hrun. cbn [fst snd]. split_and!; [done| |done|].
  - by rewrite <- (populate_table_backend self), Hrun.
  - intros it. by apply handle_cell_change_busy.
Qed.

(** X14. A snapshot that brings a new device the table cannot show (one
    without a name, say): the device is added to the registry, the refresh
    that follows raises, and the guard stays set, so the edit handler
    ignores every edit from then on. *)
Theorem snapshot_with_incomplete_device incoming self before d rest e :
  Forall (λ d : gmap string pyval, is_Some (d !! "ipAddress")) (devices self) →
  Forall (λ d : gmap string pyval, is_Some (d !! "ipAddress")) incoming →
  merge incoming (devices self) = (before ++ d :: rest)%list →
  Forall displayable before →
  row_texts d = Raise e →
  let r := receive_connected_iot_devices incoming self in
  r.1 = Raise e
  ∧ devices r.2 = merge incoming (devices self)
  ∧ sio r.2 = sio self
  ∧ internal_change r.2 = true
  ∧ ∀ it, handle_cell_change it r.2 = (Return tt, r.2).
Proof.
  intros Hds Hin Hmerge Hbefore Hd. cbv zeta.
  unfold receive_connected_iot_devices.
  rewrite run_bind, merge_loop_returns by done. cbv beta iota.
  set (s1 := set_devices _ self).
  destruct (run_populate_table_raise before d rest e s1)
    as (s & Hrun & Hs); [done..|].
  pose proof (populate_table_backend s1) as Hk. rewrite Hrun in Hk.
  rewrite Hrun. cbn [fst snd] in *. injection Hk as Hdev Hsio _.
  split_and!; [done..|].
  intros it. by apply handle_cell_change_busy.
Qed.

(** ** What no event does *)

Lemma evolves_refl d : evolves d d.
Proof. split; [done|by left]. Qed.

Lemma evolves_trans d1 d2 d3 : evolves d1 d2 → evolves d2 d3 → evolves d1 d3.
Proof.
  intros [H1 H1c] [H2 H2c]. split.
  - intros key Hkey. by rewrite H2, H1.
  - destruct H2c as [->|H2c]; [done|by right].
Qed.

Lemma evolves_insert d key x :
  key ∈ assigned → (key = "connected" → x = PBool true) →
  evolves d (<[key := x]> d).
Proof.
  intros Hkey Hx. split.
  - intros key' Hkey'. rewrite lookup_insert_ne; [done|]. by intros ->.
  - destruct (decide (key = "connected")) as [->|Hne].
    + right. by rewrite Hx, lookup_insert_eq.
    + left. by rewrite lookup_insert_ne.
Qed.

Lemma grows_refl ds : grows ds ds.
Proof. intros i d Hd. exists d. split; [done|apply evolves_refl]. Qed.

Lemma grows_trans ds1 ds2 ds3 : grows ds1 ds2 → grows ds2 ds3 → grows ds1 ds3.
Proof.
  intros H12 H23 i d1 Hd1.
  destruct (H12 _ _ Hd1) as (d2 & Hd2 & He12).
  destruct (H23 _ _ Hd2) as (d3 & Hd3 & He23).
  exists d3. split; [done|by eapply evolves_trans].
Qed.

Lemma grows_app ds new : grows ds (ds ++ new).
Proof.
  intros i d Hd. exists d. split; [|apply evolves_refl].
  by apply lookup_app_l_Some.
Qed.

Lemma tracks_refl ds : tracks ds ds.
Proof. split; [done|apply grows_refl]. Qed.

Lemma tracks_alter ds0 ds i key x :
  key ∈ assigned → (key = "connected" → x = PBool true) →
  tracks ds0 ds → tracks ds0 (alter (<[key := x]>) i ds).
Proof.
  intros Hkey Hx [Hlen Hg]. split; [by rewrite length_alter|].
  intros j d0 Hd0. destruct (Hg _ _ Hd0) as (d & Hd & He).
  destruct (decide (i = j)) as [->|Hne].
  - exists (<[key := x]> d). split.
    + by rewrite list_lookup_alter_eq, Hd.
    + eapply evolves_trans; [done|by apply evolves_insert].
  - exists d. split; [|done]. by rewrite list_lookup_alter_ne.
Qed.

(** Addresses stay pairwise distinct along [tracks]. *)
Lemma tracks_unique ds ds' :
  tracks ds ds' → unique_addresses ds → unique_addresses ds'.
Proof.
  intros [Hlen Hg] Hu i j di' dj' ai aj Hij Hi Hj Hai Haj.
  assert (∀ k dk', ds' !! k = Some dk' →
            ∃ dk, ds !! k = Some dk ∧ dk !! "ipAddress" = dk' !! "ipAddress")
    as Hback.
  { intros k dk' Hk.
    destruct (lookup_lt_is_Some_2 ds k) as [dk Hdk].
    { rewrite <- Hlen. by eapply lookup_lt_Some. }
    destruct (Hg _ _ Hdk) as (dk'' & Hdk'' & [Hsame _]).
    assert (dk'' = dk') as -> by congruence.
    exists dk. split; [done|]. symmetry. apply Hsame.
    by apply (bool_decide_unpack _). }
  destruct (Hback _ _ Hi) as (di & Hdi & Hei).
  destruct (Hback _ _ Hj) as (dj & Hdj & Hej).
  apply (Hu i j di dj); [done..| |]; congruence.
Qed.

Section OnDevices.
Context (R : list (gmap string pyval) → Prop).
Context (R_alter : ∀ ds i key x,
  key ∈ assigned → (key = "connected" → x = PBool true) →
  R ds → R (alter (<[key := x]>) i ds)).

Lemma on_devices_internal_change b :
  preserves (on_devices R) (modify (set_internal_change b)).
Proof. by intros self HR. Qed.

Lemma on_devices_table f : preserves (on_devices R) (modify (set_table f)).
Proof. by intros self HR. Qed.

Lemma on_devices_sio f : preserves (on_devices R) (modify (set_sio f)).
Proof. by intros self HR. Qed.

Lemma on_devices_connected b :
  preserves (on_devices R) (modify (set_connected b)).
Proof. by intros self HR. Qed.

Lemma on_devices_emit ev data : preserves (on_devices R) (emit ev data).
Proof. apply on_devices_sio. Qed.

Lemma on_devices_device_setitem i key x :
  key ∈ assigned → (key = "connected" → x = PBool true) →
  preserves (on_devices R) (device_setitem i key x).
Proof. intros Hkey Hx self HR. by apply R_alter. Qed.

Lemma on_devices_search_devices a : preserves (on_devices R) (search_devices a).
Proof. by intros self HR. Qed.

Lemma on_devices_found r : preserves (on_devices R) (found r).
Proof.
  intros self HR. destruct r as [i|]; [|done].
  unfold found. rewrite run_bind, run_gets. by destruct (devices self !! i).
Qed.

Lemma on_devices_item r c : preserves (on_devices R) (item r c).
Proof. by intros self HR. Qed.

Lemma on_devices_send_iot_device_update i :
  preserves (on_devices R) (send_iot_device_update i).
Proof.
  unfold send_iot_device_update.
  apply preserves_bind; [apply device_getitem_preserves|]. intros c.
  destruct (negb _); [apply preserves_skip|].
  apply preserves_bind; [apply preserves_gets|]. intros ds.
  destruct (ds !! i); [apply on_devices_emit|apply preserves_raise].
Qed.

Lemma on_devices_setItem slot r c s :
  (∀ it, preserves (on_devices R) (slot it)) →
  preserves (on_devices R) (setItem slot r c s).
Proof.
  intros Hslot. unfold setItem.
  apply preserves_bind; [apply preserves_gets|]. intros t.
  destruct (_ && _); [|apply preserves_skip].
  apply preserves_bind; [apply on_devices_table|]. intros _. apply Hslot.
Qed.

Lemma on_devices_populate_table : preserves (on_devices R) populate_table.
Proof. intros self HR. unfold on_devices. by rewrite populate_table_devices. Qed.

Lemma on_devices_handle_cell_change depth it :
  preserves (on_devices R) (handle_cell_change_at depth it).
Proof.
  revert it. induction depth as [|depth IH]; intros it; [apply preserves_raise|].
  rewrite handle_cell_change_at_S. unfold handle_cell_change_with.
  pose proof (on_devices_setItem (handle_cell_change_at depth)) as HsetItem.
  assert (∀ i key, key ∈ assigned → key ≠ "connected" → ∀ x,
            preserves (on_devices R) (device_setitem i key x)) as Hassign.
  { intros i key Hkey Hne x. by apply on_devices_device_setitem. }
  assert ("state" ∈ assigned ∧ "status" ∈ assigned ∧ "faultStatus" ∈ assigned)
    as (Hstate & Hstatus & Hfault)
    by (split_and!; by apply (bool_decide_unpack _)).
  repeat first
    [ solve [eauto using preserves_skip, preserves_raise, preserves_lift,
               preserves_gets, device_getitem_preserves,
               on_devices_internal_change, on_devices_search_devices,
               on_devices_found, on_devices_item,
               on_devices_send_iot_device_update]
    | apply Hassign; [done|done]
    | match goal with
      | |- preserves _ (mbind _ _) => apply preserves_bind; [|intros ?]
      | |- preserves _ (match ?x with _ => _ end) => destruct x
      end ].
Qed.

Lemma on_devices_receive_iot_device_update update :
  preserves (on_devices R) (receive_iot_device_update update).
Proof.
  unfold receive_iot_device_update.
  assert ("state" ∈ assigned ∧ "status" ∈ assigned ∧ "connected" ∈ assigned)
    as (Hstate & Hstatus & Hconn)
    by (split_and!; by apply (bool_decide_unpack _)).
  repeat first
    [ solve [eauto using preserves_skip, preserves_raise, preserves_lift,
               preserves_gets, on_devices_search_devices, on_devices_found,
               on_devices_populate_table]
    | apply on_devices_device_setitem; [done|done]
    | match goal with
      | |- preserves _ (mbind _ _) => apply preserves_bind; [|intros ?]
      | |- preserves _ (match ?x with _ => _ end) => destruct x
      end ].
Qed.

Lemma on_devices_connect_handler reachable :
  preserves (on_devices R) (connect_handler reachable).
Proof.
  unfold connect_handler, send_unconnected_iot_devices.
  repeat first
    [ solve [eauto using preserves_skip, preserves_raise, preserves_lift,
               preserves_gets, on_devices_sio, on_devices_connected,
               on_devices_emit]
    | match goal with
      | |- preserves _ (mbind _ _) => apply preserves_bind; [|intros ?]
      | |- preserves _ (match ?x with _ => _ end) => destruct x
      end ].
Qed.

Lemma on_devices_disconnect_handler :
  preserves (on_devices R) disconnect_handler.
Proof.
  unfold disconnect_handler.
  repeat first
    [ solve [eauto using preserves_skip, preserves_gets, on_devices_sio,
               on_devices_connected]
    | match goal with
      | |- preserves _ (mbind _ _) => apply preserves_bind; [|intros ?]
      | |- preserves _ (match ?x with _ => _ end) => destruct x
      end ].
Qed.

End OnDevices.

(** Every handler but the snapshot handler keeps the devices in place. *)
Lemma handler_tracks ev self :
  (∀ incoming, ev ≠ Snapshot incoming) →
  tracks (devices self) (devices (handler ev self).2).
Proof.
  intros Hev.
  assert (preserves (on_devices (tracks (devices self))) (handler ev)) as Hp.
  { destruct ev as [it|incoming|update|reachable|]; simpl.
    - apply on_devices_handle_cell_change. intros. by apply tracks_alter.
    - by destruct (Hev incoming).
    - apply on_devices_receive_iot_device_update. intros. by apply tracks_alter.
    - apply on_devices_connect_handler.
    - apply on_devices_disconnect_handler. }
  apply Hp. apply tracks_refl.
Qed.

Lemma handler_grows ev self : grows (devices self) (devices (handler ev self).2).
Proof.
  destruct ev as [it|incoming|update|reachable|];
    try (apply handler_tracks; by intros).
  simpl. rewrite receive_connected_iot_devices_devices.
  destruct (merge_prefix incoming (devices self)) as [new ->]. apply grows_app.
Qed.

Lemma after_events_grows evs self :
  grows (devices self) (devices (after_events evs self)).
Proof.
  revert self. induction evs as [|ev evs IH]; intros self; [apply grows_refl|].
  simpl. eapply grows_trans; [apply handler_grows|apply IH].
Qed.

(** X15. Whatever events the window handles (edits, snapshots, remote
    updates, connecting, disconnecting, with or without an exception), a
    device of the registry stays in the registry at its place, and all its
    fields other than state, status, faultStatus and connected keep their
    values: no handler removes or reorders devices or touches the address,
    the name or the description. *)
Theorem events_keep_devices evs self i d :
  devices self !! i = Some d →
  ∃ d', devices (after_events evs self) !! i = Some d'
        ∧ ∀ key, key ∉ assigned → d' !! key = d !! key.
Proof.
  intros Hd. destruct (after_events_grows evs self i d Hd) as (d' & Hd' & [He _]).
  by exists d'.
Qed.

(** X16. No handler clears the [connected] field of a device: once it is
    [True] it stays [True] through every sequence of events, also after
    the channel was closed by [disconnect_handler]. *)
Theorem connected_field_never_cleared evs self i d :
  devices self !! i = Some d →
  d !! "connected" = Some (PBool true) →
  ∃ d', devices (after_events evs self) !! i = Some d'
        ∧ d' !! "connected" = Some (PBool true).
Proof.
  intros Hd Hc.
  destruct (after_events_grows evs self i d Hd) as (d' & Hd' & [_ He]).
  exists d'. split; [done|]. destruct He as [He|He]; [by rewrite He|done].
Qed.

(** X17. The addresses of the registry stay pairwise distinct through every
    sequence of events, not only through snapshots. *)
Theorem events_keep_addresses_unique evs self :
  unique_addresses (devices self) →
  unique_addresses (devices (after_events evs self)).
Proof.
  revert self. induction evs as [|ev evs IH]; intros self Hu; [done|].
  simpl. apply IH.
  destruct ev as [it|incoming|update|reachable|];
    try (eapply tracks_unique; [apply handler_tracks; by intros|done]).
  simpl. rewrite receive_connected_iot_devices_devices. by apply merge_unique.
Qed.


(** ** The bulk load, once more *)

Lemma map_outcome_Forall2 {A B} (f : A → outcome B) xs ys :
  map_outcome f xs = Return ys → Forall2 (λ x y, f x = Return y) xs ys.
Proof.
  revert ys. induction xs as [|x xs IH]; intros ys; simpl.
  - intros [= <-]. constructor.
  - destruct (f x) as [y|] eqn:Hy; outcome; [|done].
    destruct (map_outcome f xs) as [ys'|]; outcome; [|done]. intros [= <-].
    constructor; [done|by apply IH].
Qed.

Lemma map_outcome_raise {A B} (f : A → outcome B) before x rest e :
  Forall (λ x, ∃ y, f x = Return y) before →
  f x = Raise e →
  map_outcome f (before ++ x :: rest) = Raise e.
Proof.
  intros Hb Hx. induction Hb as [|x0 before [y Hy] _ IH]; simpl.
  - by rewrite Hx.
  - by rewrite Hy, bind_Return, IH.
Qed.

Lemma read_device_loaded row d : read_device row = Return d → loaded_from row d.
Proof.
  unfold read_device, dict_getitem.
  destruct (row !! "state") as [raw|] eqn:Hraw; outcome; [|done].
  unfold loads. destruct raw as [| | | |text| |]; outcome; try done.
  destruct (json_loads text) as [decoded|] eqn:Hdec; outcome; [|done]. cbv zeta.
  rewrite lookup_insert_ne by done.
  destruct (row !! "connected") as [flag|] eqn:Hflag; outcome; [|done].
  rewrite lookup_insert_ne, lookup_insert_eq by done. outcome.
  destruct (coerce_state decoded) as [state|] eqn:Hco; outcome; [|done].
  intros [= <-]. split_and!.
  - intros key Hs Hc. by rewrite !lookup_insert_ne.
  - exists flag. split; [done|].
    by rewrite lookup_insert_ne, lookup_insert_eq.
  - exists text, decoded, state. split_and!; [done..|].
    by rewrite lookup_insert_eq.
Qed.


Lemma coerce_state_list entries state :
  coerce_state (PList entries) = Return state →
  ∃ entries', state = PList entries'
              ∧ Forall2 (λ e e', coerce_entry e = Return e') entries entries'.
Proof.
  unfold coerce_state. cbn [py_iter]. outcome.
  destruct (map_outcome coerce_entry entries) as [es|] eqn:Hes; outcome; [|done].
  intros [= <-]. exists es. split; [done|by apply map_outcome_Forall2].
Qed.

Lemma coerce_boolean_entry fields v :
  fields !! "datatype" = Some (PStr "boolean") →
  fields !! "value" = Some v →
  coerce_entry (PDict fields)
  = Return (PDict (<["value" := PBool (py_bool v)]> fields)).
Proof.
  intros Hdt Hv. unfold coerce_entry, py_getitem, dict_getitem.
  by rewrite Hdt, bind_Return, Hv.
Qed.

(** X19. The value the bulk load stores in a boolean entry is the
    truthiness of the value in the file, not its meaning: a text is stored
    as [True] unless it is empty. *)
Theorem bulk_load_boolean_is_truthiness rows ds i row text entries j fields v :
  read_unconnected_iot_devices rows = Return ds →
  rows !! i = Some row →
  row !! "state" = Some (PStr text) →
  json_loads text = Some (PList entries) →
  entries !! j = Some (PDict fields) →
  fields !! "datatype" = Some (PStr "boolean") →
  fields !! "value" = Some v →
  ∃ d entries',
    ds !! i = Some d
    ∧ d !! "state" = Some (PList entries')
    ∧ entries' !! j = Some (PDict (<["value" := PBool (py_bool v)]> fields)).
Proof.
  intros Hload Hrow Htext Hdec Hj Hdt Hv.
  apply map_outcome_Forall2 in Hload.
  destruct (Forall2_lookup_l _ _ _ _ _ Hload Hrow) as (d & Hd & Hread).
  apply read_device_loaded in Hread
    as (_ & _ & text' & decoded & state & Htext' & Hdec' & Hco & Hstate).
  assert (text' = text) as -> by congruence.
  assert (decoded = PList entries) as -> by congruence.
  apply coerce_state_list in Hco as (entries' & -> & Hall).
  destruct (Forall2_lookup_l _ _ _ _ _ Hall Hj) as (e' & He' & Hco).
  rewrite (coerce_boolean_entry fields v) in Hco by done.
  injection Hco as <-. by exists d, entries'.
Qed.

(** X20. The bulk load is all or nothing.  The first row that has no state
    column, whose state text is not JSON, or that has no connected column
    makes the whole load raise [KeyError] or [JSONDecodeError]; no device
    is returned. *)
Theorem bulk_load_stops_at_bad_row before row rest :
  Forall (λ r, ∃ d, read_device r = Return d) before →
  let load := read_unconnected_iot_devices (before ++ row :: rest) in
  (row !! "state" = None → load = Raise (KeyError "state"))
  ∧ (∀ text, row !! "state" = Some (PStr text) → json_loads text = None →
             load = Raise JSONDecodeError)
  ∧ (∀ text decoded,
       row !! "state" = Some (PStr text) → json_loads text = Some decoded →
       row !! "connected" = None → load = Raise (KeyError "connected")).
Proof.
  intros Hbefore load. subst load. unfold read_unconnected_iot_devices.
  split_and!.
  - intros Hnone. apply map_outcome_raise; [done|].
    unfold read_device, dict_getitem. by rewrite Hnone.
  - intros text Htext Hdec. apply map_outcome_raise; [done|].
    unfold read_device, dict_getitem. rewrite Htext, bind_Return.
    unfold loads. by rewrite Hdec.
  - intros text decoded Htext Hdec Hnone. apply map_outcome_raise; [done|].
    unfold read_device, dict_getitem. rewrite Htext, bind_Return.
    unfold loads. rewrite Hdec, bind_Return. cbv zeta.
    by rewrite lookup_insert_ne, Hnone by done.
Qed.

(** ** Start-up *)

Lemma loaded_displayable row d : loaded_from row d → csv_row row → displayable d.
Proof.
  intros (Hkeep & (flag & _ & Hflag) & (text & decoded & state & _ & _ & _ & Hstate))
         Hrow.
  assert (∀ key, key ∈ shown_columns → ∃ s, d !! key = Some (PStr s)) as Hd.
  { intros key Hkey. destruct (Hrow key Hkey) as [s Hs]. exists s.
    rewrite Hkeep; [done|intros ->..];
      by apply (bool_decide_unpack (_ ∉ _)) in Hkey. }
  destruct (Hd "ipAddress") as [s1 H1]; [by apply (bool_decide_unpack _)|].
  destruct (Hd "name") as [s2 H2]; [by apply (bool_decide_unpack _)|].
  destruct (Hd "description") as [s3 H3]; [by apply (bool_decide_unpack _)|].
  destruct (Hd "status") as [s5 H5]; [by apply (bool_decide_unpack _)|].
  destruct (Hd "faultStatus") as [s6 H6]; [by apply (bool_decide_unpack _)|].
  eexists. unfold row_texts, dict_getitem.
  rewrite Hflag, H1, H2, H3, Hstate, H5, H6. reflexivity.
Qed.

(** X21. Start-up.  When the file loads and its rows have a text in each
    shown column, [__init__] completes: the registry holds the loaded
    devices, the guard is clear, the channel is closed and unused, and the
    table shows the registry. *)
Theorem start_up_shows_loaded_devices rows ds :
  read_unconnected_iot_devices rows = Return ds →
  Forall csv_row rows →
  ∃ self,
    init rows = Return self
    ∧ devices self = ds
    ∧ internal_change self = false
    ∧ connected self = false
    ∧ sio self = []
    ∧ rowCount (table self) = length ds
    ∧ ∀ i c, (c < columnCount)%nat →
             cells (table self) !! (i, c) = display ds i c.
Proof.
  intros Hload Hrows.
  assert (Forall displayable ds) as Hds.
  { apply map_outcome_Forall2 in Hload.
    apply Forall_forall. intros d Hd.
    apply list_elem_of_lookup_1 in Hd as [i Hd].
    destruct (Forall2_lookup_r _ _ _ _ _ Hload Hd) as (row & Hrow & Hread).
    apply (loaded_displayable row); [by apply read_device_loaded|].
    eapply Forall_forall; [exact Hrows|]. by eapply list_elem_of_lookup_2. }
  unfold init. rewrite Hload, bind_Return.
  destruct (run_populate_table (new_window ds) Hds) as (s & Hrun & Hk & Hr & Hc).
  rewrite run_bind, Hrun, run_modify.
  exists (set_internal_change false (set_internal_change false s)).
  injection Hk as Hdev Hsio Hconn.
  split_and!; [done..|exact Hc].
Qed.


(** [displayable] by running [row_texts]. *)
Lemma displayable_by_run d :
  (match row_texts d with Return _ => true | Raise _ => false end) = true →
  displayable d.
Proof. unfold displayable. destruct (row_texts d) as [texts|]; [by exists texts|done]. Qed.


End Proofs.

(** * Scenarios *)

Section Scenarios.
#[local] Existing Instance reference_runtime.

Lemma started_devices : devices started = [thermostat].
Proof. vm_compute. reflexivity. Qed.

Lemma online_devices : devices online = [thermostat].
Proof. vm_compute. reflexivity. Qed.

Lemma thermostat_unique : unique_addresses [thermostat].
Proof.
  apply (unique_addresses_NoDup _ ["10.0.0.5"]); [reflexivity|].
  apply NoDup_singleton.
Qed.

Lemma thermostat_connected_bool :
  Forall (λ d : gmap string pyval, ∃ b, d !! "connected" = Some (PBool b))
         [thermostat].
Proof. constructor; [by exists false|constructor]. Qed.

(** Scenario A: the handshake announces the thermostat, without its
    [connected] field. *)
Example scenario_A :
  sio online =
  [sio_connect SERVER_URL;
   sio_emit "unconnected_iot_devices" (PList [PDict (delete "connected" thermostat)])].
Proof. vm_compute. reflexivity. Qed.

(** Scenario B: a status that is neither On nor Off is reverted. *)
Example scenario_B :
  let r := edit_cell 0 5 "Standby" started in
  r.1 = Return tt ∧ devices r.2 = [thermostat] ∧ sio r.2 = []
  ∧ cell_text <$> cells (table r.2) !! (0, 5)%nat = Some "Off".
Proof. intros r. split_and!; vm_compute; reflexivity. Qed.

(** Scenario C: a snapshot with an unknown device adds it, connected. *)
Example scenario_C :
  devices (receive_connected_iot_devices [sensor] online).2
  = [thermostat; <["connected" := PBool true]> sensor].
Proof. vm_compute. reflexivity. Qed.

(** Scenario D: a remote update is applied and nothing is emitted. *)
Example scenario_D :
  devices acknowledged
  = [<["connected" := PBool true]>
       (<["status" := PStr "On"]> (<["state" := state_25]> thermostat))]
  ∧ sio acknowledged = sio online.
Proof. split; vm_compute; reflexivity. Qed.

(** Scenario E: a valid edit of the state of the connected thermostat is
    applied and published once. *)
Example scenario_E :
  let text := quoted "[{'fieldName':'temp','datatype':'number','value':30}]" in
  let r := edit_cell 0 4 text acknowledged in
  ∃ d state,
    r.1 = Return tt ∧ devices r.2 = [d] ∧ json.loads text = Some state
    ∧ d = <["state" := state]>
            (<["connected" := PBool true]>
               (<["status" := PStr "On"]> (<["state" := state_25]> thermostat)))
    ∧ sio r.2 = (sio acknowledged
                 ++ [sio_emit "spoof_app_iot_device_update"
                       (PDict (delete "connected" d))])%list.
Proof.
  intros text r.
  exists (<["state" := state_30]>
            (<["connected" := PBool true]>
               (<["status" := PStr "On"]> (<["state" := state_25]> thermostat)))),
         state_30.
  split_and!; vm_compute; reflexivity.
Qed.

(** C1, at an input the code mishandles.  The operator types a text that
    is not JSON into the state cell of the thermostat: the handler raises
    [JSONDecodeError] and the cell keeps the text; the registry and the
    channel are untouched. *)
Theorem state_edit_not_json_raises :
  let r := edit_cell 0 4 "{" started in
  r.1 = Raise JSONDecodeError
  ∧ cell_text <$> cells (table r.2) !! (0, 4)%nat = Some "{"
  ∧ devices r.2 = devices started
  ∧ sio r.2 = sio started.
Proof. intros r. split_and!; vm_compute; reflexivity. Qed.

(** C2, at an input the code mishandles.  The thermostat is connected and
    the operator has disconnected the channel: an accepted edit of its
    status still calls [sio.emit]. *)
Theorem edit_while_disconnected_emits :
  let r := edit_cell 0 5 "Off" offline in
  connected offline = false
  ∧ (∃ d, devices offline = [d] ∧ d !! "connected" = Some (PBool true))
  ∧ ∃ d', devices r.2 = [d']
     ∧ sio r.2 = (sio offline
                  ++ [sio_emit "spoof_app_iot_device_update"
                        (PDict (delete "connected" d'))])%list.
Proof.
  intros r.
  set (d := <["connected" := PBool true]>
              (<["status" := PStr "On"]> (<["state" := state_25]> thermostat))).
  split_and!.
  - vm_compute. reflexivity.
  - exists d. split; vm_compute; reflexivity.
  - exists (<["status" := PStr "Off"]> d). split; vm_compute; reflexivity.
Qed.

(** An address that is not equal to itself is outside the data model, and
    outside what the merge absorbs: [json.loads] reads NaN as a float, and
    a device whose address is NaN is appended by every merge. *)
Example nan_address_appended_again :
  let stray : gmap string pyval := {["ipAddress" := PFloat FNaN]} in
  json.loads "NaN" = Some (PFloat FNaN)
  ∧ length (devices (receive_connected_iot_devices [stray] online).2) = 2%nat
  ∧ length (devices (receive_connected_iot_devices [stray]
                       (receive_connected_iot_devices [stray] online).2).2)
    = 3%nat.
Proof. intros stray. split_and!; vm_compute; reflexivity. Qed.


Lemma snapshot_merges_keep_addresses_unique_witness :
  unique_addresses (devices started)
  ∧ unique_addresses
      (devices (after_snapshots [[sensor; sensor]; [twin; sensor]] started)).
Proof.
  assert (unique_addresses (devices started)) as Hu
    by (rewrite started_devices; exact thermostat_unique).
  split; [exact Hu|].
  exact (snapshot_merges_keep_addresses_unique _ started Hu).
Defined.

Lemma merge_snapshot_idempotent_witness :
  devices (receive_connected_iot_devices [sensor; twin; sensor]
             (receive_connected_iot_devices [sensor; twin; sensor] online).2).2
  = devices (receive_connected_iot_devices [sensor; twin; sensor] online).2.
Proof.
  apply merge_snapshot_idempotent.
  repeat constructor; intros a Ha; vm_compute in Ha; injection Ha as <-;
    apply str_self_equal.
Defined.

Lemma remote_update_effect_witness :
  let self' := (receive_iot_device_update update_25 online).2 in
  ∃ d',
    devices self' = <[0%nat := d']> (devices online)
    ∧ d' !! "state" = Some state_25
    ∧ d' !! "status" = Some (PStr "On")
    ∧ d' !! "connected" = Some (PBool true)
    ∧ d' !! "ipAddress" = thermostat !! "ipAddress"
    ∧ d' !! "name" = thermostat !! "name"
    ∧ d' !! "description" = thermostat !! "description"
    ∧ d' !! "faultStatus" = thermostat !! "faultStatus".
Proof.
  intros self'. subst self'.
  destruct (remote_update_effect update_25 (PStr "10.0.0.5") state_25
              (PStr "On") online) as [Hfound _];
    [vm_compute; reflexivity..|].
  destruct (Hfound 0%nat thermostat) as (d' & Hd & Hs & Ht & Hc & Hother & _).
  - rewrite online_devices. reflexivity.
  - exists (PStr "10.0.0.5"). split; vm_compute; reflexivity.
  - intros j dj Hj. lia.
  - exists d'.
    split_and!; [exact Hd|exact Hs|exact Ht|exact Hc
                |apply Hother; discriminate..].
Defined.

Lemma bulk_announcement_unconnected_only_witness :
  let r := send_unconnected_iot_devices online in
  r.1 = Return tt
  ∧ sio r.2 = (sio online
               ++ [sio_emit "unconnected_iot_devices"
                     (PList [PDict (delete "connected" thermostat)])])%list
  ∧ devices r.2 = devices online.
Proof.
  intros r. subst r.
  destruct (bulk_announcement_unconnected_only online) as (Hr & Hs & Hd & _).
  - vm_compute. reflexivity.
  - rewrite online_devices. exact thermostat_connected_bool.
  - rewrite online_devices in Hs.
    split_and!; [exact Hr|exact Hs|exact Hd].
Defined.

Lemma snapshot_keeps_unconnected_device_witness :
  let self1 := (receive_connected_iot_devices [sensor; twin] online).2 in
  devices self1 !! 0%nat = Some thermostat
  ∧ (<["connected" := PBool true]> twin ∉ drop 1 (devices self1))
  ∧ sio (handle_cell_change {| row := 0; column := 5; text := "On" |} self1).2
    = sio self1
  ∧ ∃ payload,
      sio (connect_handler true self1).2
      = (sio self1 ++ [sio_connect SERVER_URL;
                       sio_emit "unconnected_iot_devices" (PList payload)])%list
      ∧ PDict (delete "connected" thermostat) ∈ payload.
Proof.
  intros self1. subst self1.
  destruct (snapshot_keeps_unconnected_device [sensor; twin] online 0
              thermostat (PStr "10.0.0.5") twin (PStr "10.0.0.5"))
    as (Hkept & Hnot & Hedit & Hnext).
  - rewrite online_devices. exact thermostat_connected_bool.
  - rewrite online_devices. reflexivity.
  - vm_compute. reflexivity.
  - vm_compute. reflexivity.
  - apply list_elem_of_further, list_elem_of_here.
  - vm_compute. reflexivity.
  - vm_compute. reflexivity.
  - split_and!.
    + exact Hkept.
    + rewrite online_devices in Hnot. exact Hnot.
    + apply Hedit. eexists. split; vm_compute; reflexivity.
    + apply Hnext. reflexivity.
Defined.

Lemma bulk_load_booleans_at_rest_witness :
  read_unconnected_iot_devices [lamp_row] = Return [lamp]
  ∧ Forall booleans_at_rest [lamp].
Proof.
  assert (read_unconnected_iot_devices [lamp_row] = Return [lamp]) as Hload
    by (vm_compute; reflexivity).
  split; [exact Hload|].
  exact (bulk_load_booleans_at_rest [lamp_row] [lamp] Hload).
Defined.

(** C7 as it was stated fails on the remote-update path: the text of a
    boolean entry is stored as it arrived. *)
Lemma remote_update_keeps_textual_boolean :
  Forall booleans_at_rest (devices online)
  ∧ ¬ Forall booleans_at_rest (devices (receive_iot_device_update update_text online).2).
Proof.
  split.
  - rewrite online_devices. constructor; [|constructor].
    intros entries [= <-]. constructor; [|constructor].
    intros d datatype [= <-] Hdt Hb. vm_compute in Hdt.
    injection Hdt as <-. done.
  - assert (devices (receive_iot_device_update update_text online).2
            = [updated state_text (PStr "On") thermostat]) as ->
      by (vm_compute; reflexivity).
    intros Hall. apply Forall_inv in Hall.
    pose proof (Hall (match state_text with PList l => l | _ => [] end)) as Hentries.
    apply Forall_inv in Hentries; [|vm_compute; reflexivity].
    destruct (Hentries _ (PStr "boolean") eq_refl) as [b Hb];
      [reflexivity|reflexivity|].
    vm_compute in Hb. discriminate.
Qed.

(** C8 as it was stated fails: an entry with a fourth field is accepted. *)
Lemma validator_accepts_extra_field :
  validate state_with_unit DEVICE_STATE_SCHEMA = true
  ∧ ¬ conforms_exactly state_with_unit.
Proof.
  split; [reflexivity|].
  intros (entries & [= <-] & Hall). apply Forall_inv in Hall.
  destruct Hall as (d & [= <-] & _ & Hdom).
  assert ("unit" ∈ ({["fieldName"; "datatype"; "value"]} : gset string)) as Hin.
  { rewrite <- Hdom. apply elem_of_dom. exists (PStr "C"). reflexivity. }
  set_solver.
Qed.

(** ** The properties beyond the claims, at concrete inputs *)

Lemma acknowledged_devices : devices acknowledged = [thermostat_on].
Proof. vm_compute. reflexivity. Qed.

Lemma state_edit_accepted_witness :
  let it := {| row := 0; column := 4; text := state_30_text |} in
  let d' := <["state" := state_30]> thermostat_on in
  let r := handle_cell_change it acknowledged in
  r.1 = Return tt
  ∧ devices r.2 = <[0%nat := d']> (devices acknowledged)
  ∧ sio r.2 = (sio acknowledged ++ [delta d'])%list
  ∧ table r.2 = table acknowledged
  ∧ internal_change r.2 = false
  ∧ connected r.2 = connected acknowledged.
Proof.
  intros it d' r.
  apply (state_edit_accepted it acknowledged 0 thermostat_on (PBool true) state_30).
  - vm_compute. reflexivity.
  - exists (Cell "10.0.0.5" false). split; vm_compute; reflexivity.
  - reflexivity.
  - vm_compute. reflexivity.
  - vm_compute. reflexivity.
  - rewrite acknowledged_devices. reflexivity.
  - vm_compute. reflexivity.
Defined.

Lemma state_edit_rejected_witness :
  let it := {| row := 0; column := 4; text := "[1]" |} in
  handle_cell_change it started
  = (Return tt,
     set_table (put_item 0 4 (json_dumps (PList [PDict (list_to_map [
       ("fieldName", PStr "temp"); ("datatype", PStr "number");
       ("value", PInt 21)])]))) started).
Proof.
  intros it.
  apply (state_edit_rejected it started 0 thermostat _ (PList [PInt 1])).
  - vm_compute. reflexivity.
  - exists (Cell "10.0.0.5" false). split; vm_compute; reflexivity.
  - reflexivity.
  - vm_compute. reflexivity.
  - vm_compute. reflexivity.
  - rewrite started_devices. reflexivity.
  - vm_compute. reflexivity.
Defined.

Lemma status_edit_witness :
  let it := {| row := 0; column := 5; text := "On" |} in
  handle_cell_change it started
  = (Return tt, accepted 0 (<["status" := PStr "On"]> thermostat) (PBool false) started).
Proof.
  intros it.
  apply (status_edit it started 0 thermostat (PBool false) (PStr "Off")).
  - vm_compute. reflexivity.
  - exists (Cell "10.0.0.5" false). split; vm_compute; reflexivity.
  - reflexivity.
  - rewrite started_devices. reflexivity.
  - vm_compute. reflexivity.
  - vm_compute. reflexivity.
Defined.

Lemma fault_edit_witness :
  let it := {| row := 0; column := 6; text := "Broken" |} in
  handle_cell_change it started
  = (Return tt, set_table (put_item 0 6 (py_str (PStr "Ok"))) started).
Proof.
  intros it.
  apply (fault_edit it started 0 thermostat (PBool false) (PStr "Ok")).
  - vm_compute. reflexivity.
  - exists (Cell "10.0.0.5" false). split; vm_compute; reflexivity.
  - reflexivity.
  - rewrite started_devices. reflexivity.
  - vm_compute. reflexivity.
  - vm_compute. reflexivity.
Defined.

Lemma edit_of_unknown_device_ignored_witness :
  let it := {| row := 3; column := 5; text := "On" |} in
  cells (table started) !! (3, 1)%nat = None
  ∧ handle_cell_change it started = (Return tt, started).
Proof.
  intros it.
  assert (cells (table started) !! (3, 1)%nat = None) as Hnone
    by (vm_compute; reflexivity).
  split; [exact Hnone|].
  apply (edit_of_unknown_device_ignored it started). left. exact Hnone.
Defined.

Lemma other_column_event_witness :
  let it := {| row := 0; column := 2; text := "Boiler" |} in
  handle_cell_change it acknowledged
  = (Return tt, set_sio (λ calls, (calls ++ [delta thermostat_on])%list) acknowledged).
Proof.
  intros it.
  apply (other_column_event it acknowledged 0 thermostat_on (PBool true)).
  - vm_compute. reflexivity.
  - exists (Cell "10.0.0.5" false). split; vm_compute; reflexivity.
  - left. cbn. lia.
  - rewrite acknowledged_devices. reflexivity.
  - vm_compute. reflexivity.
Defined.

Lemma online_addressed :
  Forall (λ d : gmap string pyval, is_Some (d !! "ipAddress")) (devices online).
Proof.
  rewrite online_devices. constructor; [|constructor].
  exists (PStr "10.0.0.5"). vm_compute. reflexivity.
Qed.

Lemma snapshot_devices_are_found_witness :
  let self' := (receive_connected_iot_devices [sensor; twin] online).2 in
  ∃ i d, (search_devices (PStr "10.0.0.9") self').1 = Return (Some i)
         ∧ devices self' !! i = Some d ∧ matches (PStr "10.0.0.9") d.
Proof.
  cbv zeta.
  apply (snapshot_devices_are_found [sensor; twin] online sensor (PStr "10.0.0.9")).
  - exact online_addressed.
  - constructor; [|constructor; [|constructor]].
    + exists (PStr "10.0.0.9"). split; vm_compute; reflexivity.
    + exists (PStr "10.0.0.5"). split; vm_compute; reflexivity.
  - apply list_elem_of_here.
  - vm_compute. reflexivity.
Defined.

Lemma snapshot_stops_at_device_without_address_witness :
  receive_connected_iot_devices [sensor; nameless; twin] online
  = (Raise (KeyError "ipAddress"),
     set_devices (λ _, merge [sensor] (devices online)) online).
Proof.
  apply (snapshot_stops_at_device_without_address [sensor] nameless [twin] online).
  - exact online_addressed.
  - constructor; [|constructor].
    exists (PStr "10.0.0.9"). vm_compute. reflexivity.
  - vm_compute. reflexivity.
Defined.



Lemma haunted_devices :
  devices haunted = ([thermostat] ++ <["connected" := PBool true]> ghost :: [])%list.
Proof. vm_compute. reflexivity. Qed.

Lemma thermostat_displayable : Forall displayable [thermostat].
Proof.
  constructor; [|constructor]. apply displayable_by_run. vm_compute. reflexivity.
Qed.

Lemma refresh_failure_keeps_guard_witness :
  let r := populate_table haunted in
  r.1 = Raise (KeyError "name")
  ∧ backend r.2 = backend haunted
  ∧ internal_change r.2 = true
  ∧ ∀ it, handle_cell_change it r.2 = (Return tt, r.2).
Proof.
  apply (refresh_failure_keeps_guard
           [thermostat] (<["connected" := PBool true]> ghost) []).
  - exact haunted_devices.
  - exact thermostat_displayable.
  - vm_compute. reflexivity.
Defined.

Lemma snapshot_with_incomplete_device_witness :
  let r := receive_connected_iot_devices [ghost] online in
  r.1 = Raise (KeyError "name")
  ∧ devices r.2 = merge [ghost] (devices online)
  ∧ sio r.2 = sio online
  ∧ internal_change r.2 = true
  ∧ ∀ it, handle_cell_change it r.2 = (Return tt, r.2).
Proof.
  apply (snapshot_with_incomplete_device [ghost] online
           [thermostat] (<["connected" := PBool true]> ghost) []).
  - exact online_addressed.
  - constructor; [|constructor].
    exists (PStr "10.0.0.66"). vm_compute. reflexivity.
  - rewrite online_devices. vm_compute. reflexivity.
  - exact thermostat_displayable.
  - vm_compute. reflexivity.
Defined.

Lemma events_keep_devices_witness :
  devices started !! 0%nat = Some thermostat
  ∧ ∃ d', devices (after_events day started) !! 0%nat = Some d'
          ∧ ∀ key, key ∉ assigned → d' !! key = thermostat !! key.
Proof.
  assert (devices started !! 0%nat = Some thermostat) as Hd
    by (rewrite started_devices; reflexivity).
  split; [exact Hd|].
  exact (events_keep_devices day started 0 thermostat Hd).
Defined.

Lemma connected_field_never_cleared_witness :
  let evs := [Disconnect; Edited {| row := 0; column := 5; text := "Off" |};
              Snapshot [twin]; Connect false] in
  devices acknowledged !! 0%nat = Some thermostat_on
  ∧ ∃ d', devices (after_events evs acknowledged) !! 0%nat = Some d'
          ∧ d' !! "connected" = Some (PBool true).
Proof.
  intros evs.
  assert (devices acknowledged !! 0%nat = Some thermostat_on) as Hd
    by (rewrite acknowledged_devices; reflexivity).
  split; [exact Hd|].
  apply (connected_field_never_cleared evs acknowledged 0 thermostat_on Hd).
  vm_compute. reflexivity.
Defined.

Lemma events_keep_addresses_unique_witness :
  unique_addresses (devices started)
  ∧ unique_addresses (devices (after_events day started)).
Proof.
  assert (unique_addresses (devices started)) as Hu
    by (rewrite started_devices; exact thermostat_unique).
  split; [exact Hu|].
  exact (events_keep_addresses_unique day started Hu).
Defined.


Lemma bulk_load_boolean_is_truthiness_witness :
  ∃ d entries',
    [thermostat; heater] !! 1%nat = Some d
    ∧ d !! "state" = Some (PList entries')
    ∧ entries' !! 0%nat
      = Some (PDict (<["value" := PBool (py_bool (PStr "false"))]> heating_entry)).
Proof.
  apply (bulk_load_boolean_is_truthiness [thermostat_row; heater_row]
           [thermostat; heater] 1 heater_row
           (quoted "[{'fieldName':'heating','datatype':'boolean','value':'false'}]")
           [PDict heating_entry] 0 heating_entry (PStr "false")).
  - vm_compute. reflexivity.
  - reflexivity.
  - vm_compute. reflexivity.
  - vm_compute. reflexivity.
  - reflexivity.
  - vm_compute. reflexivity.
  - vm_compute. reflexivity.
Defined.

Lemma bulk_load_stops_at_bad_row_witness :
  Forall (λ r, ∃ d, read_device r = Return d) [thermostat_row]
  ∧ read_unconnected_iot_devices [thermostat_row; stateless_row; heater_row]
    = Raise (KeyError "state").
Proof.
  assert (Forall (λ r, ∃ d, read_device r = Return d) [thermostat_row]) as Hb.
  { constructor; [|constructor]. exists thermostat. vm_compute. reflexivity. }
  split; [exact Hb|].
  destruct (bulk_load_stops_at_bad_row [thermostat_row] stateless_row
              [heater_row] Hb) as (Hstate & _).
  apply Hstate. vm_compute. reflexivity.
Defined.

Lemma thermostat_csv_row : Forall csv_row [thermostat_row].
Proof.
  constructor; [|constructor]. intros key Hkey. unfold shown_columns in Hkey.
  repeat (apply elem_of_cons in Hkey as [->|Hkey];
          [eexists; vm_compute; reflexivity|]).
  by apply elem_of_nil in Hkey.
Qed.

Lemma start_up_shows_loaded_devices_witness :
  ∃ self,
    init [thermostat_row] = Return self
    ∧ devices self = [thermostat]
    ∧ internal_change self = false
    ∧ connected self = false
    ∧ sio self = []
    ∧ rowCount (table self) = length [thermostat]
    ∧ ∀ i c, (c < columnCount)%nat →
             cells (table self) !! (i, c) = display [thermostat] i c.
Proof.
  apply (start_up_shows_loaded_devices [thermostat_row] [thermostat]).
  - vm_compute. reflexivity.
  - exact thermostat_csv_row.
Defined.


End Scenarios.
